(** * PMID corpus utilities: inventory parsing, reconciliation, download workers

    A shallow embedding of the batch scripts of the repository:
    - [s3_csv_inventory.py]  ([parse_csv_pmids], [get_s3_pmids], [analyze_pmids]),
    - [aws_upload.py]        ([parse_csv_inventory]),
    - [aws_download.py]      ([read_pmid_locations], [download_file],
                              [get_optimal_worker_count]),
    - [download_pdfs.py]     ([download_pdf], [process_chunk], [main]),
    - [metapub_download.py]  (the rate limiter of [find_with_timeout], [gather_urls]).

    Python sets are [gset Z], dicts are [gmap], logging is an explicit
    chronological list of records, exceptions are an explicit result type and
    the outside world (HTTP, S3, the file system, the clock, the scheduler) is
    an oracle passed as an argument. *)

From stdpp Require Import gmap strings list fin_maps pretty sorting.
From Stdlib Require Import ZArith QArith Lqa Ascii.

Open Scope string_scope.
Open Scope list_scope.
Open Scope Z_scope.

(** ** Python values, exceptions and logging *)

Inductive level := DEBUG | INFO | WARNING | ERROR.

Inductive exn :=
| ValueError (msg : string)
| TypeError (msg : string)
| KeyError (key : string)
| OSError (msg : string).

Inductive res (A : Type) :=
| Ok (a : A)
| Raise (e : exn).
Arguments Ok {A} a.
Arguments Raise {A} e.

Definition log_record : Type := level * string.

#[global] Instance level_eq_dec : EqDecision level.
Proof. solve_decision. Defined.

(** What a run does to the outside world, in the order it happens. *)
Inductive event :=
| EvLog (lvl : level) (msg : string)
| EvMakedirs (path : string)
| EvMkdirParents (file : string)
| EvHttpGet (url : string)
| EvWrite (path : string)
| EvS3Download (bucket key filename : string)
| EvGather (ids : list Z)
| EvExtend (n : nat)
| EvSleep (secs : Z).

#[global] Instance event_eq_dec : EqDecision event.
Proof. solve_decision. Defined.

Definition is_http_get (e : event) : bool :=
  match e with EvHttpGet _ => true | _ => false end.

(** The values of the result dicts. *)
Inductive pyval :=
| PyNone
| PyInt (z : Z)
| PyStr (s : string).

#[global] Instance pyval_eq_dec : EqDecision pyval.
Proof. solve_decision. Defined.

(** ** Strings: [str.split], [str.join], [str.lstrip], [in] *)

Fixpoint split_on (sep : Ascii.ascii) (s : string) : list string :=
  match s with
  | EmptyString => [""]
  | String c s' =>
      if Ascii.eqb c sep then "" :: split_on sep s'
      else match split_on sep s' with
           | [] => [String c ""]
           | w :: ws => String c w :: ws
           end
  end.

Fixpoint join (sep : string) (parts : list string) : string :=
  match parts with
  | [] => ""
  | [part] => part
  | part :: parts' => part +:+ sep +:+ join sep parts'
  end.

Fixpoint lstrip (c : Ascii.ascii) (s : string) : string :=
  match s with
  | EmptyString => ""
  | String c' s' => if Ascii.eqb c' c then lstrip c s' else s
  end.

(** [c in text] *)
Fixpoint has_char (c : Ascii.ascii) (text : string) : bool :=
  match text with
  | EmptyString => false
  | String c' text' => (Ascii.eqb c' c || has_char c text')%bool
  end.

(** The number of occurrences of [c] in [text]. *)
Fixpoint count_char (c : Ascii.ascii) (text : string) : nat :=
  match text with
  | EmptyString => 0%nat
  | String c' text' =>
      ((if Ascii.eqb c' c then 1 else 0) + count_char c text')%nat
  end.

(** [text.split("//")]: the pieces between the occurrences of two slashes,
    found from the left and not overlapping. *)
Fixpoint split_slashes (text : string) : list string :=
  match text with
  | EmptyString => [""]
  | String "/" (String "/" rest) => "" :: split_slashes rest
  | String c rest =>
      match split_slashes rest with
      | [] => [String c ""]
      | w :: ws => String c w :: ws
      end
  end.

(** ** s3_csv_inventory.py and the parser of aws_upload.py *)

Module Inventory.

(** A row produced by [csv.DictReader]: a dict from the header's field names
    to the row's text, where a field the row is too short for holds [None]
    (the reader's default [restval]). *)
Abbreviation csv_row := (gmap string (option string)).

Record parse_state := ParseState {
  pmids : gset Z;
  seen_pmids : gmap Z nat;
  log : list log_record
}.

Definition duplicate_msg (pmid : Z) (i first : nat) : string :=
  "Duplicate PMID " +:+ pretty pmid +:+ " found in row " +:+ pretty i +:+ ". "
  +:+ "First occurrence in row " +:+ pretty first.

Definition invalid_msg (i : nat) (raw : string) : string :=
  "Invalid PMID format in row " +:+ pretty i +:+ ": " +:+ raw.

Definition unparsed_msg (filename : string) : string :=
  "Could not parse PMID from filename: " +:+ filename.

Section Parsers.

(** Python's builtin [int] on a [str]: [None] stands for [ValueError]. *)
Variable int_of_str : string -> option Z.

(** [pathlib.Path(key).stem]. *)
Variable path_stem : string -> string.

(** One iteration of the loop of [parse_csv_pmids]: the body of the [try],
    with the [except ValueError] handler.  [row["PMID"]] raises [KeyError]
    when the header has no such column, and [int(None)] raises [TypeError];
    neither is caught. *)
Definition parse_row (i : nat) (row : csv_row) (st : parse_state)
  : res parse_state :=
  match row !! "PMID" with
  | None => Raise (KeyError "PMID")
  | Some None =>
      Raise (TypeError
               "int() argument must be a string, a bytes-like object or a real number, not 'NoneType'")
  | Some (Some raw) =>
      match int_of_str raw with
      | Some pmid =>
          if decide (pmid ∈ pmids st) then
            match seen_pmids st !! pmid with
            | Some first =>
                Ok (ParseState (pmids st) (seen_pmids st)
                      (log st ++ [(WARNING, duplicate_msg pmid i first)]))
            | None => Raise (KeyError (pretty pmid))
            end
          else
            Ok (ParseState ({[pmid]} ∪ pmids st)
                  (<[pmid := i]> (seen_pmids st)) (log st))
      | None =>
          Ok (ParseState (pmids st) (seen_pmids st)
                (log st ++ [(ERROR, invalid_msg i raw)]))
      end
  end.

(** [for i, row in enumerate(reader, start=i): ...] *)
Fixpoint parse_rows (i : nat) (rows : list csv_row) (st : parse_state)
  : res parse_state :=
  match rows with
  | [] => Ok st
  | row :: rows' =>
      match parse_row i row st with
      | Ok st' => parse_rows (S i) rows' st'
      | Raise e => Raise e
      end
  end.

Definition start_row (has_header : bool) : nat :=
  if has_header then 2%nat else 1%nat.

(** [parse_csv_pmids]: the returned set, together with the log it wrote. *)
Definition parse_csv_pmids (rows : list csv_row) (has_header : bool)
  : res (gset Z * list log_record) :=
  match parse_rows (start_row has_header) rows (ParseState ∅ ∅ []) with
  | Ok st => Ok (pmids st, log st)
  | Raise e => Raise e
  end.

(** A page of [list_objects_v2]: the keys under ["Contents"], when the page
    has that entry. *)
Definition s3_page : Type := option (list string).

Definition s3_object (key : string) (st : gset Z * list log_record)
  : gset Z * list log_record :=
  let filename := path_stem key in
  match int_of_str filename with
  | Some pmid => ({[pmid]} ∪ st.1, st.2)
  | None => (st.1, st.2 ++ [(WARNING, unparsed_msg filename)])
  end.

Definition s3_objects (keys : list string) (st : gset Z * list log_record)
  : gset Z * list log_record :=
  foldl (fun acc key => s3_object key acc) st keys.

(** [get_s3_pmids], from the pages the paginator yields. *)
Definition get_s3_pmids (pages : list s3_page) : gset Z * list log_record :=
  foldl (fun acc page =>
           match page with
           | Some keys => s3_objects keys acc
           | None => acc
           end) (∅, []) pages.

(** *** aws_upload.py: [parse_csv_inventory]

    A [Path] is kept as the text it was built from; [path_str] is [str(Path(_))]. *)

Variable path_str : string -> string.

Record inventory_state := InventoryState {
  upload_list : list string;
  processed_accessions : gset Z;
  inv_log : list log_record
}.

Definition duplicate_accession_msg (accession_num : Z) (pdf_path : string)
  : string :=
  "Duplicate accession number found: " +:+ pretty accession_num +:+ " - "
  +:+ path_str pdf_path.

Definition invalid_accession_msg (stem : string) : string :=
  "Invalid accession number format: " +:+ stem.

(** One iteration of the loop: [Path(row["name"])] is outside the inner [try],
    so a missing column or field raises. *)
Definition inventory_row (row : csv_row) (st : inventory_state)
  : res inventory_state :=
  match row !! "name" with
  | None => Raise (KeyError "name")
  | Some None =>
      Raise (TypeError "expected str, bytes or os.PathLike object, not NoneType")
  | Some (Some pdf_path) =>
      match int_of_str (path_stem pdf_path) with
      | Some accession_num =>
          if decide (accession_num ∈ processed_accessions st) then
            Ok (InventoryState (upload_list st) (processed_accessions st)
                  (inv_log st ++
                   [(WARNING, duplicate_accession_msg accession_num pdf_path)]))
          else
            Ok (InventoryState (upload_list st ++ [pdf_path])
                  ({[accession_num]} ∪ processed_accessions st) (inv_log st))
      | None =>
          Ok (InventoryState (upload_list st) (processed_accessions st)
                (inv_log st ++
                 [(ERROR, invalid_accession_msg (path_stem pdf_path))]))
      end
  end.

Fixpoint inventory_rows (rows : list csv_row) (st : inventory_state)
  : res inventory_state :=
  match rows with
  | [] => Ok st
  | row :: rows' =>
      match inventory_row row st with
      | Ok st' => inventory_rows rows' st'
      | Raise e => Raise e
      end
  end.

(** [parse_csv_inventory]; the outer handler logs and re-raises. *)
Definition parse_csv_inventory (rows : list csv_row)
  : res (list string * gset Z * list log_record) :=
  match inventory_rows rows (InventoryState [] ∅ []) with
  | Ok st => Ok (upload_list st, processed_accessions st, inv_log st)
  | Raise e => Raise e
  end.

End Parsers.

(** The dict returned by [analyze_pmids]. *)
Record analysis := Analysis {
  csv_unique : nat;
  s3_unique : nat;
  common : nat;
  missing : nat;
  extra : nat;
  missing_pmids : list Z;
  extra_pmids : list Z
}.

Definition sorted_list (s : gset Z) : list Z := merge_sort Z.le (elements s).

Definition analyze_pmids (csv_pmids s3_pmids : gset Z) : analysis :=
  let common_pmids := csv_pmids ∩ s3_pmids in
  let missing_pmids := csv_pmids ∖ s3_pmids in
  let extra_pmids := s3_pmids ∖ csv_pmids in
  {| csv_unique := size csv_pmids;
     s3_unique := size s3_pmids;
     common := size common_pmids;
     missing := size missing_pmids;
     extra := size extra_pmids;
     missing_pmids := sorted_list missing_pmids;
     extra_pmids := sorted_list extra_pmids |}.

End Inventory.

(** ** aws_download.py *)

Module AwsDownload.

(** The dicts of the file manifest: always the same three keys. *)
Record file_info := FileInfo {
  s3_key : string;
  local_name : string;
  pmid : string
}.

Definition malformed_msg (stripped : string) : string :=
  "Skipping malformed line: " +:+ stripped.

Section Manifest.

(** [str.strip] and [urllib.parse.urlparse], which yields the [netloc] and the
    [path] of the URI or raises [ValueError] ([None]). *)
Variable str_strip : string -> string.
Variable urlparse : string -> option (string * string).

Definition parse_s3_uri (s3_uri : string) : option (string * string) :=
  match urlparse s3_uri with
  | Some (netloc, path) => Some (netloc, lstrip "/"%char path)
  | None => None
  end.

(** The body of the loop of [read_pmid_locations] for one line of the file. *)
Definition read_line (line : string)
  (acc : list file_info * list log_record) : list file_info * list log_record :=
  if decide (str_strip line = "") then acc
  else
    match split_on ","%char (str_strip line) with
    | [pmid; s3_uri] =>
        match parse_s3_uri s3_uri with
        | Some (bucket, key) =>
            let subdir :=
              if decide (3 <= String.length pmid)%nat then String.substring 0 3 pmid
              else "other" in
            (acc.1 ++ [FileInfo key (subdir +:+ "/" +:+ pmid +:+ ".pdf") pmid],
             acc.2)
        | None => (acc.1, acc.2 ++ [(WARNING, malformed_msg (str_strip line))])
        end
    | _ => (acc.1, acc.2 ++ [(WARNING, malformed_msg (str_strip line))])
    end.

Definition read_pmid_locations (lines : list string)
  : list file_info * list log_record :=
  foldl (fun acc line => read_line line acc) ([], []) lines.

End Manifest.

(** The S3 client and the file system, as [download_file] sees them: each call
    either succeeds ([None]) or raises with a message. *)
Record world := World {
  mkdir_parents : string -> option string;
  s3_download : string -> string -> string -> option string
}.

Definition downloaded_msg (fi : file_info) : string :=
  "Successfully downloaded PMID " +:+ pmid fi +:+ " to " +:+ local_name fi.

Definition failed_msg (fi : file_info) (e : string) : string :=
  "Failed to download PMID " +:+ pmid fi +:+ " (" +:+ s3_key fi +:+ "): " +:+ e.

(** [download_file]: the key as listed first and, when that raises, the key
    with every [/] doubled.  The handler returns [False] on both of its paths. *)
Definition download_file (w : world) (fi : file_info)
  (bucket_name local_dir : string) : bool * list event :=
  let local_path := local_dir +:+ "/" +:+ local_name fi in
  let first :=
    match mkdir_parents w local_path with
    | Some _ => (false, [EvMkdirParents local_path])
    | None =>
        match s3_download w bucket_name (s3_key fi) local_path with
        | None =>
            (true, [EvMkdirParents local_path;
                    EvS3Download bucket_name (s3_key fi) local_path;
                    EvLog INFO (downloaded_msg fi)])
        | Some _ =>
            (false, [EvMkdirParents local_path;
                     EvS3Download bucket_name (s3_key fi) local_path])
        end
    end in
  if first.1 then (true, first.2)
  else
    let amended_key := join "//" (split_on "/"%char (s3_key fi)) in
    match s3_download w bucket_name amended_key local_path with
    | None =>
        (false, first.2 ++ [EvS3Download bucket_name amended_key local_path])
    | Some e =>
        (false, first.2 ++ [EvS3Download bucket_name amended_key local_path;
                            EvLog ERROR (failed_msg fi e)])
    end.

(** [get_optimal_worker_count], from [multiprocessing.cpu_count()]. *)
Definition get_optimal_worker_count (cpu_count : Z) : Z :=
  Z.min (Z.max (cpu_count * 2) 4) 32.

End AwsDownload.

(** ** download_pdfs.py *)

Module DownloadPdfs.

(** A cell of the data frame read by [pd.read_csv]: text, or NaN where the
    CSV has nothing (and [None], which the type annotations allow). *)
Inductive cell :=
| CellNone
| CellNaN
| CellStr (s : string).

(** [bool(url)]: NaN is a non-zero float, hence true. *)
Definition truthy (c : cell) : bool :=
  match c with
  | CellNone => false
  | CellNaN => true
  | CellStr s => negb (String.eqb s "")
  end.

(** [pd.notna(url)] *)
Definition notna (c : cell) : bool :=
  match c with
  | CellStr _ => true
  | _ => false
  end.

(** The guard [url and pd.notna(url)]. *)
Definition usable (c : cell) : bool := truthy c && notna c.

Definition cell_str (c : cell) : string :=
  match c with
  | CellNone => "None"
  | CellNaN => "nan"
  | CellStr s => s
  end.

Inductive slot := Primary | Backup.

(** What [session.get(url)] does: it raises, or a response comes with its
    status; reading the body and writing it to the file may raise in turn
    ([body = Some e]). *)
Inductive response :=
| RespRaise (e : string)
| RespStatus (status : Z) (body : option string).

(** The file system and the network for one run: the answer to the call made
    for identifier [pmid], in [slot], to [url]. *)
Record world := World {
  makedirs : Z -> option string;
  session_get : Z -> slot -> string -> response
}.

(** The dicts [download_pdf] returns. *)
Abbreviation outcome := (gmap string pyval).

Definition success_outcome (pmid : Z) (filepath : string) : outcome :=
  <["PMID" := PyInt pmid]>
    (<["Status" := PyStr "success"]> (<["Filepath" := PyStr filepath]> ∅)).

Definition failed_outcome (pmid : Z) : outcome :=
  <["PMID" := PyInt pmid]>
    (<["Status" := PyStr "failed"]> (<["Filepath" := PyStr ""]> ∅)).

Definition slot_failed_msg (sl : slot) (pmid : Z) (e : string) : string :=
  match sl with
  | Primary => "Primary URL failed for "
  | Backup => "Backup URL failed for "
  end +:+ pretty pmid +:+ ": " +:+ e.

Definition slot_success_msg (sl : slot) (pmid : Z) : string :=
  "Successfully downloaded " +:+ pretty pmid +:+
  match sl with
  | Primary => " from primary URL"
  | Backup => " from backup URL"
  end.

(** One inner [try]: the request, the status test, the write, the handler.
    A status other than 200 falls through without a word. *)
Definition attempt (w : world) (pmid : Z) (sl : slot) (url filepath : string)
  : bool * list event :=
  match session_get w pmid sl url with
  | RespRaise e => (false, [EvHttpGet url; EvLog WARNING (slot_failed_msg sl pmid e)])
  | RespStatus status body =>
      if decide (status = 200) then
        match body with
        | None =>
            (true, [EvHttpGet url; EvWrite filepath;
                    EvLog INFO (slot_success_msg sl pmid)])
        | Some e =>
            (false, [EvHttpGet url; EvWrite filepath;
                     EvLog WARNING (slot_failed_msg sl pmid e)])
        end
      else (false, [EvHttpGet url])
  end.

(** [download_pdf].  [os.makedirs] comes before the outer [try]: when it
    raises, so does the coroutine. *)
Definition download_pdf (w : world) (pmid : Z) (url backup_url : cell)
  : res outcome * list event :=
  let filepath := "pdfs/" +:+ pretty pmid +:+ ".pdf" in
  match makedirs w pmid with
  | Some e => (Raise (OSError e), [EvMakedirs "pdfs"])
  | None =>
      let first :=
        if usable url then attempt w pmid Primary (cell_str url) filepath
        else (false, []) in
      if first.1 then
        (Ok (success_outcome pmid filepath), EvMakedirs "pdfs" :: first.2)
      else
        let second :=
          if usable backup_url
          then attempt w pmid Backup (cell_str backup_url) filepath
          else (false, []) in
        if second.1 then
          (Ok (success_outcome pmid filepath),
           EvMakedirs "pdfs" :: first.2 ++ second.2)
        else
          (Ok (failed_outcome pmid),
           EvMakedirs "pdfs" :: first.2 ++ second.2 ++
           [EvLog ERROR ("Download failed for " +:+ pretty pmid)])
  end.

(** A row of the data frame. *)
Record row := Row {
  PMID : Z;
  URL : cell;
  Backup_URL : cell
}.

Definition returned {A : Type} (r : res A) : option A :=
  match r with
  | Ok a => Some a
  | Raise _ => None
  end.

Definition chunk_msg (chunk_num total_chunks : nat) : string :=
  "Processing chunk " +:+ pretty chunk_num +:+ "/" +:+ pretty total_chunks.

(** [process_chunk]: [asyncio.gather] with [return_exceptions=True] keeps
    the tasks' results in the order of the rows, and the comprehension drops
    those that are exceptions.  The events of the tasks are listed task after
    task; what a task does and returns does not depend on the interleaving. *)
Definition process_chunk (w : world) (chunk_data : list row)
  (chunk_num total_chunks : nat) : list outcome * list event :=
  let tasks :=
    map (fun r => download_pdf w (PMID r) (URL r) (Backup_URL r)) chunk_data in
  (omap (fun t => returned t.1) tasks,
   EvLog INFO (chunk_msg chunk_num total_chunks)
   :: EvGather (map PMID chunk_data) :: concat (map snd tasks)).

(** [range(0, stop, step)] *)
Definition range_step (stop step : nat) : list nat :=
  map (fun k => (k * step)%nat) (seq 0 ((stop + step - 1) / step)).

(** [[df[i : i + chunk_size] for i in range(0, len(df), chunk_size)]] *)
Definition chunks_of {A : Type} (chunk_size : nat) (df : list A)
  : list (list A) :=
  map (fun i => take chunk_size (drop i df)) (range_step (length df) chunk_size).

(** The loop of [main] from chunk number [i] on. *)
Fixpoint run_chunks (w : world) (i total_chunks : nat)
  (chunks : list (list row)) (results : list outcome)
  : list outcome * list event :=
  match chunks with
  | [] => (results, [])
  | chunk :: chunks' =>
      let done := process_chunk w chunk i total_chunks in
      let pause :=
        if decide (i < total_chunks)%nat
        then [EvLog INFO "Sleeping between chunks..."; EvSleep 1]
        else [] in
      let rest := run_chunks w (S i) total_chunks chunks' (results ++ done.1) in
      (rest.1, done.2 ++ [EvExtend (length done.1)] ++ pause ++ rest.2)
  end.

Definition chunk_size : nat := 10.

(** [main], from the rows of the CSV to the rows of the results frame. *)
Definition main (w : world) (df : list row) : list outcome * list event :=
  let chunks := chunks_of chunk_size df in
  run_chunks w 1 (length chunks) chunks [].

End DownloadPdfs.

(** ** metapub_download.py *)

Module MetapubDownload.

(** *** The rate limiter at the head of [find_with_timeout]

    Time is an exact rational number of seconds.  [find_with_timeout] runs on
    the threads of the default executor, one call per identifier of the chunk;
    a thread is followed through the four statements of the limiter, and the
    module-level [_last_request_time] is the one shared variable. *)

Definition REQUESTS_PER_SECOND : Q := 30.
Definition DELAY : Q := 1 / REQUESTS_PER_SECOND.

Inductive pc :=
| Idle                       (* between two calls *)
| Timed (current_time : Q)   (* [current_time = time.time()] is done *)
| Sleeping (until : Q)       (* inside [time.sleep] *)
| Stamping.                  (* before [_last_request_time = time.time()] *)

Record machine := Machine {
  now : Q;
  last_request_time : Q;
  threads : list pc;
  permits : list Q
}.

(** The clock advances, or one thread runs its next statement. *)
Inductive action :=
| Tick (d : Q)
| Run (tid : nat).

Definition set_thread (tid : nat) (p : pc) (m : machine) : machine :=
  Machine (now m) (last_request_time m) (<[tid := p]> (threads m)) (permits m).

(** One statement of thread [tid].  [time.sleep(d)] returns once at least [d]
    has passed since it was called; the permit is granted at the time written
    to [_last_request_time]. *)
Definition find_with_timeout_step (tid : nat) (m : machine) : option machine :=
  match threads m !! tid with
  | None => None
  | Some Idle => Some (set_thread tid (Timed (now m)) m)
  | Some (Timed current_time) =>
      let time_since_last_request := (current_time - last_request_time m)%Q in
      if Qlt_le_dec time_since_last_request DELAY
      then Some (set_thread tid
                   (Sleeping (now m + (DELAY - time_since_last_request))%Q) m)
      else Some (set_thread tid Stamping m)
  | Some (Sleeping until) =>
      if Qlt_le_dec (now m) until then None
      else Some (set_thread tid Stamping m)
  | Some Stamping =>
      Some (Machine (now m) (now m) (<[tid := Idle]> (threads m))
              (permits m ++ [now m]))
  end.

Definition exec_action (a : action) (m : machine) : option machine :=
  match a with
  | Tick d =>
      if Qlt_le_dec d 0 then None
      else Some (Machine (now m + d)%Q (last_request_time m) (threads m)
                   (permits m))
  | Run tid => find_with_timeout_step tid m
  end.

Fixpoint exec (schedule : list action) (m : machine) : option machine :=
  match schedule with
  | [] => Some m
  | a :: schedule' =>
      match exec_action a m with
      | Some m' => exec schedule' m'
      | None => None
      end
  end.

(** The module as loaded: [_last_request_time = 0], so many idle threads. *)
Definition boot (callers : nat) (t0 : Q) : machine :=
  Machine t0 0 (replicate callers Idle) [].

(** Consecutive permits are at least [d] apart. *)
Fixpoint spaced (d : Q) (ts : list Q) : Prop :=
  match ts with
  | t1 :: ((t2 :: _) as ts') => (t1 + d <= t2)%Q /\ spaced d ts'
  | _ => True
  end.

(** *** [get_urls] and [gather_urls] *)

(** The [PubMedArticle] behind [article.pma]. *)
Record pma_info := PmaInfo {
  doi : option string;
  title : option string;
  authors_str : option string;
  journal : option string
}.

(** The [FindIt] object: [backup_url] may be missing as an attribute. *)
Record article := Article {
  url : pyval;
  backup_url : option pyval;
  pma : option pma_info;
  reason : option string
}.

(** How the awaited call of [find_with_timeout] ends. *)
Inductive lookup :=
| LookupTimeout (e : string)
| LookupError (e : string)
| LookupNone
| LookupArticle (a : article).

Abbreviation url_row := (gmap string pyval).

Definition make_row (pmid : Z) (u b r t d a j : pyval) : url_row :=
  <["PMID" := PyInt pmid]> (<["URL" := u]> (<["Backup URL" := b]>
  (<["Reason" := r]> (<["Title" := t]> (<["DOI" := d]>
  (<["Authors" := a]> (<["Journal" := j]> ∅))))))).

Definition empty_row (pmid : Z) (why : string) : url_row :=
  make_row pmid PyNone PyNone (PyStr why) PyNone PyNone PyNone PyNone.

(** [x or ""] *)
Definition or_empty (x : option string) : string :=
  match x with
  | Some s => s
  | None => ""
  end.

Definition get_urls (find : Z -> lookup) (pmid : Z) : res url_row :=
  match find pmid with
  | LookupNone => Ok (empty_row pmid "Timeout or error in FindIt")
  | LookupTimeout e => Ok (empty_row pmid ("Timeout: " +:+ e))
  | LookupError e => Ok (empty_row pmid ("Error: " +:+ e))
  | LookupArticle a =>
      let backup :=
        match backup_url a with
        | Some b => b
        | None => PyStr ""
        end in
      match pma a with
      | Some p =>
          Ok (make_row pmid (url a) backup (PyStr (or_empty (reason a)))
                (PyStr (or_empty (title p))) (PyStr (or_empty (doi p)))
                (PyStr (or_empty (authors_str p)))
                (PyStr (or_empty (journal p))))
      | None =>
          let why :=
            if decide (or_empty (reason a) = "")
            then "article.pma.reason was None"
            else or_empty (reason a) in
          Ok (make_row pmid (url a) backup (PyStr why)
                (PyStr "") (PyStr "") (PyStr "") (PyStr ""))
      end
  end.

(** How the awaited [asyncio.wait_for(asyncio.gather(...), timeout=30)] of a
    chunk ends: in time, with the timeout (when the tasks for [finished] had
    already returned their rows), or with another exception. *)
Inductive timing :=
| InTime
| TimedOut (finished : list Z)
| Fatal (e : string).

Record world := World {
  find : Z -> lookup;
  chunk_timing : nat -> timing
}.

Definition repr_list (l : list Z) : string :=
  "[" +:+ join ", " (map pretty l) +:+ "]".

Definition task_error_msg (pmid : Z) (chunk_num : nat) (e : exn) : string :=
  "Failed to process PMID " +:+ pretty pmid +:+ " in chunk "
  +:+ pretty chunk_num +:+ ": " +:+
  match e with
  | ValueError m | TypeError m | KeyError m | OSError m => m
  end.

Definition chunk_size : nat := 10.

(** The body of the loop of [gather_urls] for the chunk starting at [i]. *)
Definition gather_chunk (w : world) (pmids : list Z)
  (acc : list url_row * list event) (i : nat) : list url_row * list event :=
  let total_pmids := length pmids in
  let chunk := take chunk_size (drop i pmids) in
  let chunk_num := (i / chunk_size + 1)%nat in
  let total_chunks := ((total_pmids + chunk_size - 1) / chunk_size)%nat in
  let of_total := pretty chunk_num +:+ "/" +:+ pretty total_chunks in
  let started :=
    [EvLog INFO ("Starting chunk " +:+ of_total +:+ " with PMIDs: "
                 +:+ repr_list chunk);
     EvLog DEBUG ("Awaiting gather for chunk " +:+ pretty chunk_num);
     EvGather chunk] in
  match chunk_timing w chunk_num with
  | InTime =>
      let chunk_results := map (fun pmid => (pmid, get_urls (find w) pmid)) chunk in
      let processed_results := omap (fun r => DownloadPdfs.returned r.2) chunk_results in
      let errors :=
        omap (fun r => match r.2 with
                       | Raise e => Some (EvLog ERROR (task_error_msg r.1 chunk_num e))
                       | Ok _ => None
                       end) chunk_results in
      (acc.1 ++ processed_results,
       acc.2 ++ started
       ++ [EvLog DEBUG ("Gather completed for chunk " +:+ pretty chunk_num)]
       ++ errors
       ++ [EvLog INFO ("Successfully processed "
                       +:+ pretty (length processed_results) +:+ "/"
                       +:+ pretty (length chunk) +:+ " PMIDs in chunk "
                       +:+ pretty chunk_num);
           EvExtend (length processed_results);
           EvLog INFO ("Completed chunk " +:+ of_total
                       +:+ ", sleeping for 1 second");
           EvSleep 1])
  | TimedOut _ =>
      (acc.1,
       acc.2 ++ started
       ++ [EvLog ERROR ("Entire chunk " +:+ pretty chunk_num
                        +:+ " timed out, moving to next chunk")])
  | Fatal e =>
      (acc.1,
       acc.2 ++ started
       ++ [EvLog ERROR ("Fatal error processing chunk " +:+ pretty chunk_num
                        +:+ ": " +:+ e)])
  end.

(** [gather_urls], on the identifiers in the order [list(pmids)] lists them. *)
Definition gather_urls (w : world) (pmids : list Z)
  : list url_row * list event :=
  let started :=
    [EvLog INFO ("Starting to process " +:+ pretty (length pmids)
                 +:+ " PMIDs in chunks of " +:+ pretty chunk_size)] in
  let done :=
    foldl (gather_chunk w pmids) ([], started)
      (DownloadPdfs.range_step (length pmids) chunk_size) in
  (done.1,
   done.2 ++ [EvLog INFO ("Finished processing all "
                          +:+ pretty (length pmids) +:+ " PMIDs")]).

End MetapubDownload.

(** ** Stand-ins for the library functions, on ASCII text

    The parsers above take [int], [Path.stem], [str.strip] and [urlparse] as
    arguments.  These are their plain-ASCII fragments, for running the
    definitions on examples. *)

Module Sample.

Definition digit_of (c : Ascii.ascii) : option Z :=
  let n := Z.of_N (N_of_ascii c) in
  if decide (48 <= n <= 57) then Some (n - 48) else None.

Fixpoint digits (acc : Z) (s : string) : option Z :=
  match s with
  | EmptyString => Some acc
  | String c s' =>
      match digit_of c with
      | Some d => digits (acc * 10 + d) s'
      | None => None
      end
  end.

(** [int(s)] for an optional sign followed by decimal digits. *)
Definition int_of_str (s : string) : option Z :=
  match s with
  | EmptyString => None
  | String c s' =>
      if Ascii.eqb c "-" then
        if decide (s' = "") then None else Z.opp <$> digits 0 s'
      else if Ascii.eqb c "+" then
        if decide (s' = "") then None else digits 0 s'
      else digits 0 s
  end.

(** [Path(key).stem]: the last component without its last suffix. *)
Definition path_stem (key : string) : string :=
  let name := List.last (split_on "/" key) "" in
  match reverse (split_on "." name) with
  | _ :: (_ :: _) as front =>
      let stem := join "." (reverse front) in
      if decide (stem = "") then name else stem
  | _ => name
  end.

Definition path_str (p : string) : string := p.

Definition is_space (c : Ascii.ascii) : bool :=
  let n := N_of_ascii c in
  (N.eqb n 32 || (N.leb 9 n && N.leb n 13))%bool.

Fixpoint lstrip_space (s : list Ascii.ascii) : list Ascii.ascii :=
  match s with
  | c :: s' => if is_space c then lstrip_space s' else s
  | [] => []
  end.

Definition str_strip (s : string) : string :=
  String.string_of_list_ascii
    (reverse (lstrip_space (reverse (lstrip_space (String.list_ascii_of_string s))))).

(** [urlparse] on [scheme://netloc/path]. *)
Definition urlparse (uri : string) : option (string * string) :=
  match split_on "/" uri with
  | _ :: "" :: netloc :: [] => Some (netloc, "")
  | _ :: "" :: netloc :: path => Some (netloc, "/" +:+ join "/" path)
  | _ => Some ("", uri)
  end.

End Sample.

(** ** s3_csv_inventory.py: the comparison [main] runs *)

Module S3CsvInventory.

(** How [main] ends, up to the analysis handed to [create_excel_report]. *)
Inductive ended :=
| IndexError (msg : string)
| Uncaught (e : exn)
| Analysed (a : Inventory.analysis) (log : list log_record).

Section Main.

Variable int_of_str : string -> option Z.
Variable path_stem : string -> string.

(** [paginator.paginate(Bucket=bucket_name, Prefix=prefix)] *)
Variable list_objects : string -> string -> list Inventory.s3_page.

(** [get_s3_pmids] from the URI: the bucket and the prefix are cut out of
    [s3_uri.split("//")[1]], which raises [IndexError] ([None]) on a URI
    without two slashes in a row; [Inventory.get_s3_pmids] is the loop over
    the pages of the listing. *)
Definition get_s3_pmids (s3_uri : string)
  : option (gset Z * list log_record) :=
  match split_slashes s3_uri !! 1%nat with
  | None => None
  | Some rest =>
      let bucket_name := hd "" (split_on "/" rest) in
      let prefix :=
        if has_char "/" rest then join "/" (drop 1 (split_on "/" rest))
        else "" in
      Some (Inventory.get_s3_pmids int_of_str path_stem
              (list_objects bucket_name prefix))
  end.

(** [main] up to the analysis handed to [create_excel_report]: the rows of
    the CSV, then the listing, then [analyze_pmids]. *)
Definition main (rows : list Inventory.csv_row) (has_header : bool)
  (s3_uri : string) : ended :=
  match Inventory.parse_csv_pmids int_of_str rows has_header with
  | Raise e => Uncaught e
  | Ok (csv_pmids, csv_log) =>
      match get_s3_pmids s3_uri with
      | None => IndexError "list index out of range"
      | Some s3 =>
          Analysed (Inventory.analyze_pmids csv_pmids s3.1)
            ([(INFO, "Parsing CSV PMIDs...")] ++ csv_log
             ++ [(INFO, "Retrieving S3 PMIDs...")] ++ s3.2
             ++ [(INFO, "Analyzing PMIDs...")])
      end
  end.

End Main.

End S3CsvInventory.

(** ** aws_download.py: [parallel_download] and the script body *)

Module AwsDownloadRun.

Import AwsDownload.

Definition complete_msg (success_count failure_count : nat) : string :=
  "Download complete. Successes:" +:+ " " +:+ pretty success_count
  +:+ ", Failures: " +:+ pretty failure_count.

(** The loop over [as_completed]: one more success when [future.result()] is
    true, one more failure otherwise. *)
Definition count_result (w : world) (bucket_name local_dir : string)
  (counts : nat * nat) (fi : file_info) : nat * nat :=
  if (download_file w fi bucket_name local_dir).1
  then (S counts.1, counts.2)
  else (counts.1, S counts.2).

(** [parallel_download].  [as_completed] gives the order in which the futures
    of the submitted files complete; [make_dir] is
    [Path(local_dir).mkdir(parents=True, exist_ok=True)], which raises or
    not.  The result is the pair of tallies and the closing log record. *)
Definition parallel_download
  (as_completed : list file_info -> list file_info)
  (make_dir : string -> option string) (w : world)
  (file_manifest : list file_info) (bucket_name local_dir : string)
  : res (nat * nat * log_record) :=
  match make_dir local_dir with
  | Some e => Raise (OSError e)
  | None =>
      let counts :=
        foldl (count_result w bucket_name local_dir) (0%nat, 0%nat)
          (as_completed file_manifest) in
      Ok (counts, (INFO, complete_msg counts.1 counts.2))
  end.

(** What the script body can end with beyond the exceptions of [exn]. *)
Inductive ended :=
| StopIteration
| Uncaught (e : exn)
| Done (counts : nat * nat) (log : list log_record).

Section Script.

Variable str_strip : string -> string.
Variable urlparse : string -> option (string * string).
Variable as_completed : list file_info -> list file_info.
Variable make_dir : string -> option string.

(** The body under [if __name__ == "__main__"], on the lines of
    [found_pmids.txt]: the bucket comes from the first line, read again and
    unpacked outside any handler, and only the first hundred entries of the
    manifest are downloaded. *)
Definition script (w : world) (cpu_count : Z) (lines : list string) : ended :=
  let manifest := read_pmid_locations str_strip urlparse lines in
  match lines with
  | [] => StopIteration
  | first :: _ =>
      match split_on "," (str_strip first) with
      | [_; first_uri] =>
          match parse_s3_uri urlparse first_uri with
          | None => Uncaught (ValueError "urlparse")
          | Some (bucket_name, _) =>
              let max_workers := get_optimal_worker_count cpu_count in
              match parallel_download as_completed make_dir w
                      (take 100 manifest.1) bucket_name "downloaded_pdfs" with
              | Raise e => Uncaught e
              | Ok (counts, closing) =>
                  Done counts
                    (manifest.2
                     ++ [(INFO, "Found " +:+ pretty (length manifest.1)
                                +:+ " files to download");
                         (INFO, "Using " +:+ pretty max_workers
                                +:+ " workers based on system CPU count");
                         closing])
              end
          end
      | parts =>
          Uncaught (ValueError
                      (if decide (length parts < 2)%nat
                       then "not enough values to unpack (expected 2, got 1)"
                       else "too many values to unpack (expected 2)"))
      end
  end.

End Script.

End AwsDownloadRun.

(** ** aws_upload.py: inventory of the bucket, filtering, upload *)

Module AwsUpload.

Inductive raised :=
| IndexError (msg : string)
| ClientError (msg : string)
| OtherError (msg : string)
| CsvError (e : exn)
| ExecutorError (e : exn).

Inductive result (A : Type) :=
| Returns (a : A)
| Raises (e : raised).
Arguments Returns {A} a.
Arguments Raises {A} e.

(** What [s3_client.upload_file] does. *)
Inductive reply :=
| Uploaded
| RaisesClientError (e : string)
| RaisesOther (e : string).

Inductive upload_event :=
| UpLog (lvl : level) (msg : string)
| UpPut (file bucket key : string).

(** [text.endswith(suffix)] *)
Fixpoint ends_with (suffix text : string) : bool :=
  if String.eqb text suffix then true
  else match text with
       | EmptyString => false
       | String _ text' => ends_with suffix text'
       end.

(** [s3_uri.split("/")[2]] and ["/".join(s3_uri.split("/")[3:])] *)
Definition uri_bucket (s3_uri : string) : option string :=
  split_on "/" s3_uri !! 2%nat.

Definition uri_prefix (s3_uri : string) : string :=
  join "/" (drop 3 (split_on "/" s3_uri)).

Section Upload.

(** [Path(p).name] and [str.lower]. *)
Variable path_name : string -> string.
Variable str_lower : string -> string.

Definition inventory_page (page : Inventory.s3_page) (existing : gset string)
  : gset string :=
  match page with
  | None => existing
  | Some keys =>
      foldl (fun acc key =>
               if ends_with ".pdf" (str_lower key)
               then {[path_name key]} ∪ acc else acc) existing keys
  end.

(** [get_s3_inventory], on the pages the paginator yields for the bucket and
    the prefix of the URI; the handler logs and re-raises. *)
Definition get_s3_inventory (list_objects : string -> string -> list Inventory.s3_page)
  (s3_uri : string) : result (gset string) :=
  match uri_bucket s3_uri with
  | None => Raises (IndexError "list index out of range")
  | Some bucket_name =>
      Returns (foldl (fun acc page => inventory_page page acc) ∅
                 (list_objects bucket_name (uri_prefix s3_uri)))
  end.

Definition skipping_msg (skipped : nat) : string :=
  "Skipping " +:+ pretty skipped +:+ " files that already exist in S3".

(** [filter_upload_list]: the kept paths and what it logs. *)
Definition filter_upload_list (upload_list : list string)
  (s3_inventory : gset string) : list string * list upload_event :=
  let filtered_list :=
    filter (fun path => path_name path ∉ s3_inventory) upload_list in
  let skipped := (length upload_list - length filtered_list)%nat in
  (filtered_list,
   if decide (0 < skipped)%nat then [UpLog INFO (skipping_msg skipped)] else []).

(** [upload_file]: only [ClientError] is caught. *)
Definition upload_file (put : string -> string -> string -> reply)
  (file_path s3_uri : string) : result bool * list upload_event :=
  match uri_bucket s3_uri with
  | None => (Raises (IndexError "list index out of range"), [])
  | Some bucket_name =>
      let s3_key := uri_prefix s3_uri +:+ "/" +:+ path_name file_path in
      match put file_path bucket_name s3_key with
      | Uploaded =>
          (Returns true,
           [UpPut file_path bucket_name s3_key;
            UpLog INFO ("Successfully uploaded: " +:+ path_name file_path)])
      | RaisesClientError e =>
          (Returns false,
           [UpPut file_path bucket_name s3_key;
            UpLog ERROR ("Error uploading " +:+ path_name file_path
                         +:+ ": " +:+ e)])
      | RaisesOther e =>
          (Raises (OtherError e), [UpPut file_path bucket_name s3_key])
      end
  end.

(** [list(executor.map(...))]: the results in the order of the files, or the
    exception of the first file, in that order, whose upload raised. *)
Fixpoint map_results (put : string -> string -> string -> reply)
  (s3_uri : string) (file_list : list string) : result (list bool) :=
  match file_list with
  | [] => Returns []
  | file_path :: file_list' =>
      match (upload_file put file_path s3_uri).1 with
      | Raises e => Raises e
      | Returns r =>
          match map_results put s3_uri file_list' with
          | Raises e => Raises e
          | Returns rs => Returns (r :: rs)
          end
      end
  end.

Definition upload_complete_msg (success_count total : nat) : string :=
  "Upload complete. " +:+ pretty success_count +:+ "/" +:+ pretty total
  +:+ " " +:+ "files uploaded successfully".

(** [parallel_upload]: the number of successes and the closing log record.
    [ThreadPoolExecutor(max_workers=num_threads)] raises [ValueError] when
    [num_threads] is not positive, before any file is submitted. *)
Definition parallel_upload (put : string -> string -> string -> reply)
  (file_list : list string) (s3_uri : string) (num_threads : Z)
  : result (nat * upload_event) :=
  if decide (num_threads <= 0) then
    Raises (ExecutorError (ValueError "max_workers must be greater than 0"))
  else
    match map_results put s3_uri file_list with
    | Raises e => Raises e
    | Returns results =>
        let success_count := length (filter (fun r => r = true) results) in
        Returns (success_count,
                 UpLog INFO
                   (upload_complete_msg success_count (length file_list)))
    end.

(** The events of the uploads of [file_list], task after task. *)
Definition upload_events (put : string -> string -> string -> reply)
  (s3_uri : string) (file_list : list string) : list upload_event :=
  concat (map (fun file_path => (upload_file put file_path s3_uri).2) file_list).

Variable int_of_str : string -> option Z.
Variable path_stem : string -> string.
Variable path_str : string -> string.

Definition as_event (r : log_record) : upload_event := UpLog r.1 r.2.

(** [main]: the inventory, the listing, the filter, then the uploads when
    anything is left; the handler logs and re-raises.  The result is the
    list handed to [parallel_upload].  On the paths that raise, the trace
    stops at the call that raised: the error records of the handlers are
    not tracked, nor are the uploads of a run of [parallel_upload] that
    raises, which depend on the scheduling of the threads. *)
Definition main (rows : list Inventory.csv_row)
  (list_objects : string -> string -> list Inventory.s3_page)
  (put : string -> string -> string -> reply) (s3_uri : string) (threads : Z)
  : result (list string) * list upload_event :=
  match Inventory.parse_csv_inventory int_of_str path_stem path_str rows with
  | Raise e => (Raises (CsvError e), [UpLog INFO "Parsing CSV inventory..."])
  | Ok (upload_list, processed_accessions, csv_log) =>
      let parsed :=
        [UpLog INFO "Parsing CSV inventory..."] ++ map as_event csv_log
        ++ [UpLog INFO ("Found " +:+ pretty (length upload_list)
                        +:+ " unique PDFs to process");
            UpLog INFO "Getting S3 inventory..."] in
      match get_s3_inventory list_objects s3_uri with
      | Raises e => (Raises e, parsed)
      | Returns s3_inventory =>
          let filtered := filter_upload_list upload_list s3_inventory in
          let listed :=
            parsed
            ++ [UpLog INFO ("Found " +:+ pretty (size s3_inventory)
                            +:+ " existing PDFs in S3")]
            ++ filtered.2
            ++ [UpLog INFO (pretty (length filtered.1) +:+ " files to upload")] in
          match filtered.1 with
          | [] => (Returns [], listed ++ [UpLog INFO "No files to upload"])
          | _ =>
              let starting :=
                listed
                ++ [UpLog INFO ("Starting parallel upload with "
                                +:+ pretty threads +:+ " threads...")] in
              match parallel_upload put filtered.1 s3_uri threads with
              | Raises e => (Raises e, starting)
              | Returns (_, closing) =>
                  (Returns filtered.1,
                   starting ++ upload_events put s3_uri filtered.1
                   ++ [closing])
              end
          end
      end
  end.

End Upload.

End AwsUpload.

(** * The vocabulary of the statements

    What the properties below speak of: the text a row carries, the first
    row of an identifier, the invariants of the loops, and the runs used as
    examples. *)

Module Terms.

(** The local path the code derives from the identifier text. *)
Definition sharded_path (p : string) : string :=
  (if decide (3 <= String.length p)%nat then String.substring 0 3 p else "other")
  +:+ "/" +:+ p +:+ ".pdf".

(** The file [download_pdf] writes to. *)
Definition filepath_of (pmid : Z) : string := "pdfs/" +:+ pretty pmid +:+ ".pdf".

Definition timed_out_msg (chunk_num : nat) : string :=
  "Entire chunk " +:+ pretty chunk_num +:+ " timed out, moving to next chunk".

Definition has_status (s : string) (o : DownloadPdfs.outcome) : bool :=
  bool_decide (o !! "Status" = Some (PyStr s)).

Definition requested_url (e : event) : option string :=
  match e with
  | EvHttpGet url => Some url
  | _ => None
  end.

Section Rows.

Variable int_of_str : string -> option Z.
Variable path_stem : string -> string.
Variable path_str : string -> string.

(** The text of a column of a row, when the row has it. *)
Definition field (col : string) (row : Inventory.csv_row) : option string :=
  match row !! col with
  | Some (Some raw) => Some raw
  | _ => None
  end.

(** The identifier a row of the PMID file carries, when it parses. *)
Definition row_id (row : Inventory.csv_row) : option Z :=
  match field "PMID" row with
  | Some raw => int_of_str raw
  | None => None
  end.

(** The number of the first row that carries [p], counting from [start]. *)
Definition first_row (start : nat) (rows : list Inventory.csv_row) (p : Z)
  : option nat :=
  (fun found => (start + found.1)%nat) <$>
    list_find (fun row => row_id row = Some p) rows.

(** What holds of the state of [parse_csv_pmids] after the rows [done]. *)
Record parse_inv (start : nat) (done : list Inventory.csv_row)
  (st : Inventory.parse_state) : Prop := ParseInv {
  inv_pmids : forall p,
    p ∈ Inventory.pmids st <->
    exists j row, done !! j = Some row /\ row_id row = Some p;
  inv_seen : forall p, Inventory.seen_pmids st !! p = first_row start done p;
  inv_duplicates : forall j row p k,
    done !! j = Some row -> row_id row = Some p ->
    first_row start done p = Some k -> (k < start + j)%nat ->
    (WARNING, Inventory.duplicate_msg p (start + j) k) ∈ Inventory.log st;
  inv_invalid : forall j row raw,
    done !! j = Some row -> field "PMID" row = Some raw ->
    int_of_str raw = None ->
    (ERROR, Inventory.invalid_msg (start + j) raw) ∈ Inventory.log st;
  inv_count :
    (length (Inventory.log st) + size (Inventory.pmids st) = length done)%nat
}.

(** The accession number a row of the inventory carries, when it parses. *)
Definition row_accession (row : Inventory.csv_row) : option Z :=
  match field "name" row with
  | Some name => int_of_str (path_stem name)
  | None => None
  end.

Definition first_with (a : Z) (rows : list Inventory.csv_row)
  : option (nat * Inventory.csv_row) :=
  list_find (fun row => row_accession row = Some a) rows.

(** What holds of the state of [parse_csv_inventory] after the rows [done]. *)
Record inventory_inv (done : list Inventory.csv_row)
  (st : Inventory.inventory_state) : Prop := InventoryInv {
  inv_processed : forall a,
    a ∈ Inventory.processed_accessions st <->
    exists j row, done !! j = Some row /\ row_accession row = Some a;
  inv_upload : forall name,
    name ∈ Inventory.upload_list st <->
    exists a k row, first_with a done = Some (k, row)
                    /\ field "name" row = Some name;
  inv_upload_length :
    length (Inventory.upload_list st)
    = size (Inventory.processed_accessions st);
  inv_dup_accession : forall j row name a k first,
    done !! j = Some row -> field "name" row = Some name ->
    row_accession row = Some a ->
    first_with a done = Some (k, first) -> (k < j)%nat ->
    (WARNING, Inventory.duplicate_accession_msg path_str a name)
      ∈ Inventory.inv_log st;
  inv_bad_accession : forall j row name,
    done !! j = Some row -> field "name" row = Some name ->
    int_of_str (path_stem name) = None ->
    (ERROR, Inventory.invalid_accession_msg (path_stem name))
      ∈ Inventory.inv_log st;
  inv_inventory_count :
    (length (Inventory.inv_log st)
     + size (Inventory.processed_accessions st) = length done)%nat
}.

End Rows.

Section Workers.

Import DownloadPdfs.

Variable w : world.

(** What the task of a row leaves in the results: its dict, or nothing when
    the task raised. *)
Definition worker_result (r : row) : option outcome :=
  returned (download_pdf w (PMID r) (URL r) (Backup_URL r)).1.

End Workers.

Section Chunks.

Import MetapubDownload.

Variable w : world.
Variable pmids : list Z.

(** The chunk number [k + 1], and the loop of [gather_urls] over the first
    [m] chunks. *)
Definition chunk_at (k : nat) : list Z :=
  take chunk_size (drop (k * chunk_size) pmids).

Definition gather_loop (m : nat) (acc : list url_row * list event)
  : list url_row * list event :=
  foldl (gather_chunk w pmids) acc (map (fun k => (k * chunk_size)%nat) (seq 0 m)).

End Chunks.

Section Limiter.

Import MetapubDownload.

(** What holds while one caller at a time goes through the limiter. *)
Definition pc_inv (m : machine) (p : pc) : Prop :=
  match p with
  | Idle => True
  | Timed current_time => (current_time <= now m)%Q
  | Sleeping until => (last_request_time m + DELAY <= until)%Q
  | Stamping => (last_request_time m + DELAY <= now m)%Q
  end.

Record limiter_inv (m : machine) : Prop := LimiterInv {
  inv_single : exists p, threads m = [p] /\ pc_inv m p;
  inv_spaced : spaced DELAY (permits m);
  inv_last : forall p, last (permits m) = Some p -> p = last_request_time m
}.

End Limiter.

(** The runs used as examples. *)

Definition pmid_rows : list Inventory.csv_row :=
  [ {["PMID" := Some "12"]}; {["PMID" := Some "abc"]}; {["PMID" := Some "12"]};
    {["PMID" := Some "7"]}; {["PMID" := Some "12"]} ].

Definition inventory_rows : list Inventory.csv_row :=
  [ {["name" := Some "a/1.pdf"]}; {["name" := Some "b/1.pdf"]};
    {["name" := Some "notes.txt"]} ].

(** A network where the primary host refuses the connection and the backup
    host serves the file. *)
Definition backup_only : DownloadPdfs.world :=
  DownloadPdfs.World (fun _ => None)
    (fun _ sl _ =>
       match sl with
       | DownloadPdfs.Primary => DownloadPdfs.RespRaise "Connection refused"
       | DownloadPdfs.Backup => DownloadPdfs.RespStatus 200 None
       end).

(** The scenario of 25 identifiers: every request made for the identifiers
    11 to 15 raises, every other one is answered with status 200. *)
Definition forced_failures : DownloadPdfs.world :=
  DownloadPdfs.World (fun _ => None)
    (fun pmid _ _ =>
       if decide (11 <= pmid <= 15) then DownloadPdfs.RespRaise "forced failure"
       else DownloadPdfs.RespStatus 200 None).

Definition manifest25 : list DownloadPdfs.row :=
  map (fun k =>
         DownloadPdfs.Row k
           (DownloadPdfs.CellStr ("http://a/" +:+ pretty k +:+ ".pdf"))
           (DownloadPdfs.CellStr ("http://b/" +:+ pretty k +:+ ".pdf")))
    (seqZ 1 25).

(** A file system where [pdfs] cannot be created. *)
Definition no_directory : DownloadPdfs.world :=
  DownloadPdfs.World (fun _ => Some "[Errno 17] File exists: 'pdfs'")
    (fun _ _ _ => DownloadPdfs.RespStatus 200 None).

(** A run where the first chunk hits the 30 s timeout after the tasks of the
    identifiers 1, 2 and 3 have returned, and every lookup finds nothing. *)
Definition first_chunk_times_out : MetapubDownload.world :=
  MetapubDownload.World (fun _ => MetapubDownload.LookupNone)
    (fun chunk_num =>
       if decide (chunk_num = 1%nat) then MetapubDownload.TimedOut [1; 2; 3]
       else MetapubDownload.InTime).

(** Two calls of [find_with_timeout] on two threads of the executor, one
    millisecond apart at every statement. *)
Definition two_callers : list MetapubDownload.action :=
  [MetapubDownload.Run 0; MetapubDownload.Tick (1 # 1000);
   MetapubDownload.Run 1; MetapubDownload.Tick (1 # 1000);
   MetapubDownload.Run 0; MetapubDownload.Tick (1 # 1000);
   MetapubDownload.Run 1; MetapubDownload.Tick (1 # 1000);
   MetapubDownload.Run 0; MetapubDownload.Tick (1 # 1000);
   MetapubDownload.Run 1].

End Terms.

Import Terms.

(** * Further notions, for the properties of the rest of the code *)

Module Notions.

#[global] Instance response_eq_dec : EqDecision DownloadPdfs.response.
Proof. solve_decision. Defined.

(** The request made for [pmid] in [sl] to the location of the cell [c]
    would serve the file: the cell passes the guard, the status is 200 and
    the body is saved. *)
Definition served (w : DownloadPdfs.world) (pmid : Z) (sl : DownloadPdfs.slot)
  (c : DownloadPdfs.cell) : bool :=
  DownloadPdfs.usable c
  && bool_decide (DownloadPdfs.session_get w pmid sl (DownloadPdfs.cell_str c)
                  = DownloadPdfs.RespStatus 200 None).

(** The number of pauses between chunks in a trace. *)
Definition sleeps (trace : list event) : nat :=
  length (filter (fun e => e = EvSleep 1) trace).

(** The chunk number [k + 1] of [gather_urls] is gathered before its
    timeout. *)
Definition chunk_in_time (w : MetapubDownload.world) (k : nat) : bool :=
  match MetapubDownload.chunk_timing w (S k) with
  | MetapubDownload.InTime => true
  | _ => false
  end.

(** The hand-overs to [s3_client.upload_file] in a trace. *)
Definition is_put (e : AwsUpload.upload_event) : bool :=
  match e with
  | AwsUpload.UpPut _ _ _ => true
  | AwsUpload.UpLog _ _ => false
  end.

(** [Path(p).name] on plain ASCII paths, for running the definitions on
    examples. *)
Definition file_name (p : string) : string := List.last (split_on "/" p) "".

#[global] Instance reply_eq_dec : EqDecision AwsUpload.reply.
Proof. solve_decision. Defined.

(** ["//" in text] *)
Fixpoint has_slashes (text : string) : bool :=
  match text with
  | EmptyString => false
  | String c rest =>
      match rest with
      | String c' _ =>
          ((Ascii.eqb c "/" && Ascii.eqb c' "/") || has_slashes rest)%bool
      | EmptyString => false
      end
  end.

(** The identifiers a trace hands to [asyncio.gather], in order. *)
Definition gathered (trace : list event) : list Z :=
  concat (map (fun e => match e with EvGather ids => ids | _ => [] end) trace).

(** The keys of a listing, page after page. *)
Definition listed_keys (pages : list Inventory.s3_page) : list string :=
  concat (omap (fun page : Inventory.s3_page => page) pages).

End Notions.

Import Notions.

(** * Properties *)

(** ** The reconciler: [analyze_pmids] *)

Lemma size_difference_intersection (X Y : gset Z) :
  (size (X ∖ Y) + size (X ∩ Y) = size X)%nat.
Proof.
  rewrite <- size_union.
  2:{ apply elem_of_disjoint. intros x.
      rewrite elem_of_difference, elem_of_intersection. tauto. }
  f_equal. apply set_eq. intros x.
  rewrite elem_of_union, elem_of_difference, elem_of_intersection.
  destruct (decide (x ∈ Y)); tauto.
Qed.

Lemma size_list_to_set_remove_dups (M : list Z) :
  size (list_to_set (C := gset Z) M) = length (remove_dups M).
Proof.
  rewrite <- (size_list_to_set (C := gset Z) (remove_dups M))
    by apply NoDup_remove_dups.
  f_equal. apply set_eq. intros x.
  rewrite !elem_of_list_to_set. symmetry. apply elem_of_remove_dups.
Qed.

Lemma sorted_list_length (s : gset Z) :
  length (Inventory.sorted_list s) = size s.
Proof.
  unfold Inventory.sorted_list.
  rewrite (Permutation_length (merge_sort_Permutation Z.le (elements s))).
  reflexivity.
Qed.

Lemma sorted_list_elem_of (s : gset Z) (x : Z) :
  x ∈ Inventory.sorted_list s <-> x ∈ s.
Proof.
  unfold Inventory.sorted_list.
  rewrite (merge_sort_Permutation Z.le (elements s)).
  apply elem_of_elements.
Qed.

(** C1. For every requested manifest [M] and remote set [R], the diff of
    [analyze_pmids] partitions the deduplicated manifest: the count of missing
    identifiers plus the count of present ones is the number of distinct
    identifiers of [M]; the missing list holds exactly the requested
    identifiers that are not remote. *)
Theorem analyze_pmids_partition (M : list Z) (R : gset Z) :
  let a := Inventory.analyze_pmids (list_to_set M) R in
  (Inventory.missing a + Inventory.common a = length (remove_dups M))%nat
  /\ Inventory.csv_unique a = length (remove_dups M)
  /\ Inventory.missing a = size (list_to_set (C := gset Z) M ∖ R)
  /\ Inventory.common a = size (list_to_set (C := gset Z) M ∩ R)
  /\ length (Inventory.missing_pmids a) = Inventory.missing a
  /\ (forall x, x ∈ Inventory.missing_pmids a <-> x ∈ M /\ x ∉ R).
Proof.
  cbn.
  split; [|split; [|split; [reflexivity|split; [reflexivity|split]]]].
  - rewrite size_difference_intersection. apply size_list_to_set_remove_dups.
  - apply size_list_to_set_remove_dups.
  - apply sorted_list_length.
  - intros x.
    rewrite sorted_list_elem_of, elem_of_difference, elem_of_list_to_set.
    reflexivity.
Qed.

(** ** The worker pool: [get_optimal_worker_count] *)

(** C9. For every CPU count [n] the pool size is [min(max(2*n, 4), 32)], and
    it lies between 4 and 32. *)
Theorem get_optimal_worker_count_clamped (n : Z) :
  AwsDownload.get_optimal_worker_count n = Z.min (Z.max (2 * n) 4) 32
  /\ 4 <= AwsDownload.get_optimal_worker_count n <= 32.
Proof.
  unfold AwsDownload.get_optimal_worker_count. lia.
Qed.

(** ** The file manifest: [read_pmid_locations] *)

Section ManifestFacts.

Variable str_strip : string -> string.
Variable urlparse : string -> option (string * string).

#[local] Abbreviation read_line := (AwsDownload.read_line str_strip urlparse).
#[local] Abbreviation read_lines :=
  (foldl (fun acc line => AwsDownload.read_line str_strip urlparse line acc)).

Lemma read_line_well_formed line p uri netloc path acc :
  split_on "," (str_strip line) = [p; uri] ->
  urlparse uri = Some (netloc, path) ->
  read_line line acc =
    (acc.1 ++ [AwsDownload.FileInfo (lstrip "/" path) (sharded_path p) p], acc.2).
Proof.
  intros Hsplit Hurl. unfold AwsDownload.read_line.
  destruct (decide (str_strip line = "")) as [Hempty|_].
  { rewrite Hempty in Hsplit. discriminate. }
  rewrite Hsplit. unfold AwsDownload.parse_s3_uri. rewrite Hurl.
  reflexivity.
Qed.

Lemma read_line_keeps line acc fi :
  fi ∈ acc.1 -> fi ∈ (read_line line acc).1.
Proof.
  intros Hin. unfold AwsDownload.read_line.
  repeat (case_match; simpl; try assumption);
    apply elem_of_app; left; assumption.
Qed.

Lemma read_lines_keep lines acc fi :
  fi ∈ acc.1 -> fi ∈ (read_lines acc lines).1.
Proof.
  revert acc. induction lines as [|line lines IH]; intros acc Hin; simpl.
  - assumption.
  - apply IH. apply read_line_keeps. assumption.
Qed.

(** C10. Every well-formed line [p,uri] of the file gets an entry of the
    manifest, whose local path is the first three characters of [p], a slash,
    [p] and [.pdf] when [p] has at least three characters, and [other/p.pdf]
    when it has fewer. *)
Theorem read_pmid_locations_local_name lines j line p uri netloc path :
  lines !! j = Some line ->
  split_on "," (str_strip line) = [p; uri] ->
  urlparse uri = Some (netloc, path) ->
  exists fi,
    fi ∈ (AwsDownload.read_pmid_locations str_strip urlparse lines).1
    /\ AwsDownload.pmid fi = p
    /\ AwsDownload.s3_key fi = lstrip "/" path
    /\ ((3 <= String.length p)%nat ->
        AwsDownload.local_name fi = String.substring 0 3 p +:+ "/" +:+ p +:+ ".pdf")
    /\ ((String.length p < 3)%nat ->
        AwsDownload.local_name fi = "other/" +:+ p +:+ ".pdf").
Proof.
  intros Hj Hsplit Hurl.
  exists (AwsDownload.FileInfo (lstrip "/" path) (sharded_path p) p).
  split; [|split; [reflexivity|split; [reflexivity|]]].
  - unfold AwsDownload.read_pmid_locations.
    rewrite <- (take_drop_middle lines j line Hj), foldl_app. simpl.
    apply read_lines_keep.
    rewrite (read_line_well_formed _ _ _ _ _ _ Hsplit Hurl).
    apply elem_of_app. right. apply list_elem_of_singleton. reflexivity.
  - unfold Terms.sharded_path. simpl. split; intros Hlen; case_decide; try lia; reflexivity.
Qed.

Lemma read_line_malformed line acc :
  str_strip line <> "" ->
  (forall p uri, split_on "," (str_strip line) = [p; uri] -> urlparse uri = None) ->
  read_line line acc
  = (acc.1, acc.2 ++ [(WARNING, AwsDownload.malformed_msg (str_strip line))]).
Proof.
  intros Hne Hbad. unfold AwsDownload.read_line.
  rewrite decide_False by exact Hne.
  destruct (split_on "," (str_strip line)) as [|p [|uri [|extra parts]]];
    try reflexivity.
  unfold AwsDownload.parse_s3_uri. rewrite (Hbad p uri eq_refl). reflexivity.
Qed.

Lemma read_line_keeps_log line acc r :
  r ∈ acc.2 -> r ∈ (read_line line acc).2.
Proof.
  intros Hin. unfold AwsDownload.read_line.
  repeat (case_match; simpl; try assumption);
    apply elem_of_app; left; assumption.
Qed.

Lemma read_lines_keep_log lines acc r :
  r ∈ acc.2 -> r ∈ (read_lines acc lines).2.
Proof.
  revert acc. induction lines as [|line lines IH]; intros acc Hin; simpl.
  - assumption.
  - apply IH. apply read_line_keeps_log. assumption.
Qed.

(** A line that is not blank and not of the form [p,uri] with a URI that
    parses is skipped with a warning. *)
Lemma read_pmid_locations_skips_malformed lines j line :
  lines !! j = Some line ->
  str_strip line <> "" ->
  (forall p uri, split_on "," (str_strip line) = [p; uri] -> urlparse uri = None) ->
  (WARNING, AwsDownload.malformed_msg (str_strip line))
    ∈ (AwsDownload.read_pmid_locations str_strip urlparse lines).2.
Proof.
  intros Hj Hne Hbad. unfold AwsDownload.read_pmid_locations.
  rewrite <- (take_drop_middle lines j line Hj), foldl_app. simpl.
  apply read_lines_keep_log. rewrite (read_line_malformed _ _ Hne Hbad).
  apply elem_of_app. right. apply list_elem_of_singleton. reflexivity.
Qed.

(** Every line is blank, or gives one entry, or gives one warning. *)
Lemma read_lines_account lines : forall acc,
  (length (read_lines acc lines).1 + length (read_lines acc lines).2
   + length (filter (fun line => str_strip line = "") lines)
   = length acc.1 + length acc.2 + length lines)%nat.
Proof.
  induction lines as [|line lines IH]; intros acc; simpl; [lia|].
  specialize (IH (read_line line acc)).
  assert (Hstep :
    (length (read_line line acc).1 + length (read_line line acc).2
     + (if decide (str_strip line = "") then 1 else 0)
     = length acc.1 + length acc.2 + 1)%nat).
  { unfold AwsDownload.read_line.
    destruct (decide (str_strip line = "")) as [Hblank|Hne]; simpl; [lia|].
    repeat (case_match; simpl); rewrite ?length_app; simpl; lia. }
  rewrite filter_cons.
  destruct (decide (str_strip line = "")); simpl length; lia.
Qed.

End ManifestFacts.

Lemma read_pmid_locations_local_name_witness :
  exists fi,
    fi ∈ (AwsDownload.read_pmid_locations Sample.str_strip Sample.urlparse
            ["12345678,s3://bucket/pdfs/12345678.pdf
"; "42,s3://bucket/pdfs/42.pdf"]).1
    /\ AwsDownload.pmid fi = "42"
    /\ AwsDownload.local_name fi = "other/42.pdf".
Proof.
  destruct (read_pmid_locations_local_name Sample.str_strip Sample.urlparse
              ["12345678,s3://bucket/pdfs/12345678.pdf
"; "42,s3://bucket/pdfs/42.pdf"] 1 "42,s3://bucket/pdfs/42.pdf"
              "42" "s3://bucket/pdfs/42.pdf" "bucket" "/pdfs/42.pdf"
              eq_refl eq_refl eq_refl)
    as (fi & Hin & Hp & _ & _ & Hshort).
  exists fi. split; [exact Hin|]. split; [exact Hp|].
  apply Hshort. simpl. lia.
Defined.

Example read_pmid_locations_runs :
  AwsDownload.read_pmid_locations Sample.str_strip Sample.urlparse
    ["12345678,s3://bucket/pdfs/12345678.pdf
"; "
"; "no comma here"; "42,s3://bucket/pdfs/42.pdf"]
  = ([AwsDownload.FileInfo "pdfs/12345678.pdf" "123/12345678.pdf" "12345678";
      AwsDownload.FileInfo "pdfs/42.pdf" "other/42.pdf" "42"],
     [(WARNING, "Skipping malformed line: no comma here")]).
Proof. reflexivity. Qed.

(** ** The CSV parsers: duplicates and unparseable identifiers *)

Section ParseFacts.

Variable int_of_str : string -> option Z.
Variable path_stem : string -> string.
Variable path_str : string -> string.

#[local] Abbreviation row_id := (Terms.row_id int_of_str).
#[local] Abbreviation first_row := (Terms.first_row int_of_str).
#[local] Abbreviation parse_inv := (Terms.parse_inv int_of_str).
#[local] Abbreviation row_accession := (Terms.row_accession int_of_str path_stem).
#[local] Abbreviation first_with := (Terms.first_with int_of_str path_stem).
#[local] Abbreviation inventory_inv :=
  (Terms.inventory_inv int_of_str path_stem path_str).

Lemma first_row_snoc start done row p :
  first_row start (done ++ [row]) p =
    match first_row start done p with
    | Some k => Some k
    | None =>
        if decide (row_id row = Some p) then Some (start + length done)%nat
        else None
    end.
Proof.
  unfold Terms.first_row.
  destruct (list_find (fun r => row_id r = Some p) done) as [[k r]|] eqn:Hfind.
  - rewrite (list_find_app_l _ _ _ _ _ Hfind). reflexivity.
  - rewrite (list_find_app_r _ _ _ Hfind). simpl.
    destruct (decide (row_id row = Some p)); reflexivity.
Qed.

Lemma first_row_None start rows p :
  first_row start rows p = None <->
  (forall j row, rows !! j = Some row -> row_id row <> Some p).
Proof.
  unfold Terms.first_row. rewrite fmap_None, list_find_None, Forall_lookup.
  reflexivity.
Qed.

Lemma first_row_Some start rows p k :
  first_row start rows p = Some k ->
  exists j row, k = (start + j)%nat /\ rows !! j = Some row
    /\ row_id row = Some p
    /\ (forall j' row', rows !! j' = Some row' -> (j' < j)%nat ->
        row_id row' <> Some p).
Proof.
  unfold Terms.first_row. intros Hk.
  apply fmap_Some in Hk as ([j row] & Hfind & ->).
  apply list_find_Some in Hfind as (Hj & Hid & Hmin).
  exists j, row. eauto.
Qed.

Lemma parse_inv_init start : parse_inv start [] (Inventory.ParseState ∅ ∅ []).
Proof.
  split; simpl.
  - intros p. split; [set_solver|]. intros (j & row & Hj & _). discriminate.
  - intros p. reflexivity.
  - intros j row p k Hj. discriminate.
  - intros j row raw Hj. discriminate.
  - cbv. reflexivity.
Qed.

Lemma field_text col row raw :
  field col row = Some raw <-> row !! col = Some (Some raw).
Proof.
  unfold Terms.field. destruct (row !! col) as [[?|]|]; split; congruence.
Qed.

Lemma parse_row_inv start done row st :
  parse_inv start done st ->
  is_Some (field "PMID" row) ->
  exists st',
    Inventory.parse_row int_of_str (start + length done) row st = Ok st'
    /\ parse_inv start (done ++ [row]) st'.
Proof.
  intros [Hpm Hseen Hdup Hinv Hcount] [raw Hraw].
  assert (Hrow : row !! "PMID" = Some (Some raw)) by (apply field_text; exact Hraw).
  unfold Inventory.parse_row. rewrite Hrow.
  destruct (int_of_str raw) as [p|] eqn:Hint.
  - assert (Hid : row_id row = Some p) by (unfold Terms.row_id; rewrite Hraw; exact Hint).
    destruct (decide (p ∈ Inventory.pmids st)) as [Hin|Hnin].
    + (* a duplicate *)
      destruct (first_row start done p) as [k|] eqn:Hfirst.
      2:{ apply Hpm in Hin as (j & r & Hj & Hr).
          exfalso. exact (proj1 (first_row_None _ _ _) Hfirst j r Hj Hr). }
      rewrite Hseen, Hfirst. eexists. split; [reflexivity|].
      split; simpl.
      * intros q. rewrite Hpm. split.
        -- intros (j & r & Hj & Hr). exists j, r. split; [|exact Hr].
           apply lookup_app_l_Some. exact Hj.
        -- intros (j & r & Hj & Hr).
           apply lookup_snoc_Some in Hj as [[_ Hj]|[_ <-]].
           ++ exists j, r. auto.
           ++ assert (q = p) by congruence. subst q.
              apply Hpm. exact Hin.
      * intros q. rewrite first_row_snoc, Hseen.
        destruct (first_row start done q) eqn:Hq; [reflexivity|].
        case_decide as Hrq; [|reflexivity].
        assert (q = p) by congruence. subst q. congruence.
      * intros j r q k' Hj Hr Hk' Hlt.
        rewrite first_row_snoc in Hk'.
        apply elem_of_app.
        apply lookup_snoc_Some in Hj as [[Hlen Hj]|[-> <-]].
        -- left. destruct (first_row start done q) as [k''|] eqn:Hq.
           ++ injection Hk' as <-. eapply Hdup; eauto.
           ++ exfalso. exact (proj1 (first_row_None _ _ _) Hq j r Hj Hr).
        -- right. assert (q = p) by congruence. subst q.
           rewrite Hfirst in Hk'. injection Hk' as <-.
           apply list_elem_of_singleton. reflexivity.
      * intros j r raw' Hj Hf Hnone. apply elem_of_app.
        apply lookup_snoc_Some in Hj as [[_ Hj]|[_ <-]].
        -- left. eapply Hinv; eauto.
        -- congruence.
      * rewrite !length_app. simpl. lia.
    + (* the first occurrence *)
      assert (Hfirst : first_row start done p = None).
      { apply first_row_None. intros j r Hj Hr. apply Hnin, Hpm. eauto. }
      eexists. split; [reflexivity|].
      split; simpl.
      * intros q. rewrite elem_of_union, elem_of_singleton, Hpm. split.
        -- intros [->|(j & r & Hj & Hr)].
           ++ exists (length done), row. split; [|exact Hid].
              apply lookup_snoc_Some. right. auto.
           ++ exists j, r. split; [|exact Hr]. apply lookup_app_l_Some. exact Hj.
        -- intros (j & r & Hj & Hr).
           apply lookup_snoc_Some in Hj as [[_ Hj]|[_ <-]].
           ++ right. eauto.
           ++ left. congruence.
      * intros q. rewrite first_row_snoc.
        destruct (decide (q = p)) as [->|Hne].
        -- rewrite lookup_insert_eq, Hfirst. case_decide; congruence.
        -- rewrite lookup_insert_ne by congruence. rewrite Hseen.
           destruct (first_row start done q); [reflexivity|].
           case_decide; congruence.
      * intros j r q k' Hj Hr Hk' Hlt.
        rewrite first_row_snoc in Hk'.
        apply lookup_snoc_Some in Hj as [[Hlen Hj]|[-> <-]].
        -- destruct (first_row start done q) as [k''|] eqn:Hq.
           ++ injection Hk' as <-. eapply Hdup; eauto.
           ++ exfalso. exact (proj1 (first_row_None _ _ _) Hq j r Hj Hr).
        -- assert (q = p) by congruence. subst q.
           rewrite Hfirst in Hk'. case_decide; [|discriminate].
           injection Hk' as <-. lia.
      * intros j r raw' Hj Hf Hnone.
        apply lookup_snoc_Some in Hj as [[_ Hj]|[_ <-]].
        -- eapply Hinv; eauto.
        -- congruence.
      * rewrite length_app, size_union by (apply disjoint_singleton_l; assumption).
        rewrite size_singleton. simpl. lia.
  - (* text that is not a number *)
    assert (Hid : row_id row = None) by (unfold Terms.row_id; rewrite Hraw; exact Hint).
    eexists. split; [reflexivity|].
    split; simpl.
    + intros q. rewrite Hpm. split.
      * intros (j & r & Hj & Hr). exists j, r. split; [|exact Hr].
        apply lookup_app_l_Some. exact Hj.
      * intros (j & r & Hj & Hr).
        apply lookup_snoc_Some in Hj as [[_ Hj]|[_ <-]]; [eauto|congruence].
    + intros q. rewrite first_row_snoc, Hseen.
      destruct (first_row start done q); [reflexivity|].
      case_decide; congruence.
    + intros j r q k' Hj Hr Hk' Hlt. rewrite first_row_snoc in Hk'.
      apply elem_of_app. left.
      apply lookup_snoc_Some in Hj as [[Hlen Hj]|[-> <-]]; [|congruence].
      destruct (first_row start done q) as [k''|] eqn:Hq.
      * injection Hk' as <-. eapply Hdup; eauto.
      * exfalso. exact (proj1 (first_row_None _ _ _) Hq j r Hj Hr).
    + intros j r raw' Hj Hf Hnone. apply elem_of_app.
      apply lookup_snoc_Some in Hj as [[_ Hj]|[-> <-]].
      * left. eapply Hinv; eauto.
      * right. assert (raw' = raw) by congruence. subst raw'.
        apply list_elem_of_singleton. reflexivity.
    + rewrite !length_app. simpl. lia.
Qed.

Lemma parse_rows_inv start rest : forall done st,
  parse_inv start done st ->
  Forall (fun row => is_Some (field "PMID" row)) rest ->
  exists st',
    Inventory.parse_rows int_of_str (start + length done) rest st = Ok st'
    /\ parse_inv start (done ++ rest) st'.
Proof.
  induction rest as [|row rest IH]; intros done st Hinv Htext; simpl.
  - exists st. rewrite app_nil_r. auto.
  - apply Forall_cons in Htext as [Hrow Hrest].
    destruct (parse_row_inv start done row st Hinv Hrow) as (st1 & -> & Hinv1).
    specialize (IH (done ++ [row]) st1 Hinv1 Hrest).
    rewrite length_app in IH. simpl in IH.
    replace (S (start + length done)) with (start + (length done + 1))%nat by lia.
    rewrite <- app_assoc in IH. exact IH.
Qed.

(** *** [parse_csv_inventory] *)

Lemma first_with_snoc a done row :
  first_with a (done ++ [row]) =
    match first_with a done with
    | Some found => Some found
    | None =>
        if decide (row_accession row = Some a) then Some (length done, row)
        else None
    end.
Proof.
  unfold Terms.first_with.
  destruct (list_find (fun r => row_accession r = Some a) done)
    as [[k r]|] eqn:Hfind.
  - rewrite (list_find_app_l _ _ _ _ _ Hfind). reflexivity.
  - rewrite (list_find_app_r _ _ _ Hfind). simpl.
    destruct (decide (row_accession row = Some a)); reflexivity.
Qed.

Lemma first_with_None a rows :
  first_with a rows = None <->
  (forall j row, rows !! j = Some row -> row_accession row <> Some a).
Proof.
  unfold Terms.first_with. rewrite list_find_None, Forall_lookup. reflexivity.
Qed.

Lemma first_with_Some a rows k row :
  first_with a rows = Some (k, row) ->
  rows !! k = Some row /\ row_accession row = Some a.
Proof.
  unfold Terms.first_with. intros Hfind.
  apply list_find_Some in Hfind as (Hk & Ha & _). auto.
Qed.

Lemma inventory_inv_init : inventory_inv [] (Inventory.InventoryState [] ∅ []).
Proof.
  split; simpl.
  - intros a. split; [set_solver|]. intros (j & row & Hj & _). discriminate.
  - intros name. split.
    + intros Hin. apply elem_of_nil in Hin. contradiction.
    + intros (a & k & row & Hfind & _). discriminate.
  - cbv. reflexivity.
  - intros j row name a k first Hj. discriminate.
  - intros j row name Hj. discriminate.
  - cbv. reflexivity.
Qed.

Lemma inventory_row_inv done row st :
  inventory_inv done st ->
  is_Some (field "name" row) ->
  exists st',
    Inventory.inventory_row int_of_str path_stem path_str row st = Ok st'
    /\ inventory_inv (done ++ [row]) st'.
Proof.
  intros [Hpr Hup Hlen Hdup Hbad Hcount] [name Hname].
  assert (Hrow : row !! "name" = Some (Some name))
    by (apply field_text; exact Hname).
  unfold Inventory.inventory_row. rewrite Hrow.
  destruct (int_of_str (path_stem name)) as [a|] eqn:Hint.
  - assert (Hacc : row_accession row = Some a)
      by (unfold Terms.row_accession; rewrite Hname; exact Hint).
    destruct (decide (a ∈ Inventory.processed_accessions st)) as [Hin|Hnin].
    + (* a duplicate *)
      destruct (first_with a done) as [[k0 r0]|] eqn:Hfirst.
      2:{ apply Hpr in Hin as (j & r & Hj & Hr).
          exfalso. exact (proj1 (first_with_None _ _) Hfirst j r Hj Hr). }
      eexists. split; [reflexivity|].
      split; simpl.
      * intros q. rewrite Hpr. split.
        -- intros (j & r & Hj & Hr). exists j, r. split; [|exact Hr].
           apply lookup_app_l_Some. exact Hj.
        -- intros (j & r & Hj & Hr).
           apply lookup_snoc_Some in Hj as [[_ Hj]|[_ <-]].
           ++ exists j, r. auto.
           ++ assert (q = a) by congruence. subst q. apply Hpr. exact Hin.
      * intros n. rewrite Hup. split.
        -- intros (q & k & r & Hq & Hn). exists q, k, r. split; [|exact Hn].
           rewrite first_with_snoc, Hq. reflexivity.
        -- intros (q & k & r & Hq & Hn). rewrite first_with_snoc in Hq.
           destruct (first_with q done) as [[k' r']|] eqn:Hq'.
           ++ injection Hq as <- <-. eauto.
           ++ case_decide as Hrq; [|discriminate].
              assert (q = a) by congruence. subst q. congruence.
      * exact Hlen.
      * intros j r n q k first Hj Hn Hr Hk Hlt.
        rewrite first_with_snoc in Hk.
        apply elem_of_app.
        apply lookup_snoc_Some in Hj as [[Hl Hj]|[-> <-]].
        -- left. destruct (first_with q done) as [[k' r']|] eqn:Hq.
           ++ injection Hk as <- <-. eapply Hdup; eauto.
           ++ exfalso. exact (proj1 (first_with_None _ _) Hq j r Hj Hr).
        -- right. assert (q = a) by congruence. subst q.
           assert (n = name) by congruence. subst n.
           apply list_elem_of_singleton. reflexivity.
      * intros j r n Hj Hn Hnone. apply elem_of_app.
        apply lookup_snoc_Some in Hj as [[_ Hj]|[_ <-]].
        -- left. eapply Hbad; eauto.
        -- congruence.
      * rewrite !length_app. simpl. lia.
    + (* the first occurrence *)
      assert (Hfirst : first_with a done = None).
      { apply first_with_None. intros j r Hj Hr. apply Hnin, Hpr. eauto. }
      eexists. split; [reflexivity|].
      split; simpl.
      * intros q. rewrite elem_of_union, elem_of_singleton, Hpr. split.
        -- intros [->|(j & r & Hj & Hr)].
           ++ exists (length done), row. split; [|exact Hacc].
              apply lookup_snoc_Some. right. auto.
           ++ exists j, r. split; [|exact Hr]. apply lookup_app_l_Some. exact Hj.
        -- intros (j & r & Hj & Hr).
           apply lookup_snoc_Some in Hj as [[_ Hj]|[_ <-]].
           ++ right. eauto.
           ++ left. congruence.
      * intros n. rewrite elem_of_app, list_elem_of_singleton, Hup. split.
        -- intros [(q & k & r & Hq & Hn)| ->].
           ++ exists q, k, r. split; [|exact Hn].
              rewrite first_with_snoc, Hq. reflexivity.
           ++ exists a, (length done), row. split; [|exact Hname].
              rewrite first_with_snoc, Hfirst. case_decide; congruence.
        -- intros (q & k & r & Hq & Hn). rewrite first_with_snoc in Hq.
           destruct (first_with q done) as [[k' r']|] eqn:Hq'.
           ++ injection Hq as <- <-. left. eauto.
           ++ case_decide as Hrq; [|discriminate].
              injection Hq as <- <-. right. congruence.
      * rewrite length_app, size_union by (apply disjoint_singleton_l; assumption).
        rewrite size_singleton. simpl. lia.
      * intros j r n q k first Hj Hn Hr Hk Hlt.
        rewrite first_with_snoc in Hk.
        apply lookup_snoc_Some in Hj as [[Hl Hj]|[-> <-]].
        -- destruct (first_with q done) as [[k' r']|] eqn:Hq.
           ++ injection Hk as <- <-. eapply Hdup; eauto.
           ++ exfalso. exact (proj1 (first_with_None _ _) Hq j r Hj Hr).
        -- assert (q = a) by congruence. subst q.
           rewrite Hfirst in Hk. case_decide; [|discriminate].
           injection Hk as <- <-. lia.
      * intros j r n Hj Hn Hnone.
        apply lookup_snoc_Some in Hj as [[_ Hj]|[_ <-]].
        -- eapply Hbad; eauto.
        -- congruence.
      * rewrite length_app, size_union by (apply disjoint_singleton_l; assumption).
        rewrite size_singleton. simpl. lia.
  - (* text that is not a number *)
    assert (Hacc : row_accession row = None)
      by (unfold Terms.row_accession; rewrite Hname; exact Hint).
    eexists. split; [reflexivity|].
    split; simpl.
    + intros q. rewrite Hpr. split.
      * intros (j & r & Hj & Hr). exists j, r. split; [|exact Hr].
        apply lookup_app_l_Some. exact Hj.
      * intros (j & r & Hj & Hr).
        apply lookup_snoc_Some in Hj as [[_ Hj]|[_ <-]]; [eauto|congruence].
    + intros n. rewrite Hup. split.
      * intros (q & k & r & Hq & Hn). exists q, k, r. split; [|exact Hn].
        rewrite first_with_snoc, Hq. reflexivity.
      * intros (q & k & r & Hq & Hn). rewrite first_with_snoc in Hq.
        destruct (first_with q done) as [[k' r']|] eqn:Hq'.
        -- injection Hq as <- <-. eauto.
        -- case_decide; congruence.
    + exact Hlen.
    + intros j r n q k first Hj Hn Hr Hk Hlt. rewrite first_with_snoc in Hk.
      apply elem_of_app. left.
      apply lookup_snoc_Some in Hj as [[Hl Hj]|[-> <-]]; [|congruence].
      destruct (first_with q done) as [[k' r']|] eqn:Hq.
      * injection Hk as <- <-. eapply Hdup; eauto.
      * exfalso. exact (proj1 (first_with_None _ _) Hq j r Hj Hr).
    + intros j r n Hj Hn Hnone. apply elem_of_app.
      apply lookup_snoc_Some in Hj as [[_ Hj]|[-> <-]].
      * left. eapply Hbad; eauto.
      * right. assert (n = name) by congruence. subst n.
        apply list_elem_of_singleton. reflexivity.
    + rewrite !length_app. simpl. lia.
Qed.

Lemma inventory_rows_inv rest : forall done st,
  inventory_inv done st ->
  Forall (fun row => is_Some (field "name" row)) rest ->
  exists st',
    Inventory.inventory_rows int_of_str path_stem path_str rest st = Ok st'
    /\ inventory_inv (done ++ rest) st'.
Proof.
  induction rest as [|row rest IH]; intros done st Hinv Htext; simpl.
  - exists st. rewrite app_nil_r. auto.
  - apply Forall_cons in Htext as [Hrow Hrest].
    destruct (inventory_row_inv done row st Hinv Hrow) as (st1 & -> & Hinv1).
    specialize (IH (done ++ [row]) st1 Hinv1 Hrest).
    rewrite <- app_assoc in IH. exact IH.
Qed.

(** *** [get_s3_pmids] *)

Lemma s3_objects_spec keys : forall acc,
  let out := Inventory.s3_objects int_of_str path_stem keys acc in
  (forall p, p ∈ out.1 <->
     p ∈ acc.1 \/ exists key, key ∈ keys /\ int_of_str (path_stem key) = Some p)
  /\ (forall r, r ∈ acc.2 -> r ∈ out.2)
  /\ (forall key, key ∈ keys -> int_of_str (path_stem key) = None ->
      (WARNING, Inventory.unparsed_msg (path_stem key)) ∈ out.2).
Proof.
  induction keys as [|key keys IH]; intros acc; simpl.
  - split; [|split].
    + intros p. split; [auto|]. intros [?|(key & Hin & _)]; [assumption|].
      apply elem_of_nil in Hin. contradiction.
    + auto.
    + intros key Hin. apply elem_of_nil in Hin. contradiction.
  - destruct (IH (Inventory.s3_object int_of_str path_stem key acc))
      as (Hset & Hlog & Hwarn).
    unfold Inventory.s3_objects in *. simpl.
    split; [|split].
    + intros p. rewrite Hset. unfold Inventory.s3_object.
      destruct (int_of_str (path_stem key)) as [q|] eqn:Hq; simpl.
      * rewrite elem_of_union, elem_of_singleton. split.
        -- intros [[->|?]|(k & Hk & Hp)]; [right|left|right].
           ++ exists key. split; [left|exact Hq].
           ++ assumption.
           ++ exists k. split; [right; exact Hk|exact Hp].
        -- intros [?|(k & Hk & Hp)]; [left; right; assumption|].
           apply elem_of_cons in Hk as [->|Hk].
           ++ left. left. congruence.
           ++ right. eauto.
      * split.
        -- intros [?|(k & Hk & Hp)]; [left; assumption|right].
           exists k. split; [right; exact Hk|exact Hp].
        -- intros [?|(k & Hk & Hp)]; [left; assumption|].
           apply elem_of_cons in Hk as [->|Hk]; [congruence|right; eauto].
    + intros r Hr. apply Hlog. unfold Inventory.s3_object.
      destruct (int_of_str (path_stem key)); simpl; [assumption|].
      apply elem_of_app. left. assumption.
    + intros k Hk Hnone. apply elem_of_cons in Hk as [->|Hk].
      * apply Hlog. unfold Inventory.s3_object. rewrite Hnone. simpl.
        apply elem_of_app. right. apply list_elem_of_singleton. reflexivity.
      * apply Hwarn; assumption.
Qed.

Lemma s3_pages_spec pages : forall acc,
  let out :=
    foldl (fun acc page =>
             match page with
             | Some keys => Inventory.s3_objects int_of_str path_stem keys acc
             | None => acc
             end) acc pages in
  (forall p, p ∈ out.1 <->
     p ∈ acc.1 \/ exists keys key, Some keys ∈ pages /\ key ∈ keys
                                   /\ int_of_str (path_stem key) = Some p)
  /\ (forall r, r ∈ acc.2 -> r ∈ out.2)
  /\ (forall keys key, Some keys ∈ pages -> key ∈ keys ->
      int_of_str (path_stem key) = None ->
      (WARNING, Inventory.unparsed_msg (path_stem key)) ∈ out.2).
Proof.
  induction pages as [|page pages IH]; intros acc; simpl.
  - split; [|split].
    + intros p. split; [auto|]. intros [?|(keys & key & Hin & _)]; [assumption|].
      apply elem_of_nil in Hin. contradiction.
    + auto.
    + intros keys key Hin. apply elem_of_nil in Hin. contradiction.
  - destruct page as [keys0|].
    + destruct (IH (Inventory.s3_objects int_of_str path_stem keys0 acc))
        as (Hset & Hlog & Hwarn).
      destruct (s3_objects_spec keys0 acc) as (Hset0 & Hlog0 & Hwarn0).
      split; [|split].
      * intros p. rewrite Hset, Hset0. split.
        -- intros [[?|(key & Hk & Hp)]|(keys & key & Hks & Hk & Hp)].
           ++ left. assumption.
           ++ right. exists keys0, key. split; [left|auto].
           ++ right. exists keys, key. split; [right; exact Hks|auto].
        -- intros [?|(keys & key & Hks & Hk & Hp)]; [left; left; assumption|].
           apply elem_of_cons in Hks as [Heq|Hks].
           ++ injection Heq as ->. left. right. eauto.
           ++ right. eauto.
      * intros r Hr. apply Hlog, Hlog0, Hr.
      * intros keys key Hks Hk Hnone.
        apply elem_of_cons in Hks as [Heq|Hks].
        -- injection Heq as ->. apply Hlog, Hwarn0; assumption.
        -- eapply Hwarn; eauto.
    + destruct (IH acc) as (Hset & Hlog & Hwarn).
      split; [|split].
      * intros p. rewrite Hset. split.
        -- intros [?|(keys & key & Hks & Hk & Hp)]; [left; assumption|].
           right. exists keys, key. split; [right; exact Hks|auto].
        -- intros [?|(keys & key & Hks & Hk & Hp)]; [left; assumption|].
           apply elem_of_cons in Hks as [Heq|Hks]; [discriminate|].
           right. eauto.
      * exact Hlog.
      * intros keys key Hks Hk Hnone.
        apply elem_of_cons in Hks as [Heq|Hks]; [discriminate|].
        eapply Hwarn; eauto.
Qed.

(** C6, as the code has it. On rows that all carry an identifier text,
    [parse_csv_pmids] returns: its set holds each identifier once, however
    often it occurs; every later occurrence of an identifier is logged with
    the warning [Duplicate PMID p found in row i. First occurrence in row k],
    where [i] is its own row number and [k] the number of the row of the
    first occurrence, which is the one kept; and every row either adds to
    the set or writes one log record.  Likewise [parse_csv_inventory] keeps
    the path of the first row of every accession number, one path per
    number, and logs every later row with the warning
    [Duplicate accession number found: a - path], which names the number and
    the path of the later row, and nothing of the first. *)
Theorem parsers_keep_first_occurrence rows has_header inventory :
  Forall (fun row => is_Some (field "PMID" row)) rows ->
  Forall (fun row => is_Some (field "name" row)) inventory ->
  (exists found log,
     Inventory.parse_csv_pmids int_of_str rows has_header = Ok (found, log)
     /\ (forall p, p ∈ found <->
           exists j row, rows !! j = Some row /\ row_id row = Some p)
     /\ (forall j row p k,
           rows !! j = Some row -> row_id row = Some p ->
           first_row (Inventory.start_row has_header) rows p = Some k ->
           (k < Inventory.start_row has_header + j)%nat ->
           (WARNING,
            "Duplicate PMID " +:+ pretty p +:+ " found in row "
            +:+ pretty (Inventory.start_row has_header + j)%nat
            +:+ ". First occurrence in row " +:+ pretty k)
             ∈ log)
     /\ (length log + size found = length rows)%nat)
  /\ (exists uploads accessions log,
        Inventory.parse_csv_inventory int_of_str path_stem path_str inventory
        = Ok (uploads, accessions, log)
        /\ (forall name, name ∈ uploads <->
              exists a k row, first_with a inventory = Some (k, row)
                              /\ field "name" row = Some name)
        /\ length uploads = size accessions
        /\ (forall j row name a k first,
              inventory !! j = Some row -> field "name" row = Some name ->
              row_accession row = Some a ->
              first_with a inventory = Some (k, first) -> (k < j)%nat ->
              (WARNING,
               "Duplicate accession number found: " +:+ pretty a +:+ " - "
               +:+ path_str name) ∈ log)
        /\ (length log + size accessions = length inventory)%nat).
Proof.
  intros Hrows Hinventory. split.
  - destruct (parse_rows_inv (Inventory.start_row has_header) rows []
                (Inventory.ParseState ∅ ∅ []) (parse_inv_init _) Hrows)
      as (st & Hrun & [Hpm _ Hdup _ Hcount]).
    simpl in Hrun. rewrite Nat.add_0_r in Hrun.
    exists (Inventory.pmids st), (Inventory.log st).
    unfold Inventory.parse_csv_pmids. rewrite Hrun.
    split; [reflexivity|]. split; [exact Hpm|]. split; [|exact Hcount].
    intros j row p k Hj Hid Hfirst Hlt.
    exact (Hdup j row p k Hj Hid Hfirst Hlt).
  - destruct (inventory_rows_inv inventory [] (Inventory.InventoryState [] ∅ [])
                inventory_inv_init Hinventory)
      as (st & Hrun & [_ Hup Hlen Hdup _ Hcount]).
    exists (Inventory.upload_list st), (Inventory.processed_accessions st),
      (Inventory.inv_log st).
    unfold Inventory.parse_csv_inventory. rewrite Hrun.
    split; [reflexivity|]. split; [exact Hup|]. split; [exact Hlen|].
    split; [|exact Hcount].
    intros j row name a k first Hj Hname Ha Hfirst Hlt.
    exact (Hdup j row name a k first Hj Hname Ha Hfirst Hlt).
Qed.

(** Text that [int] rejects: [parse_csv_pmids] and [get_s3_pmids]. *)
Lemma unparseable_text_in_sets rows has_header pages :
  Forall (fun row => is_Some (field "PMID" row)) rows ->
  (exists found log,
     Inventory.parse_csv_pmids int_of_str rows has_header = Ok (found, log)
     /\ (forall p, p ∈ found <->
           exists j row, rows !! j = Some row /\ row_id row = Some p)
     /\ (forall j row raw,
           rows !! j = Some row -> field "PMID" row = Some raw ->
           int_of_str raw = None ->
           (ERROR, Inventory.invalid_msg (Inventory.start_row has_header + j) raw)
             ∈ log))
  /\ (forall p, p ∈ (Inventory.get_s3_pmids int_of_str path_stem pages).1 <->
        exists keys key, Some keys ∈ pages /\ key ∈ keys
                         /\ int_of_str (path_stem key) = Some p)
  /\ (forall keys key, Some keys ∈ pages -> key ∈ keys ->
        int_of_str (path_stem key) = None ->
        (WARNING, Inventory.unparsed_msg (path_stem key))
          ∈ (Inventory.get_s3_pmids int_of_str path_stem pages).2).
Proof.
  intros Hrows. split; [|split].
  - destruct (parse_rows_inv (Inventory.start_row has_header) rows []
                (Inventory.ParseState ∅ ∅ []) (parse_inv_init _) Hrows)
      as (st & Hrun & [Hpm _ _ Hinv _]).
    simpl in Hrun. rewrite Nat.add_0_r in Hrun.
    exists (Inventory.pmids st), (Inventory.log st).
    unfold Inventory.parse_csv_pmids. rewrite Hrun. auto.
  - intros p. unfold Inventory.get_s3_pmids.
    destruct (s3_pages_spec pages (∅, [])) as (Hset & _ & _).
    rewrite Hset. simpl. split; [|auto].
    intros [Hin|?]; [|assumption]. set_solver.
  - unfold Inventory.get_s3_pmids.
    destruct (s3_pages_spec pages (∅, [])) as (_ & _ & Hwarn). exact Hwarn.
Qed.

End ParseFacts.

(** C7, as the code has it. A row whose identifier is a text that [int]
    rejects is dropped with a log record (at level ERROR in
    [parse_csv_pmids], WARNING in [get_s3_pmids]) and parsing goes on: on
    rows that all carry a text, [parse_csv_pmids] returns, its set holds the
    identifiers that parse and nothing else, and so does the set of
    [get_s3_pmids] for the keys of the listing.  [read_pmid_locations] skips
    with a warning every line that is not blank and is not an identifier, a
    comma and a URI that parses; every line is blank, gives one entry or
    gives one warning. *)
Theorem unparseable_text_is_dropped
  (int_of_str : string -> option Z) (path_stem str_strip : string -> string)
  (urlparse : string -> option (string * string))
  (rows : list Inventory.csv_row) (has_header : bool)
  (pages : list Inventory.s3_page) (lines : list string) :
  Forall (fun row => is_Some (field "PMID" row)) rows ->
  (exists found log,
     Inventory.parse_csv_pmids int_of_str rows has_header = Ok (found, log)
     /\ (forall p, p ∈ found <->
           exists j row, rows !! j = Some row /\ row_id int_of_str row = Some p)
     /\ (forall j row raw,
           rows !! j = Some row -> field "PMID" row = Some raw ->
           int_of_str raw = None ->
           (ERROR, Inventory.invalid_msg (Inventory.start_row has_header + j) raw)
             ∈ log))
  /\ (forall p, p ∈ (Inventory.get_s3_pmids int_of_str path_stem pages).1 <->
        exists keys key, Some keys ∈ pages /\ key ∈ keys
                         /\ int_of_str (path_stem key) = Some p)
  /\ (forall keys key, Some keys ∈ pages -> key ∈ keys ->
        int_of_str (path_stem key) = None ->
        (WARNING, Inventory.unparsed_msg (path_stem key))
          ∈ (Inventory.get_s3_pmids int_of_str path_stem pages).2)
  /\ (forall j line,
        lines !! j = Some line -> str_strip line <> "" ->
        (forall p uri, split_on "," (str_strip line) = [p; uri] ->
                       urlparse uri = None) ->
        (WARNING, AwsDownload.malformed_msg (str_strip line))
          ∈ (AwsDownload.read_pmid_locations str_strip urlparse lines).2)
  /\ (length (AwsDownload.read_pmid_locations str_strip urlparse lines).1
      + length (AwsDownload.read_pmid_locations str_strip urlparse lines).2
      + length (filter (fun line => str_strip line = "") lines)
      = length lines)%nat.
Proof.
  intros Hrows.
  destruct (unparseable_text_in_sets int_of_str path_stem rows has_header pages
              Hrows) as (Hcsv & Hs3 & Hs3log).
  split; [exact Hcsv|]. split; [exact Hs3|]. split; [exact Hs3log|]. split.
  - intros j line. apply read_pmid_locations_skips_malformed.
  - unfold AwsDownload.read_pmid_locations.
    rewrite (read_lines_account str_strip urlparse lines ([], [])). simpl. lia.
Qed.

Example parse_csv_pmids_runs :
  Inventory.parse_csv_pmids Sample.int_of_str pmid_rows true
  = Ok ({[12; 7]},
        [(ERROR, "Invalid PMID format in row 3: abc");
         (WARNING, "Duplicate PMID 12 found in row 4. First occurrence in row 2");
         (WARNING, "Duplicate PMID 12 found in row 6. First occurrence in row 2")]).
Proof. vm_compute. reflexivity. Qed.

Example parse_csv_inventory_runs :
  Inventory.parse_csv_inventory Sample.int_of_str Sample.path_stem
    Sample.path_str inventory_rows
  = Ok (["a/1.pdf"], {[1]},
        [(WARNING, "Duplicate accession number found: 1 - b/1.pdf");
         (ERROR, "Invalid accession number format: notes")]).
Proof. vm_compute. reflexivity. Qed.

Lemma parsers_keep_first_occurrence_witness :
  exists found log,
    Inventory.parse_csv_pmids Sample.int_of_str pmid_rows true = Ok (found, log)
    /\ (WARNING, "Duplicate PMID 12 found in row 4. First occurrence in row 2")
         ∈ log
    /\ (length log + size found = 5)%nat.
Proof.
  destruct (parsers_keep_first_occurrence Sample.int_of_str Sample.path_stem
              Sample.path_str pmid_rows true inventory_rows)
    as [(found & log & Hrun & _ & Hdup & Hcount) _].
  - repeat constructor; eexists; vm_compute; reflexivity.
  - repeat constructor; eexists; vm_compute; reflexivity.
  - exists found, log. split; [exact Hrun|]. split; [|exact Hcount].
    apply (Hdup 2%nat {["PMID" := Some "12"]} 12 2%nat);
      vm_compute; first [reflexivity | lia].
Defined.

(** C6, as stated, fails for [parse_csv_inventory]: its warning does not
    record which first occurrence wins.  Two inventories whose first rows
    for accession number 1 differ, followed by the same later row, write the
    same log; the first occurrence shows in the returned list only. *)
Lemma duplicate_accession_log_omits_first :
  Inventory.parse_csv_inventory Sample.int_of_str Sample.path_stem
    Sample.path_str
    [ {["name" := Some "a/1.pdf"]}; {["name" := Some "c/1.pdf"]} ]
  = Ok (["a/1.pdf"], {[1]},
        [(WARNING, "Duplicate accession number found: 1 - c/1.pdf")])
  /\ Inventory.parse_csv_inventory Sample.int_of_str Sample.path_stem
       Sample.path_str
       [ {["name" := Some "b/1.pdf"]}; {["name" := Some "c/1.pdf"]} ]
     = Ok (["b/1.pdf"], {[1]},
           [(WARNING, "Duplicate accession number found: 1 - c/1.pdf")]).
Proof. split; vm_compute; reflexivity. Qed.

Lemma unparseable_text_is_dropped_witness :
  exists found log,
    Inventory.parse_csv_pmids Sample.int_of_str pmid_rows true = Ok (found, log)
    /\ (ERROR, "Invalid PMID format in row 3: abc") ∈ log.
Proof.
  destruct (unparseable_text_is_dropped Sample.int_of_str Sample.path_stem
              Sample.str_strip Sample.urlparse
              pmid_rows true [Some ["pdfs/12.pdf"; "pdfs/readme.md"]; None]
              ["12,s3://bucket/pdfs/12.pdf"; "no comma here"])
    as [(found & log & Hrun & _ & Hinvalid) _].
  - repeat constructor; eexists; vm_compute; reflexivity.
  - exists found, log. split; [exact Hrun|].
    apply (Hinvalid 1%nat {["PMID" := Some "abc"]} "abc"); vm_compute; reflexivity.
Defined.

(** C7, as stated, fails on a row that is too short for the [PMID] column:
    the reader fills the field with [None], [int(None)] raises [TypeError],
    the handler catches [ValueError] only, and [parse_csv_pmids] raises. *)
Lemma short_row_raises :
  row_id Sample.int_of_str (<["PMID" := None]> {["name" := Some "x.pdf"]}) = None
  /\ Inventory.parse_csv_pmids Sample.int_of_str
       [ {["PMID" := Some "12"; "name" := Some "a.pdf"]};
         <["PMID" := None]> {["name" := Some "x.pdf"]} ] true
     = Raise (TypeError
                "int() argument must be a string, a bytes-like object or a real number, not 'NoneType'").
Proof. split; vm_compute; reflexivity. Qed.

(** ** The transfer worker: [download_pdf] *)

Section DownloadFacts.

Import DownloadPdfs.

Variable w : world.

Lemma usable_text c :
  usable c = true <-> exists s, c = CellStr s /\ s <> "".
Proof.
  destruct c as [| |s]; simpl; split; try discriminate.
  - intros (s & Hs & _). discriminate.
  - intros (s & Hs & _). discriminate.
  - unfold usable. simpl. rewrite andb_true_r, negb_true_iff.
    intros Hne. exists s. split; [reflexivity|].
    intros ->. discriminate.
  - intros (s' & Hs & Hne). injection Hs as <-.
    unfold usable. simpl. rewrite andb_true_r, negb_true_iff.
    apply String.eqb_neq. exact Hne.
Qed.

Lemma attempt_no_reason pmid sl url path :
  (attempt w pmid sl url path).1 = true <->
  session_get w pmid sl url = RespStatus 200 None.
Proof.
  unfold attempt.
  destruct (session_get w pmid sl url) as [e|status [e|]]; simpl.
  - split; discriminate.
  - case_decide; simpl; split; try discriminate; congruence.
  - case_decide; simpl; split; try discriminate; try congruence.
Qed.

(** When [os.makedirs] does not raise, [download_pdf] returns one of its two
    dicts, whatever the requests do. *)
Lemma download_pdf_returns pmid url backup :
  makedirs w pmid = None ->
  exists o t,
    download_pdf w pmid url backup = (Ok o, t)
    /\ (o = success_outcome pmid (filepath_of pmid) \/ o = failed_outcome pmid).
Proof.
  intros Hmk. unfold download_pdf. rewrite Hmk.
  repeat (case_match; simpl); eexists _, _; split; try reflexivity; auto.
Qed.

Lemma download_pdf_raises pmid url backup e :
  makedirs w pmid = Some e ->
  download_pdf w pmid url backup = (Raise (OSError e), [EvMakedirs "pdfs"]).
Proof. intros Hmk. unfold download_pdf. rewrite Hmk. reflexivity. Qed.

(** C2, as the code has it. With neither a primary nor a backup location
    (each is [None], NaN or the empty text) and the directory in place,
    [download_pdf] returns the dict with status [failed] and an empty file
    path; the dict has no other key, so it carries no failure reason; the run
    creates the directory and logs one error, and makes no request. *)
Theorem download_pdf_no_sources pmid url backup :
  usable url = false ->
  usable backup = false ->
  makedirs w pmid = None ->
  download_pdf w pmid url backup
  = (Ok (failed_outcome pmid),
     [EvMakedirs "pdfs"; EvLog ERROR ("Download failed for " +:+ pretty pmid)])
  /\ failed_outcome pmid !! "Status" = Some (PyStr "failed")
  /\ failed_outcome pmid !! "Filepath" = Some (PyStr "")
  /\ dom (failed_outcome pmid) = {["PMID"; "Status"; "Filepath"]}
  /\ Forall (fun e => is_http_get e = false) (download_pdf w pmid url backup).2.
Proof.
  intros Hurl Hbackup Hmk.
  assert (Hrun : download_pdf w pmid url backup
                 = (Ok (failed_outcome pmid),
                    [EvMakedirs "pdfs";
                     EvLog ERROR ("Download failed for " +:+ pretty pmid)])).
  { unfold download_pdf. rewrite Hmk, Hurl, Hbackup. reflexivity. }
  rewrite Hrun.
  split; [reflexivity|]. split; [reflexivity|]. split; [reflexivity|].
  split.
  - unfold failed_outcome. rewrite !dom_insert_L, dom_empty_L. set_solver.
  - repeat constructor.
Qed.

(** C3, as the code has it. When the primary request fails (it raises, its
    status is not 200, or the body cannot be saved) and the backup request
    succeeds, [download_pdf] returns the dict with status [success] and the
    local file path; the dict has no other key: it names neither the location
    used nor a failure.  The last log record says the backup URL served the
    file, and a primary request that raised is logged as a warning. *)
Theorem download_pdf_backup_succeeds pmid u b :
  makedirs w pmid = None ->
  u <> "" -> b <> "" ->
  session_get w pmid Primary u <> RespStatus 200 None ->
  session_get w pmid Backup b = RespStatus 200 None ->
  (download_pdf w pmid (CellStr u) (CellStr b)).1
  = Ok (success_outcome pmid (filepath_of pmid))
  /\ success_outcome pmid (filepath_of pmid) !! "Status" = Some (PyStr "success")
  /\ success_outcome pmid (filepath_of pmid) !! "Filepath"
     = Some (PyStr (filepath_of pmid))
  /\ dom (success_outcome pmid (filepath_of pmid))
     = {["PMID"; "Status"; "Filepath"]}
  /\ last (download_pdf w pmid (CellStr u) (CellStr b)).2
     = Some (EvLog INFO (slot_success_msg Backup pmid))
  /\ EvHttpGet b ∈ (download_pdf w pmid (CellStr u) (CellStr b)).2
  /\ (forall e, session_get w pmid Primary u = RespRaise e ->
      EvLog WARNING (slot_failed_msg Primary pmid e)
        ∈ (download_pdf w pmid (CellStr u) (CellStr b)).2).
Proof.
  intros Hmk Hu Hb Hfirst Hsecond.
  assert (Hu' : usable (CellStr u) = true) by (apply usable_text; eauto).
  assert (Hb' : usable (CellStr b) = true) by (apply usable_text; eauto).
  assert (H1 : (attempt w pmid Primary u (filepath_of pmid)).1 = false).
  { apply not_true_is_false. intros Hok. apply Hfirst.
    apply attempt_no_reason in Hok. exact Hok. }
  assert (H2 : attempt w pmid Backup b (filepath_of pmid)
               = (true, [EvHttpGet b; EvWrite (filepath_of pmid);
                         EvLog INFO (slot_success_msg Backup pmid)])).
  { unfold attempt. rewrite Hsecond. reflexivity. }
  unfold download_pdf. rewrite Hmk, Hu', Hb'. simpl cell_str.
  fold (filepath_of pmid). rewrite H1, H2. simpl.
  split; [reflexivity|]. split; [reflexivity|]. split; [reflexivity|].
  split; [|split; [|split]].
  - unfold success_outcome. rewrite !dom_insert_L, dom_empty_L. set_solver.
  - rewrite app_comm_cons.
    match goal with
    | |- last (?l ++ [?a; ?b; ?c]) = _ =>
        replace (l ++ [a; b; c]) with ((l ++ [a; b]) ++ [c])
          by (rewrite <- app_assoc; reflexivity)
    end.
    apply last_snoc.
  - apply elem_of_cons. right. apply elem_of_app. right. left.
  - intros e He. apply elem_of_cons. right. apply elem_of_app. left.
    unfold attempt. rewrite He. simpl. right. left.
Qed.

End DownloadFacts.

Example download_pdf_backup_runs :
  DownloadPdfs.download_pdf backup_only 1001
    (DownloadPdfs.CellStr "http://a/1001.pdf")
    (DownloadPdfs.CellStr "http://b/1001.pdf")
  = (Ok (DownloadPdfs.success_outcome 1001 "pdfs/1001.pdf"),
     [EvMakedirs "pdfs"; EvHttpGet "http://a/1001.pdf";
      EvLog WARNING "Primary URL failed for 1001: Connection refused";
      EvHttpGet "http://b/1001.pdf"; EvWrite "pdfs/1001.pdf";
      EvLog INFO "Successfully downloaded 1001 from backup URL"]).
Proof. vm_compute. reflexivity. Qed.

Lemma download_pdf_no_sources_witness :
  (DownloadPdfs.download_pdf backup_only 1001 DownloadPdfs.CellNaN
     (DownloadPdfs.CellStr "")).1
  = Ok (DownloadPdfs.failed_outcome 1001).
Proof.
  destruct (download_pdf_no_sources backup_only 1001 DownloadPdfs.CellNaN
              (DownloadPdfs.CellStr "") eq_refl eq_refl eq_refl) as [Hrun _].
  rewrite Hrun. reflexivity.
Defined.

(** C2, as stated, fails: the dict returned for an identifier without sources
    has no entry for a reason, and none of its values is ["no sources"]. *)
Lemma no_sources_reason_absent :
  (DownloadPdfs.download_pdf backup_only 1001 DownloadPdfs.CellNaN
     (DownloadPdfs.CellStr "")).1
  = Ok (DownloadPdfs.failed_outcome 1001)
  /\ DownloadPdfs.failed_outcome 1001 !! "Reason" = None
  /\ DownloadPdfs.failed_outcome 1001 !! "failure_reason" = None
  /\ Forall (fun kv => kv.2 <> PyStr "no sources")
       (map_to_list (DownloadPdfs.failed_outcome 1001)).
Proof.
  split; [vm_compute; reflexivity|].
  split; [vm_compute; reflexivity|].
  split; [vm_compute; reflexivity|].
  vm_compute. repeat constructor; discriminate.
Qed.

Lemma download_pdf_backup_succeeds_witness :
  (DownloadPdfs.download_pdf backup_only 1001
     (DownloadPdfs.CellStr "http://a/1001.pdf")
     (DownloadPdfs.CellStr "http://b/1001.pdf")).1
  = Ok (DownloadPdfs.success_outcome 1001 (filepath_of 1001)).
Proof.
  destruct (download_pdf_backup_succeeds backup_only 1001
              "http://a/1001.pdf" "http://b/1001.pdf") as [Hrun _].
  - reflexivity.
  - discriminate.
  - discriminate.
  - discriminate.
  - reflexivity.
  - exact Hrun.
Defined.

(** C3, as stated, fails: after the fallback to the backup URL the returned
    dict holds the identifier, the status and the local file path, and the
    location that served the file is not among its values. *)
Lemma backup_location_not_returned :
  (DownloadPdfs.download_pdf backup_only 1001
     (DownloadPdfs.CellStr "http://a/1001.pdf")
     (DownloadPdfs.CellStr "http://b/1001.pdf")).1
  = Ok (DownloadPdfs.success_outcome 1001 "pdfs/1001.pdf")
  /\ Forall (fun kv => kv.2 <> PyStr "http://b/1001.pdf")
       (map_to_list (DownloadPdfs.success_outcome 1001 "pdfs/1001.pdf")).
Proof.
  split; [vm_compute; reflexivity|].
  vm_compute. repeat constructor; discriminate.
Qed.

(** In [download_file] of aws_download.py the fallback key may succeed, and
    the function still answers [False]. *)
Lemma download_file_fallback_reports_failure w fi bucket dir e :
  AwsDownload.mkdir_parents w (dir +:+ "/" +:+ AwsDownload.local_name fi) = None ->
  AwsDownload.s3_download w bucket (AwsDownload.s3_key fi)
    (dir +:+ "/" +:+ AwsDownload.local_name fi) = Some e ->
  AwsDownload.s3_download w bucket
    (join "//" (split_on "/" (AwsDownload.s3_key fi)))
    (dir +:+ "/" +:+ AwsDownload.local_name fi) = None ->
  (AwsDownload.download_file w fi bucket dir).1 = false.
Proof.
  intros Hmk Hfirst Hsecond. unfold AwsDownload.download_file.
  rewrite Hmk, Hfirst. simpl. rewrite Hsecond. reflexivity.
Qed.

Example download_file_fallback_runs :
  AwsDownload.download_file
    (AwsDownload.World (fun _ => None)
       (fun _ key _ => if decide (key = "pdfs//42.pdf") then None
                       else Some "Not Found"))
    (AwsDownload.FileInfo "pdfs/42.pdf" "other/42.pdf" "42") "bucket" "out"
  = (false,
     [EvMkdirParents "out/other/42.pdf";
      EvS3Download "bucket" "pdfs/42.pdf" "out/other/42.pdf";
      EvS3Download "bucket" "pdfs//42.pdf" "out/other/42.pdf"]).
Proof. vm_compute. reflexivity. Qed.

(** ** The coordinator: [process_chunk] and [main] *)

Section CoordinatorFacts.

Import DownloadPdfs.

Variable w : world.

#[local] Abbreviation worker_result := (Terms.worker_result w).

Lemma omap_map {A B C : Type} (f : B -> option C) (g : A -> B) (l : list A) :
  omap f (map g l) = omap (fun x => f (g x)) l.
Proof.
  induction l as [|x l IH]; csimpl; [reflexivity|].
  rewrite IH. reflexivity.
Qed.

Lemma process_chunk_results chunk i n :
  (process_chunk w chunk i n).1 = omap worker_result chunk.
Proof.
  unfold process_chunk. cbn [fst].
  apply (omap_map (fun t : res outcome * list event => returned t.1)
           (fun r => download_pdf w (PMID r) (URL r) (Backup_URL r))).
Qed.

Lemma run_chunks_results chunks : forall i n results,
  (run_chunks w i n chunks results).1
  = results ++ omap worker_result (concat chunks).
Proof.
  induction chunks as [|chunk chunks IH]; intros i n results.
  - simpl. rewrite app_nil_r. reflexivity.
  - cbn [run_chunks fst concat].
    rewrite IH, process_chunk_results, omap_app, app_assoc. reflexivity.
Qed.

Lemma chunks_prefix {A : Type} (cs : nat) (df : list A) m : forall a,
  concat (map (fun i => take cs (drop i df))
            (map (fun k => (k * cs)%nat) (seq a m)))
  = take (m * cs) (drop (a * cs) df).
Proof.
  induction m as [|m IH]; intros a; simpl; [reflexivity|].
  rewrite IH.
  replace (S a * cs)%nat with (a * cs + cs)%nat by lia.
  rewrite <- drop_drop. apply take_take_drop.
Qed.

Lemma chunks_of_concat {A : Type} (df : list A) :
  concat (chunks_of chunk_size df) = df.
Proof.
  unfold chunks_of, range_step. rewrite chunks_prefix. simpl drop.
  apply take_ge. unfold chunk_size.
  pose proof (Nat.div_mod_eq (length df + 10 - 1) 10) as Hdiv.
  pose proof (Nat.mod_upper_bound (length df + 10 - 1) 10) as Hmod.
  lia.
Qed.

Lemma main_results df : (main w df).1 = omap worker_result df.
Proof.
  unfold main. rewrite run_chunks_results, chunks_of_concat. reflexivity.
Qed.

Lemma worker_result_Some r o :
  worker_result r = Some o <->
  makedirs w (PMID r) = None
  /\ (download_pdf w (PMID r) (URL r) (Backup_URL r)).1 = Ok o.
Proof.
  unfold Terms.worker_result.
  destruct (makedirs w (PMID r)) as [e|] eqn:Hmk.
  - rewrite (download_pdf_raises w _ _ _ e Hmk). simpl.
    split; [discriminate|]. intros [? _]. discriminate.
  - destruct (download_pdf_returns w (PMID r) (URL r) (Backup_URL r) Hmk)
      as (o' & t & -> & _). simpl. split.
    + intros [= ->]. auto.
    + intros [_ [= ->]]. reflexivity.
Qed.

Lemma worker_result_pmids (df : list row) :
  (fun o : outcome => o !! "PMID") <$> omap worker_result df
  = (fun r => Some (PyInt (PMID r)))
      <$> filter (fun r => makedirs w (PMID r) = None) df.
Proof.
  induction df as [|r df IH]; [reflexivity|].
  rewrite filter_cons. csimpl.
  destruct (worker_result r) as [o|] eqn:Hres.
  - apply worker_result_Some in Hres as [Hmk Hrun].
    rewrite decide_True by exact Hmk. rewrite !fmap_cons, IH. f_equal.
    destruct (download_pdf_returns w (PMID r) (URL r) (Backup_URL r) Hmk)
      as (o' & t & Hrun' & Ho).
    rewrite Hrun' in Hrun. injection Hrun as ->.
    destruct Ho as [-> | ->]; reflexivity.
  - rewrite decide_False; [exact IH|].
    intros Hmk.
    destruct (download_pdf_returns w (PMID r) (URL r) (Backup_URL r) Hmk)
      as (o' & t & Hrun' & _).
    assert (worker_result r = Some o') as Hsome
      by (apply worker_result_Some; rewrite Hrun'; auto).
    congruence.
Qed.

End CoordinatorFacts.

Lemma omap_length_all {A B : Type} (f : A -> option B) (l : list A) :
  (forall x, x ∈ l -> is_Some (f x)) -> length (omap f l) = length l.
Proof.
  induction l as [|x l IH]; intros Hall; csimpl; [reflexivity|].
  destruct (Hall x) as [y ->]; [left|]. simpl. f_equal.
  apply IH. intros x' Hx'. apply Hall. right. exact Hx'.
Qed.

(** C4, as the code has it. [main] returns the dicts of the rows whose task
    returned, in the order of the manifest, and nothing for a row whose task
    raised: [process_chunk] filters the exceptions out.  When no task raises
    there is one dict per row, each with status [success] or [failed].  In
    the scenario of 25 identifiers with failing requests for 11 to 15 the run
    ends with 25 dicts, 5 failed and 20 successful, and the second chunk is
    dispatched after the ten results of the first are added to the results;
    before that only the locations of the first chunk are requested. *)
Theorem main_outcomes :
  (forall w df,
     (fun o : DownloadPdfs.outcome => o !! "PMID") <$> (DownloadPdfs.main w df).1
     = (fun r => Some (PyInt (DownloadPdfs.PMID r)))
         <$> filter (fun r => DownloadPdfs.makedirs w (DownloadPdfs.PMID r) = None)
               df)
  /\ (forall w df,
        (forall r, r ∈ df ->
           DownloadPdfs.makedirs w (DownloadPdfs.PMID r) = None) ->
        length (DownloadPdfs.main w df).1 = length df)
  /\ (forall w df o,
        o ∈ (DownloadPdfs.main w df).1 ->
        o !! "Status" = Some (PyStr "success")
        \/ o !! "Status" = Some (PyStr "failed"))
  /\ length (DownloadPdfs.main forced_failures manifest25).1 = 25%nat
  /\ length (filter (fun o => has_status "failed" o = true)
               (DownloadPdfs.main forced_failures manifest25).1) = 5%nat
  /\ length (filter (fun o => has_status "success" o = true)
               (DownloadPdfs.main forced_failures manifest25).1) = 20%nat
  /\ fst <$> list_find (fun e => e = EvExtend 10)
               (DownloadPdfs.main forced_failures manifest25).2 = Some 42%nat
  /\ fst <$> list_find (fun e => e = EvGather (seqZ 11 10))
               (DownloadPdfs.main forced_failures manifest25).2 = Some 46%nat
  /\ omap requested_url
       (take 42 (DownloadPdfs.main forced_failures manifest25).2)
     = map (fun k => "http://a/" +:+ pretty k +:+ ".pdf") (seqZ 1 10).
Proof.
  split; [|split; [|split]].
  - intros w df. rewrite main_results. apply worker_result_pmids.
  - intros w df Hall. rewrite main_results. apply omap_length_all.
    intros r Hr.
    destruct (download_pdf_returns w (DownloadPdfs.PMID r) (DownloadPdfs.URL r)
                (DownloadPdfs.Backup_URL r) (Hall r Hr)) as (o & t & Hrun & _).
    exists o. apply worker_result_Some. rewrite Hrun. auto.
  - intros w df o Ho. rewrite main_results in Ho.
    apply list_elem_of_omap in Ho as (r & _ & Hres).
    apply worker_result_Some in Hres as [Hmk Hrun].
    destruct (download_pdf_returns w (DownloadPdfs.PMID r) (DownloadPdfs.URL r)
                (DownloadPdfs.Backup_URL r) Hmk) as (o' & t & Hrun' & Ho').
    rewrite Hrun' in Hrun. injection Hrun as ->.
    destruct Ho' as [-> | ->]; [left|right]; reflexivity.
  - repeat split; vm_compute; reflexivity.
Qed.

Lemma main_outcomes_witness :
  length (DownloadPdfs.main forced_failures manifest25).1 = length manifest25.
Proof.
  apply (proj1 (proj2 main_outcomes) forced_failures manifest25).
  intros r _. reflexivity.
Defined.

(** C4, as stated, fails: when the tasks raise (here [os.makedirs] finds a
    file in the place of the directory), [process_chunk] drops their
    exceptions, and three rows give no outcome at all. *)
Lemma raising_workers_are_dropped :
  length (take 3 manifest25) = 3%nat
  /\ (DownloadPdfs.main no_directory (take 3 manifest25)).1 = []
  /\ (DownloadPdfs.download_pdf no_directory 1
        (DownloadPdfs.CellStr "http://a/1.pdf")
        (DownloadPdfs.CellStr "http://b/1.pdf")).1
     = Raise (OSError "[Errno 17] File exists: 'pdfs'").
Proof. repeat split; vm_compute; reflexivity. Qed.

(** ** The chunked lookup: [gather_urls] *)

Lemma sleeps_app t1 t2 : sleeps (t1 ++ t2) = (sleeps t1 + sleeps t2)%nat.
Proof. unfold sleeps. rewrite filter_app, length_app. reflexivity. Qed.

Section GatherFacts.

Import MetapubDownload.

Variable w : world.
Variable pmids : list Z.

#[local] Abbreviation chunk_at := (Terms.chunk_at pmids).
#[local] Abbreviation gather_loop := (Terms.gather_loop w pmids).

Lemma gather_loop_S m acc :
  gather_loop (S m) acc
  = gather_chunk w pmids (gather_loop m acc) (m * chunk_size).
Proof.
  unfold Terms.gather_loop. rewrite seq_S, map_app, foldl_app. reflexivity.
Qed.

Lemma returned_Some {A : Type} (r : res A) (a : A) :
  DownloadPdfs.returned r = Some a <-> r = Ok a.
Proof. destruct r; simpl; split; congruence. Qed.

Lemma gather_chunk_rows acc k row :
  row ∈ (gather_chunk w pmids acc (k * chunk_size)).1 <->
  row ∈ acc.1
  \/ (chunk_timing w (S k) = InTime
      /\ exists pmid, pmid ∈ chunk_at k /\ get_urls (find w) pmid = Ok row).
Proof.
  unfold gather_chunk.
  replace (k * chunk_size / chunk_size + 1)%nat with (S k)
    by (unfold chunk_size; rewrite Nat.div_mul by lia; lia).
  fold (chunk_at k).
  destruct (chunk_timing w (S k)) as [|finished|e]; cbn [fst].
  - rewrite elem_of_app.
    rewrite (omap_map
               (fun r : Z * res url_row => DownloadPdfs.returned r.2)
               (fun pmid => (pmid, get_urls (find w) pmid))).
    rewrite list_elem_of_omap. cbn [snd].
    setoid_rewrite returned_Some. tauto.
  - split; [auto|]. intros [?|[? _]]; [assumption|discriminate].
  - split; [auto|]. intros [?|[? _]]; [assumption|discriminate].
Qed.

Lemma gather_chunk_trace acc k :
  (forall e, e ∈ acc.2 -> e ∈ (gather_chunk w pmids acc (k * chunk_size)).2)
  /\ EvGather (chunk_at k) ∈ (gather_chunk w pmids acc (k * chunk_size)).2
  /\ (forall finished, chunk_timing w (S k) = TimedOut finished ->
      EvLog ERROR (timed_out_msg (S k))
        ∈ (gather_chunk w pmids acc (k * chunk_size)).2).
Proof.
  unfold gather_chunk.
  replace (k * chunk_size / chunk_size + 1)%nat with (S k)
    by (unfold chunk_size; rewrite Nat.div_mul by lia; lia).
  fold (chunk_at k).
  destruct (chunk_timing w (S k)) as [|finished|e]; cbn [snd];
    (split; [|split]);
    try (intros e' He'; apply elem_of_app; left; exact He');
    try (apply elem_of_app; right; apply elem_of_app; left;
         right; right; left);
    try discriminate.
  intros finished' _. apply elem_of_app. right. apply elem_of_app. right. left.
Qed.

Lemma chunk_at_lookup k pmid :
  pmid ∈ chunk_at k <->
  exists j, (j / chunk_size = k)%nat /\ pmids !! j = Some pmid.
Proof.
  unfold Terms.chunk_at. rewrite elem_of_take. setoid_rewrite lookup_drop.
  unfold chunk_size. split.
  - intros (i & Hi & Hlt). exists (k * 10 + i)%nat. split; [|exact Hi].
    rewrite Nat.add_comm, Nat.div_add by lia.
    rewrite Nat.div_small by lia. reflexivity.
  - intros (j & Hk & Hj). exists (j - k * 10)%nat.
    pose proof (Nat.div_mod_eq j 10) as Hdiv.
    pose proof (Nat.mod_upper_bound j 10) as Hmod.
    replace (k * 10 + (j - k * 10))%nat with j by lia.
    split; [exact Hj|lia].
Qed.

Lemma gather_loop_rows m row :
  row ∈ (gather_loop m ([], [])).1 <->
  exists j pmid,
    (j / chunk_size < m)%nat /\ pmids !! j = Some pmid
    /\ chunk_timing w (S (j / chunk_size)) = InTime
    /\ get_urls (find w) pmid = Ok row.
Proof.
  induction m as [|m IH].
  - simpl. split.
    + intros Hin. apply elem_of_nil in Hin. contradiction.
    + intros (j & pmid & Hlt & _). lia.
  - rewrite gather_loop_S, gather_chunk_rows, IH. split.
    + intros [(j & pmid & Hlt & Hrest)|(Htime & pmid & Hin & Hrow)].
      * exists j, pmid. split; [lia|exact Hrest].
      * apply chunk_at_lookup in Hin as (j & Hk & Hj).
        exists j, pmid. rewrite Hk. split; [lia|auto].
    + intros (j & pmid & Hlt & Hj & Htime & Hrow).
      destruct (decide ((j / chunk_size)%nat = m)) as [Hk|Hk].
      * right. rewrite <- Hk. split; [exact Htime|].
        exists pmid. split; [|exact Hrow].
        apply chunk_at_lookup. eauto.
      * left. exists j, pmid. split; [lia|auto].
Qed.

Lemma gather_loop_rows_start m started row :
  row ∈ (gather_loop m ([], started)).1 <-> row ∈ (gather_loop m ([], [])).1.
Proof.
  induction m as [|m IH]; [reflexivity|].
  rewrite !gather_loop_S, !gather_chunk_rows, IH. reflexivity.
Qed.

Lemma gather_loop_trace m started :
  forall k, (k < m)%nat ->
    EvGather (chunk_at k) ∈ (gather_loop m ([], started)).2
    /\ (forall finished, chunk_timing w (S k) = TimedOut finished ->
        EvLog ERROR (timed_out_msg (S k)) ∈ (gather_loop m ([], started)).2).
Proof.
  induction m as [|m IH]; intros k Hk; [lia|].
  rewrite gather_loop_S.
  destruct (gather_chunk_trace (gather_loop m ([], started)) m)
    as (Hkeep & Hgather & Htimeout).
  destruct (decide (k = m)) as [->|Hne]; [auto|].
  destruct (IH k ltac:(lia)) as [Hg Ht]. split.
  - apply Hkeep, Hg.
  - intros finished Hf. apply Hkeep. eapply Ht. exact Hf.
Qed.

Lemma gather_chunk_sleeps acc k :
  sleeps (gather_chunk w pmids acc (k * chunk_size)).2
  = (sleeps acc.2 + (if chunk_in_time w k then 1 else 0))%nat.
Proof.
  unfold gather_chunk, chunk_in_time.
  replace (k * chunk_size / chunk_size + 1)%nat with (S k)
    by (unfold chunk_size; rewrite Nat.div_mul by lia; lia).
  destruct (chunk_timing w (S k)) as [|finished|e]; cbn [snd];
    rewrite !sleeps_app; [|unfold sleeps; simpl; lia|unfold sleeps; simpl; lia].
  match goal with
  | |- context [sleeps (omap ?f ?l)] =>
      assert (Herr : sleeps (omap f l) = 0%nat)
  end.
  { unfold sleeps.
    match goal with
    | |- length (filter ?P ?l) = 0%nat =>
        assert (Hnone : Forall (fun e => ~ P e) l)
    end.
    { apply Forall_forall. intros e He.
      apply list_elem_of_omap in He as ([pmid r] & _ & Hr). simpl in Hr.
      destruct r; [discriminate|]. injection Hr as <-. discriminate. }
    induction Hnone as [|e l He _ IH]; [reflexivity|].
    rewrite filter_cons_False by exact He. exact IH. }
  rewrite Herr. unfold sleeps. simpl. lia.
Qed.

Lemma gather_loop_sleeps m started :
  sleeps (gather_loop m ([], started)).2
  = (sleeps started + length (List.filter (chunk_in_time w) (seq 0 m)))%nat.
Proof.
  induction m as [|m IH].
  - simpl. lia.
  - rewrite gather_loop_S, gather_chunk_sleeps, IH.
    rewrite seq_S, List.filter_app, length_app. simpl.
    destruct (chunk_in_time w m); simpl; lia.
Qed.

Lemma get_urls_row pmid row :
  get_urls (find w) pmid = Ok row ->
  row !! "PMID" = Some (PyInt pmid) /\ row !! "Status" = None.
Proof.
  unfold get_urls.
  destruct (find w pmid) as [e|e| |a]; try (intros [= <-]; split; reflexivity).
  destruct (pma a); intros [= <-]; split; reflexivity.
Qed.

End GatherFacts.

(** C5, as the code has it. The rows [gather_urls] returns are those of the
    identifiers whose chunk was gathered in time, and no others: when the
    timeout of a chunk expires an error is logged, nothing is added for any
    identifier of that chunk, the pause between chunks is skipped, and the
    loop goes on, for every chunk is dispatched whatever became of the
    chunks before it.  No row has a status entry, and the run sleeps once
    for every chunk gathered in time and for no other chunk. *)
Theorem gather_urls_chunk_timeout (w : MetapubDownload.world) (pmids : list Z) :
  (forall row,
     row ∈ (MetapubDownload.gather_urls w pmids).1 <->
     exists j pmid,
       pmids !! j = Some pmid
       /\ MetapubDownload.chunk_timing w (S (j / 10)) = MetapubDownload.InTime
       /\ MetapubDownload.get_urls (MetapubDownload.find w) pmid = Ok row)
  /\ (forall row,
        row ∈ (MetapubDownload.gather_urls w pmids).1 -> row !! "Status" = None)
  /\ (forall j pmid finished,
        pmids !! j = Some pmid ->
        MetapubDownload.chunk_timing w (S (j / 10))
        = MetapubDownload.TimedOut finished ->
        EvLog ERROR (timed_out_msg (S (j / 10)))
          ∈ (MetapubDownload.gather_urls w pmids).2)
  /\ (forall j pmid,
        pmids !! j = Some pmid ->
        EvGather (chunk_at pmids (j / 10))
          ∈ (MetapubDownload.gather_urls w pmids).2)
  /\ sleeps (MetapubDownload.gather_urls w pmids).2
     = length (List.filter (chunk_in_time w)
                 (seq 0 ((length pmids + 9) / 10))).
Proof.
  assert (Hchunks : forall j pmid, pmids !! j = Some pmid ->
            (j / 10 < (length pmids + 10 - 1) / 10)%nat).
  { intros j pmid Hj. apply lookup_lt_Some in Hj.
    pose proof (Nat.div_mod_eq j 10).
    pose proof (Nat.mod_upper_bound j 10).
    pose proof (Nat.div_mod_eq (length pmids + 10 - 1) 10).
    pose proof (Nat.mod_upper_bound (length pmids + 10 - 1) 10).
    lia. }
  assert (Hrows : forall row,
     row ∈ (MetapubDownload.gather_urls w pmids).1 <->
     exists j pmid,
       pmids !! j = Some pmid
       /\ MetapubDownload.chunk_timing w (S (j / 10)) = MetapubDownload.InTime
       /\ MetapubDownload.get_urls (MetapubDownload.find w) pmid = Ok row).
  { intros row. unfold MetapubDownload.gather_urls, DownloadPdfs.range_step.
    cbn [fst]. fold (gather_loop w pmids).
    change (foldl (MetapubDownload.gather_chunk w pmids) ?acc
              (map ?f (seq 0 ?m))) with (gather_loop w pmids m acc).
    rewrite gather_loop_rows_start, gather_loop_rows.
    unfold MetapubDownload.chunk_size. split.
    - intros (j & pmid & _ & Hrest). eauto.
    - intros (j & pmid & Hj & Hrest). exists j, pmid.
      split; [eapply Hchunks; exact Hj|auto]. }
  split; [exact Hrows|]. split; [|split; [|split]].
  - intros row Hin. apply Hrows in Hin as (j & pmid & _ & _ & Hrow).
    apply (get_urls_row w pmid row Hrow).
  - intros j pmid finished Hj Htime.
    unfold MetapubDownload.gather_urls, DownloadPdfs.range_step. cbn [snd].
    apply elem_of_app. left.
    change (foldl (MetapubDownload.gather_chunk w pmids) ?acc
              (map ?f (seq 0 ?m))) with (gather_loop w pmids m acc).
    eapply gather_loop_trace; [eapply Hchunks; exact Hj|exact Htime].
  - intros j pmid Hj.
    unfold MetapubDownload.gather_urls, DownloadPdfs.range_step. cbn [snd].
    apply elem_of_app. left.
    change (foldl (MetapubDownload.gather_chunk w pmids) ?acc
              (map ?f (seq 0 ?m))) with (gather_loop w pmids m acc).
    eapply gather_loop_trace. eapply Hchunks. exact Hj.
  - unfold MetapubDownload.gather_urls, DownloadPdfs.range_step. cbn [snd].
    change (foldl (MetapubDownload.gather_chunk w pmids) ?acc
              (map ?f (seq 0 ?m))) with (gather_loop w pmids m acc).
    rewrite sleeps_app, gather_loop_sleeps.
    unfold MetapubDownload.chunk_size.
    replace (length pmids + 10 - 1)%nat with (length pmids + 9)%nat by lia.
    unfold sleeps. simpl. lia.
Qed.

Lemma gather_urls_chunk_timeout_witness :
  EvLog ERROR "Entire chunk 1 timed out, moving to next chunk"
    ∈ (MetapubDownload.gather_urls first_chunk_times_out (seqZ 1 12)).2
  /\ EvGather [11; 12]
    ∈ (MetapubDownload.gather_urls first_chunk_times_out (seqZ 1 12)).2
  /\ sleeps (MetapubDownload.gather_urls first_chunk_times_out (seqZ 1 12)).2
     = 1%nat.
Proof.
  destruct (gather_urls_chunk_timeout first_chunk_times_out (seqZ 1 12))
    as (_ & _ & Htimeout & Hgather & Hsleeps).
  split; [|split].
  - apply (Htimeout 3%nat 4 [1; 2; 3]); reflexivity.
  - apply (Hgather 10%nat 11). reflexivity.
  - rewrite Hsleeps. reflexivity.
Defined.

(** C5, as stated, fails: after the timeout of the first chunk the results
    hold the rows of the second chunk only.  The row the task of identifier 1
    had returned is gone, the pending identifier 4 has no row, and no value of
    any row is ["timed_out"]. *)
Lemma timed_out_chunk_is_discarded :
  MetapubDownload.chunk_timing first_chunk_times_out 1
  = MetapubDownload.TimedOut [1; 2; 3]
  /\ MetapubDownload.get_urls (MetapubDownload.find first_chunk_times_out) 1
     = Ok (MetapubDownload.empty_row 1 "Timeout or error in FindIt")
  /\ (fun row : MetapubDownload.url_row => row !! "PMID")
       <$> (MetapubDownload.gather_urls first_chunk_times_out (seqZ 1 12)).1
     = [Some (PyInt 11); Some (PyInt 12)]
  /\ Forall (fun row : MetapubDownload.url_row =>
               Forall (fun kv => kv.2 <> PyStr "timed_out") (map_to_list row))
       (MetapubDownload.gather_urls first_chunk_times_out (seqZ 1 12)).1.
Proof.
  split; [reflexivity|]. split; [reflexivity|].
  split; [vm_compute; reflexivity|].
  vm_compute. repeat constructor; discriminate.
Qed.

(** ** The rate limiter of [find_with_timeout] *)

Section LimiterFacts.

Import MetapubDownload.

Lemma spaced_snoc d ts t :
  spaced d ts ->
  (forall p, last ts = Some p -> (p + d <= t)%Q) ->
  spaced d (ts ++ [t]).
Proof.
  induction ts as [|t1 [|t2 ts] IH]; intros Hsp Hlast; simpl.
  - exact I.
  - split; [|exact I]. apply Hlast. reflexivity.
  - destruct Hsp as [H12 Hsp]. split; [exact H12|].
    apply IH; [exact Hsp|]. intros p Hp. apply Hlast. exact Hp.
Qed.

Lemma limiter_inv_boot t0 : limiter_inv (boot 1 t0).
Proof.
  split; simpl.
  - exists Idle. split; [reflexivity|exact I].
  - exact I.
  - discriminate.
Qed.

Lemma limiter_inv_step a m m' :
  limiter_inv m -> exec_action a m = Some m' -> limiter_inv m'.
Proof.
  intros [(p & Hthreads & Hpc) Hsp Hlast] Hstep.
  destruct a as [d|tid]; simpl in Hstep.
  - destruct (Qlt_le_dec d 0) as [|Hd]; [discriminate|].
    injection Hstep as <-. split; simpl; [|assumption|assumption].
    exists p. split; [exact Hthreads|].
    destruct p; simpl in *; try exact I; lra.
  - unfold find_with_timeout_step, set_thread in Hstep. rewrite !Hthreads in Hstep.
    destruct tid as [|tid]; [|discriminate]. simpl in Hstep.
    destruct p as [|current_time|until|]; simpl in Hpc.
    + injection Hstep as <-. split; simpl; [|assumption|assumption].
      exists (Timed (now m)). split; [reflexivity|].
      simpl. lra.
    + destruct (Qlt_le_dec (current_time - last_request_time m) DELAY)
        as [Hlt|Hge]; injection Hstep as <-;
        (split; simpl; [|assumption|assumption]).
      * eexists. split; [reflexivity|]. simpl. lra.
      * eexists. split; [reflexivity|]. simpl. lra.
    + destruct (Qlt_le_dec (now m) until) as [|Hwake]; [discriminate|].
      injection Hstep as <-. split; simpl; [|assumption|assumption].
      eexists. split; [reflexivity|]. simpl. lra.
    + injection Hstep as <-. split; simpl.
      * exists Idle. split; [reflexivity|exact I].
      * apply spaced_snoc; [exact Hsp|].
        intros q Hq. rewrite (Hlast q Hq). exact Hpc.
      * intros q Hq. rewrite last_snoc in Hq. congruence.
Qed.

(** With one caller at a time the limiter does its work: however the clock
    advances, the permits of a run are at least [DELAY] apart. *)
Lemma sequential_permits_spaced schedule : forall m m',
  limiter_inv m -> exec schedule m = Some m' -> limiter_inv m'.
Proof.
  induction schedule as [|a schedule IH]; intros m m' Hinv Hrun; simpl in Hrun.
  - injection Hrun as <-. exact Hinv.
  - destruct (exec_action a m) as [m1|] eqn:Hstep; [|discriminate].
    eapply IH; [|exact Hrun]. eapply limiter_inv_step; eauto.
Qed.

End LimiterFacts.

(** X24. With a single caller the limiter of [find_with_timeout] keeps its
    rate: however the clock advances between the steps of the calls, any
    two permits of a run are at least [DELAY] apart. *)
Corollary one_caller_permits_spaced schedule t0 m :
  MetapubDownload.exec schedule (MetapubDownload.boot 1 t0) = Some m ->
  MetapubDownload.spaced MetapubDownload.DELAY (MetapubDownload.permits m).
Proof.
  intros Hrun.
  apply (sequential_permits_spaced schedule _ m (limiter_inv_boot t0) Hrun).
Qed.

(** C8 on the code. Two threads of the executor enter [find_with_timeout]
    one millisecond apart: both read [_last_request_time] before either
    writes it, neither sleeps, and the two permits are granted one
    millisecond apart, less than [DELAY]. *)
Theorem concurrent_callers_race :
  exists t1 t2,
    MetapubDownload.permits
      <$> MetapubDownload.exec two_callers (MetapubDownload.boot 2 1000)
    = Some [t1; t2]
    /\ (t1 == 1000 + (4 # 1000))%Q
    /\ (t2 == 1000 + (5 # 1000))%Q
    /\ (t2 - t1 < MetapubDownload.DELAY)%Q
    /\ ~ MetapubDownload.spaced MetapubDownload.DELAY [t1; t2].
Proof.
  eexists _, _. split; [vm_compute; reflexivity|].
  split; [reflexivity|]. split; [reflexivity|].
  split; [reflexivity|].
  intros [Hgap _]. revert Hgap. apply Qlt_not_le. reflexivity.
Qed.

(** * The rest of the code *)

(** ** [str.split] and [str.join] as the scripts use them *)

Lemma split_on_nonempty c s : split_on c s <> [].
Proof.
  destruct s as [|c' s]; simpl; [discriminate|].
  destruct (Ascii.eqb c' c); [discriminate|].
  destruct (split_on c s); discriminate.
Qed.

Lemma join_split_on c s : join (String c "") (split_on c s) = s.
Proof.
  induction s as [|c' s IH]; simpl; [reflexivity|].
  destruct (Ascii.eqb_spec c' c) as [->|Hne].
  - pose proof (split_on_nonempty c s) as Hnil.
    destruct (split_on c s) as [|w ws]; [contradiction|].
    simpl in *. rewrite IH. reflexivity.
  - pose proof (split_on_nonempty c s) as Hnil.
    destruct (split_on c s) as [|w ws]; [contradiction|].
    destruct ws as [|w' ws]; simpl in *; rewrite <- IH; reflexivity.
Qed.

Lemma split_on_length c s :
  length (split_on c s) = S (count_char c s).
Proof.
  induction s as [|c' s IH]; simpl; [reflexivity|].
  destruct (Ascii.eqb c' c); simpl.
  - rewrite IH. reflexivity.
  - pose proof (split_on_nonempty c s) as Hnil.
    destruct (split_on c s) as [|w ws]; [contradiction|].
    simpl in *. exact IH.
Qed.

Lemma split_on_without c s : has_char c s = false -> split_on c s = [s].
Proof.
  induction s as [|c' s IH]; simpl; [reflexivity|].
  intros Hno. apply orb_false_iff in Hno as [Hc Hs].
  rewrite Hc, (IH Hs). reflexivity.
Qed.

Lemma split_on_app c a b :
  has_char c a = false ->
  split_on c (a +:+ String c b) = a :: split_on c b.
Proof.
  induction a as [|c' a IH]; simpl; intros Hno.
  - rewrite Ascii.eqb_refl. reflexivity.
  - apply orb_false_iff in Hno as [Hc Ha].
    rewrite Hc. change (String.append a (String c b)) with (a +:+ String c b).
    rewrite (IH Ha). reflexivity.
Qed.

Lemma string_length_app (a b : string) :
  String.length (a +:+ b) = (String.length a + String.length b)%nat.
Proof. induction a as [|c a IH]; simpl; [reflexivity|]. rewrite <- IH. reflexivity. Qed.

Lemma join_length_split sep c s :
  String.length (join sep (split_on c s))
  = (String.length s - count_char c s + count_char c s * String.length sep)%nat.
Proof.
  induction s as [|c' s IH]; simpl; [reflexivity|].
  pose proof (split_on_nonempty c s) as Hnil.
  assert (Hle : (count_char c s <= String.length s)%nat).
  { clear. induction s as [|c'' s IH]; simpl; [lia|].
    destruct (Ascii.eqb c'' c); lia. }
  destruct (Ascii.eqb c' c); simpl.
  - destruct (split_on c s) as [|w ws]; [contradiction|].
    change (String.length (sep +:+ join sep (w :: ws))
            = (S (String.length s) - S (count_char c s)
               + (String.length sep + count_char c s * String.length sep))%nat).
    rewrite string_length_app, IH. lia.
  - destruct (split_on c s) as [|w ws]; [contradiction|].
    destruct ws as [|w' ws]; simpl in *.
    + rewrite IH. lia.
    + rewrite IH. lia.
Qed.


(** ** aws_download.py: [download_file], [parallel_download], the script *)

Lemma count_char_none c s : count_char c s = 0%nat <-> has_char c s = false.
Proof.
  induction s as [|c' s IH]; simpl; [tauto|].
  destruct (Ascii.eqb c' c); simpl.
  - split; [lia|discriminate].
  - exact IH.
Qed.

(** X1. [download_file] answers [True] exactly when the directory can be made
    and the download of the key as listed succeeds: a file fetched through
    the fallback key is reported as a failure.  Whenever the answer is
    [False], the key with doubled slashes has been requested as well. *)
Theorem download_file_answer (w : AwsDownload.world) (fi : AwsDownload.file_info)
  (bucket dir : string) :
  ((AwsDownload.download_file w fi bucket dir).1 = true <->
   AwsDownload.mkdir_parents w (dir +:+ "/" +:+ AwsDownload.local_name fi) = None
   /\ AwsDownload.s3_download w bucket (AwsDownload.s3_key fi)
        (dir +:+ "/" +:+ AwsDownload.local_name fi) = None)
  /\ ((AwsDownload.download_file w fi bucket dir).1 = false ->
      EvS3Download bucket (join "//" (split_on "/" (AwsDownload.s3_key fi)))
        (dir +:+ "/" +:+ AwsDownload.local_name fi)
        ∈ (AwsDownload.download_file w fi bucket dir).2).
Proof.
  unfold AwsDownload.download_file.
  destruct (AwsDownload.mkdir_parents w _) as [e|]; simpl.
  - destruct (AwsDownload.s3_download w bucket (join _ _) _); simpl;
      (split; [split; [discriminate|intros [? _]; discriminate]|]);
      intros _; right; left.
  - destruct (AwsDownload.s3_download w bucket (AwsDownload.s3_key fi) _)
      as [e|] eqn:Hfirst; simpl.
    + destruct (AwsDownload.s3_download w bucket (join _ _) _); simpl;
        (split; [split; [discriminate|intros [_ ?]; discriminate]|]);
        intros _; right; right; left.
    + split; [tauto|discriminate].
Qed.

Lemma download_file_answer_witness :
  EvS3Download "bucket" "pdfs//42.pdf" "out/other/42.pdf"
    ∈ (AwsDownload.download_file
         (AwsDownload.World (fun _ => None)
            (fun _ key _ => if decide (key = "pdfs//42.pdf") then None
                            else Some "Not Found"))
         (AwsDownload.FileInfo "pdfs/42.pdf" "other/42.pdf" "42")
         "bucket" "out").2.
Proof.
  apply (proj2 (download_file_answer
                  (AwsDownload.World (fun _ => None)
                     (fun _ key _ => if decide (key = "pdfs//42.pdf") then None
                                     else Some "Not Found"))
                  (AwsDownload.FileInfo "pdfs/42.pdf" "other/42.pdf" "42")
                  "bucket" "out")).
  reflexivity.
Defined.

(** X2. The fallback key of [download_file] is the key itself exactly when
    the key has no slash, in which case the fallback repeats the request
    that has just failed; in general it is longer than the key by the number
    of slashes. *)
Theorem download_file_fallback_key (w : AwsDownload.world)
  (fi : AwsDownload.file_info) (bucket dir : string) :
  (join "//" (split_on "/" (AwsDownload.s3_key fi)) = AwsDownload.s3_key fi
   <-> has_char "/" (AwsDownload.s3_key fi) = false)
  /\ String.length (join "//" (split_on "/" (AwsDownload.s3_key fi)))
     = (String.length (AwsDownload.s3_key fi)
        + count_char "/" (AwsDownload.s3_key fi))%nat
  /\ (forall e,
        has_char "/" (AwsDownload.s3_key fi) = false ->
        AwsDownload.mkdir_parents w (dir +:+ "/" +:+ AwsDownload.local_name fi)
        = None ->
        AwsDownload.s3_download w bucket (AwsDownload.s3_key fi)
          (dir +:+ "/" +:+ AwsDownload.local_name fi) = Some e ->
        AwsDownload.download_file w fi bucket dir
        = (false,
           [EvMkdirParents (dir +:+ "/" +:+ AwsDownload.local_name fi);
            EvS3Download bucket (AwsDownload.s3_key fi)
              (dir +:+ "/" +:+ AwsDownload.local_name fi);
            EvS3Download bucket (AwsDownload.s3_key fi)
              (dir +:+ "/" +:+ AwsDownload.local_name fi);
            EvLog ERROR (AwsDownload.failed_msg fi e)])).
Proof.
  assert (Hlen : String.length (join "//" (split_on "/" (AwsDownload.s3_key fi)))
     = (String.length (AwsDownload.s3_key fi)
        + count_char "/" (AwsDownload.s3_key fi))%nat).
  { rewrite join_length_split. simpl String.length.
    assert (count_char "/" (AwsDownload.s3_key fi)
            <= String.length (AwsDownload.s3_key fi))%nat.
    { generalize (AwsDownload.s3_key fi). intros s.
      induction s as [|c s IH]; simpl; [lia|].
      destruct (Ascii.eqb c "/"); lia. }
    lia. }
  split; [|split; [exact Hlen|]].
  - split.
    + intros Heq. rewrite Heq in Hlen. apply count_char_none. lia.
    + intros Hno. rewrite (split_on_without _ _ Hno). reflexivity.
  - intros e Hno Hdir Hfirst. unfold AwsDownload.download_file.
    rewrite Hdir, Hfirst. simpl.
    rewrite (split_on_without _ _ Hno). simpl. rewrite Hfirst. reflexivity.
Qed.

Lemma download_file_fallback_key_witness :
  AwsDownload.download_file
    (AwsDownload.World (fun _ => None) (fun _ _ _ => Some "Not Found"))
    (AwsDownload.FileInfo "42.pdf" "other/42.pdf" "42") "bucket" "out"
  = (false,
     [EvMkdirParents "out/other/42.pdf";
      EvS3Download "bucket" "42.pdf" "out/other/42.pdf";
      EvS3Download "bucket" "42.pdf" "out/other/42.pdf";
      EvLog ERROR "Failed to download PMID 42 (42.pdf): Not Found"]).
Proof.
  apply (proj2 (proj2 (download_file_fallback_key
                  (AwsDownload.World (fun _ => None) (fun _ _ _ => Some "Not Found"))
                  (AwsDownload.FileInfo "42.pdf" "other/42.pdf" "42")
                  "bucket" "out")) "Not Found"); reflexivity.
Defined.

Lemma count_result_tally w bucket dir (l : list AwsDownload.file_info) :
  forall counts,
    foldl (AwsDownloadRun.count_result w bucket dir) counts l
    = ((counts.1 + length (filter (fun fi =>
                       (AwsDownload.download_file w fi bucket dir).1 = true) l))%nat,
       (counts.2 + length (filter (fun fi =>
                       (AwsDownload.download_file w fi bucket dir).1 = false) l))%nat).
Proof.
  induction l as [|fi l IH]; intros [s f]; simpl.
  - rewrite !Nat.add_0_r. reflexivity.
  - rewrite IH, !filter_cons. unfold AwsDownloadRun.count_result.
    destruct (AwsDownload.download_file w fi bucket dir).1; simpl;
      f_equal; lia.
Qed.

Lemma filter_split_length {A : Type} (f : A -> bool) (l : list A) :
  (length (filter (fun x => f x = true) l)
   + length (filter (fun x => f x = false) l) = length l)%nat.
Proof.
  induction l as [|x l IH]; simpl; [reflexivity|].
  rewrite !filter_cons. destruct (f x); simpl; lia.
Qed.

Lemma parallel_download_counts
  (as_completed : list AwsDownload.file_info -> list AwsDownload.file_info)
  (make_dir : string -> option string) (w : AwsDownload.world)
  (manifest : list AwsDownload.file_info) (bucket dir : string) :
  as_completed manifest ≡ₚ manifest ->
  make_dir dir = None ->
  exists successes failures,
    AwsDownloadRun.parallel_download as_completed make_dir w manifest bucket dir
    = Ok (successes, failures,
          (INFO, AwsDownloadRun.complete_msg successes failures))
    /\ (successes + failures = length manifest)%nat
    /\ successes
       = length (filter (fun fi =>
                   (AwsDownload.download_file w fi bucket dir).1 = true) manifest).
Proof.
  intros Hperm Hdir. unfold AwsDownloadRun.parallel_download. rewrite Hdir.
  rewrite count_result_tally. simpl. eexists _, _. split; [reflexivity|].
  rewrite !Hperm. split; [apply filter_split_length|reflexivity].
Qed.

(** X3. Whatever the order in which the downloads complete,
    [parallel_download] ends with tallies that add up to the number of files
    of the manifest; the successes are the files for which [download_file]
    answered [True], and the closing log record carries both tallies. *)
Theorem parallel_download_tallies
  (as_completed : list AwsDownload.file_info -> list AwsDownload.file_info)
  (make_dir : string -> option string) (w : AwsDownload.world)
  (manifest : list AwsDownload.file_info) (bucket dir : string) :
  as_completed manifest ≡ₚ manifest ->
  make_dir dir = None ->
  exists successes failures,
    AwsDownloadRun.parallel_download as_completed make_dir w manifest bucket dir
    = Ok (successes, failures,
          (INFO, AwsDownloadRun.complete_msg successes failures))
    /\ (successes + failures = length manifest)%nat
    /\ successes
       = length (filter (fun fi =>
                   (AwsDownload.download_file w fi bucket dir).1 = true) manifest).
Proof. apply parallel_download_counts. Qed.

Lemma parallel_download_tallies_witness :
  exists successes failures,
    AwsDownloadRun.parallel_download (@reverse _) (fun _ => None)
      (AwsDownload.World (fun _ => None)
         (fun _ key _ => if decide (key = "pdfs/42.pdf") then None
                         else Some "Not Found"))
      [AwsDownload.FileInfo "pdfs/42.pdf" "other/42.pdf" "42";
       AwsDownload.FileInfo "pdfs/7.pdf" "other/7.pdf" "7"] "bucket" "out"
    = Ok (successes, failures,
          (INFO, AwsDownloadRun.complete_msg successes failures))
    /\ (successes + failures = 2)%nat.
Proof.
  destruct (parallel_download_tallies (@reverse _) (fun _ => None)
              (AwsDownload.World (fun _ => None)
                 (fun _ key _ => if decide (key = "pdfs/42.pdf") then None
                                 else Some "Not Found"))
              [AwsDownload.FileInfo "pdfs/42.pdf" "other/42.pdf" "42";
               AwsDownload.FileInfo "pdfs/7.pdf" "other/7.pdf" "7"]
              "bucket" "out")
    as (s & f & Hrun & Hsum & _).
  - apply reverse_Permutation.
  - reflexivity.
  - exists s, f. split; [exact Hrun|exact Hsum].
Defined.


Section ScriptFacts.

Variable str_strip : string -> string.
Variable urlparse : string -> option (string * string).

#[local] Abbreviation read_line := (AwsDownload.read_line str_strip urlparse).
#[local] Abbreviation read_lines :=
  (foldl (fun acc line => AwsDownload.read_line str_strip urlparse line acc)).

Lemma lstrip_head c s rest : lstrip c s <> String c rest.
Proof.
  induction s as [|c' s IH]; simpl; [discriminate|].
  destruct (Ascii.eqb_spec c' c) as [->|Hne]; [exact IH|].
  intros [= Hc _]. contradiction.
Qed.

Lemma read_line_entries line acc fi :
  fi ∈ (read_line line acc).1 ->
  fi ∈ acc.1
  \/ exists uri netloc path,
       split_on "," (str_strip line) = [AwsDownload.pmid fi; uri]
       /\ urlparse uri = Some (netloc, path)
       /\ fi = AwsDownload.FileInfo (lstrip "/" path)
                 (sharded_path (AwsDownload.pmid fi)) (AwsDownload.pmid fi).
Proof.
  unfold AwsDownload.read_line.
  destruct (decide (str_strip line = "")); [auto|].
  destruct (split_on "," (str_strip line)) as [|p [|uri [|extra parts]]];
    simpl; auto.
  unfold AwsDownload.parse_s3_uri.
  destruct (urlparse uri) as [[netloc path]|] eqn:Hurl; simpl; [|auto].
  intros Hin. apply elem_of_app in Hin as [Hin|Hin]; [auto|].
  apply list_elem_of_singleton in Hin. subst fi. right.
  exists uri, netloc, path. auto.
Qed.

Lemma read_lines_entries lines : forall acc fi,
  fi ∈ (read_lines acc lines).1 ->
  fi ∈ acc.1
  \/ exists j line uri netloc path,
       lines !! j = Some line
       /\ split_on "," (str_strip line) = [AwsDownload.pmid fi; uri]
       /\ urlparse uri = Some (netloc, path)
       /\ fi = AwsDownload.FileInfo (lstrip "/" path)
                 (sharded_path (AwsDownload.pmid fi)) (AwsDownload.pmid fi).
Proof.
  induction lines as [|line lines IH]; intros acc fi Hin; simpl in Hin.
  - auto.
  - apply IH in Hin as [Hin|(j & l & uri & netloc & path & Hj & Hrest)].
    + apply read_line_entries in Hin as [Hin|(uri & netloc & path & Hrest)];
        [auto|].
      right. exists 0%nat, line, uri, netloc, path. auto.
    + right. exists (S j), l, uri, netloc, path. auto.
Qed.

(** X4. Every entry of the manifest of [read_pmid_locations] comes from a
    line of the file that is an identifier, a comma and a URI that parses;
    its local name is derived from its identifier alone, and its key never
    begins with a slash. *)
Theorem read_pmid_locations_entries lines fi :
  fi ∈ (AwsDownload.read_pmid_locations str_strip urlparse lines).1 ->
  (exists j line uri netloc path,
     lines !! j = Some line
     /\ split_on "," (str_strip line) = [AwsDownload.pmid fi; uri]
     /\ urlparse uri = Some (netloc, path)
     /\ AwsDownload.s3_key fi = lstrip "/" path)
  /\ AwsDownload.local_name fi = sharded_path (AwsDownload.pmid fi)
  /\ (forall rest, AwsDownload.s3_key fi <> String "/" rest).
Proof.
  intros Hin. unfold AwsDownload.read_pmid_locations in Hin.
  apply read_lines_entries in Hin as [Hin|(j & l & uri & netloc & path & Hj & Hs & Hu & Hfi)].
  - apply elem_of_nil in Hin. contradiction.
  - assert (Hkey : AwsDownload.s3_key fi = lstrip "/" path)
      by (rewrite Hfi; reflexivity).
    assert (Hname : AwsDownload.local_name fi
                    = sharded_path (AwsDownload.pmid fi))
      by (rewrite Hfi; reflexivity).
    split; [|split].
    + exists j, l, uri, netloc, path. auto.
    + exact Hname.
    + intros rest. rewrite Hkey. apply lstrip_head.
Qed.

Variable as_completed : list AwsDownload.file_info -> list AwsDownload.file_info.
Variable make_dir : string -> option string.

(** X5. The script body of aws_download.py reads the first line of the file
    again, outside any handler.  On an empty file it stops with
    [StopIteration].  When the first line is not an identifier, a comma and
    a URI that parses, it raises [ValueError], whatever the other lines
    are, although [read_pmid_locations] has skipped that line: silently
    when the line is blank, with a warning otherwise.  When the first line
    is an identifier, a comma and a URI that parses, the futures complete
    in some order of the submitted files and the download directory can be
    made, at most the first hundred entries of the manifest are downloaded,
    and the tallies add up to that number. *)
Theorem script_outcome (w : AwsDownload.world) (cpu_count : Z)
  (first : string) (others : list string) :
  AwsDownloadRun.script str_strip urlparse as_completed make_dir w cpu_count []
  = AwsDownloadRun.StopIteration
  /\ ((forall p uri, split_on "," (str_strip first) = [p; uri] ->
                     urlparse uri = None) ->
      (exists msg,
         AwsDownloadRun.script str_strip urlparse as_completed make_dir w
           cpu_count (first :: others)
         = AwsDownloadRun.Uncaught (ValueError msg))
      /\ (str_strip first = "" ->
          AwsDownload.read_pmid_locations str_strip urlparse (first :: others)
          = AwsDownload.read_pmid_locations str_strip urlparse others)
      /\ (str_strip first <> "" ->
          (WARNING, AwsDownload.malformed_msg (str_strip first))
            ∈ (AwsDownload.read_pmid_locations str_strip urlparse
                 (first :: others)).2))
  /\ (forall p uri netloc path,
        (forall l, as_completed l ≡ₚ l) ->
        make_dir "downloaded_pdfs" = None ->
        split_on "," (str_strip first) = [p; uri] ->
        urlparse uri = Some (netloc, path) ->
        exists successes failures log,
          AwsDownloadRun.script str_strip urlparse as_completed make_dir w
            cpu_count (first :: others)
          = AwsDownloadRun.Done (successes, failures) log
          /\ (successes + failures
              = 100 `min` length (AwsDownload.read_pmid_locations str_strip
                                    urlparse (first :: others)).1)%nat).
Proof.
  split; [reflexivity|]. split.
  - intros Hbad. split; [|split].
    + unfold AwsDownloadRun.script.
      destruct (split_on "," (str_strip first)) as [|a [|b [|c parts]]] eqn:Hs;
        try (eexists; reflexivity).
      unfold AwsDownload.parse_s3_uri. rewrite (Hbad a b eq_refl).
      eexists; reflexivity.
    + intros Hblank. unfold AwsDownload.read_pmid_locations.
      cbn [foldl]. unfold AwsDownload.read_line at 2.
      rewrite decide_True by exact Hblank. reflexivity.
    + intros Hne.
      apply (read_pmid_locations_skips_malformed str_strip urlparse
               (first :: others) 0%nat first eq_refl Hne Hbad).
  - intros p uri netloc path Hperm Hdir Hsplit Hurl.
    unfold AwsDownloadRun.script. rewrite Hsplit.
    unfold AwsDownload.parse_s3_uri. rewrite Hurl.
    destruct (parallel_download_counts as_completed make_dir w
                (take 100 (AwsDownload.read_pmid_locations str_strip urlparse
                             (first :: others)).1)
                netloc "downloaded_pdfs" (Hperm _) Hdir)
      as (s & f & Hrun & Hsum & _).
    rewrite Hrun. eexists s, f, _. split; [reflexivity|].
    rewrite Hsum, length_take. reflexivity.
Qed.

End ScriptFacts.

Lemma read_pmid_locations_entries_witness :
  AwsDownload.local_name (AwsDownload.FileInfo "pdfs/42.pdf" "other/42.pdf" "42")
  = "other/42.pdf".
Proof.
  apply (read_pmid_locations_entries Sample.str_strip Sample.urlparse
           ["42,s3://bucket/pdfs/42.pdf"]
           (AwsDownload.FileInfo "pdfs/42.pdf" "other/42.pdf" "42")).
  vm_compute. left.
Defined.

Lemma script_outcome_witness :
  (exists msg,
     AwsDownloadRun.script Sample.str_strip Sample.urlparse (@reverse _)
       (fun _ => None)
       (AwsDownload.World (fun _ => None) (fun _ _ _ => None)) 4
       ["PMID list"; "42,s3://bucket/pdfs/42.pdf"]
     = AwsDownloadRun.Uncaught (ValueError msg))
  /\ (WARNING, "Skipping malformed line: PMID list")
       ∈ (AwsDownload.read_pmid_locations Sample.str_strip Sample.urlparse
            ["PMID list"; "42,s3://bucket/pdfs/42.pdf"]).2
  /\ exists successes failures log,
       AwsDownloadRun.script Sample.str_strip Sample.urlparse (@reverse _)
         (fun _ => None)
         (AwsDownload.World (fun _ => None) (fun _ _ _ => None)) 4
         ["42,s3://bucket/pdfs/42.pdf"; "  "]
       = AwsDownloadRun.Done (successes, failures) log
       /\ (successes + failures = 1)%nat.
Proof.
  assert (Hbad : forall p uri,
            split_on "," (Sample.str_strip "PMID list") = [p; uri] ->
            Sample.urlparse uri = None) by (intros p uri Hs; discriminate).
  destruct (proj1 (proj2 (script_outcome Sample.str_strip Sample.urlparse
                            (@reverse _) (fun _ => None)
                            (AwsDownload.World (fun _ => None)
                               (fun _ _ _ => None))
                            4 "PMID list" ["42,s3://bucket/pdfs/42.pdf"]))
              Hbad) as (Hraise & _ & Hwarn).
  split; [exact Hraise|]. split.
  - apply Hwarn. discriminate.
  - destruct (proj2 (proj2 (script_outcome Sample.str_strip Sample.urlparse
                              (@reverse _) (fun _ => None)
                              (AwsDownload.World (fun _ => None)
                                 (fun _ _ _ => None))
                              4 "42,s3://bucket/pdfs/42.pdf" ["  "]))
                "42" "s3://bucket/pdfs/42.pdf" "bucket" "/pdfs/42.pdf")
      as (successes & failures & log & Hrun & Hsum).
    + intros l. apply reverse_Permutation.
    + reflexivity.
    + reflexivity.
    + reflexivity.
    + exists successes, failures, log. split; [exact Hrun|exact Hsum].
Defined.


(** ** download_pdfs.py: chunking, pacing, the requests of a worker *)

(** X6. For every positive chunk size the chunks of [main] are the manifest
    cut in order: their concatenation is the manifest, there are
    [ceil(len / size)] of them, none is empty, none is longer than the size,
    and all but the last have exactly that size. *)
Theorem chunks_of_partition {A : Type} (n : nat) (df : list A) :
  (0 < n)%nat ->
  concat (DownloadPdfs.chunks_of n df) = df
  /\ length (DownloadPdfs.chunks_of n df) = ((length df + n - 1) / n)%nat
  /\ (forall k c,
        DownloadPdfs.chunks_of n df !! k = Some c ->
        c = take n (drop (k * n) df)
        /\ (0 < length c <= n)%nat
        /\ ((S k < length (DownloadPdfs.chunks_of n df))%nat -> length c = n)).
Proof.
  intros Hn.
  pose proof (Nat.div_mod_eq (length df + n - 1) n) as Hdiv.
  pose proof (Nat.mod_upper_bound (length df + n - 1) n ltac:(lia)) as Hmod.
  set (q := ((length df + n - 1) / n)%nat) in *.
  set (r := ((length df + n - 1) mod n)%nat) in *.
  assert (Hlen : length (DownloadPdfs.chunks_of n df) = q).
  { unfold DownloadPdfs.chunks_of, DownloadPdfs.range_step.
    rewrite !length_map, length_seq. reflexivity. }
  split; [|split; [exact Hlen|]].
  - unfold DownloadPdfs.chunks_of, DownloadPdfs.range_step.
    fold q. rewrite chunks_prefix. simpl drop. apply take_ge. nia.
  - intros k c Hk. rewrite Hlen.
    unfold DownloadPdfs.chunks_of, DownloadPdfs.range_step in Hk. fold q in Hk.
    rewrite !list_lookup_fmap in Hk.
    destruct (seq 0 q !! k) as [k'|] eqn:Hseq; [|discriminate].
    apply lookup_seq in Hseq as [-> Hkq]. simpl in Hk. injection Hk as <-.
    split; [reflexivity|].
    rewrite length_take, length_drop. split; [nia|]. intros Hlast. nia.
Qed.

Lemma chunks_of_partition_witness :
  concat (DownloadPdfs.chunks_of 10 (seqZ 1 25)) = seqZ 1 25.
Proof. apply (chunks_of_partition 10 (seqZ 1 25)). lia. Defined.

Section PacingFacts.

Import DownloadPdfs.

Variable w : world.

Lemma attempt_no_sleep pmid sl url path :
  Forall (fun e => e <> EvSleep 1) (attempt w pmid sl url path).2.
Proof.
  unfold attempt. repeat case_match; simpl; repeat constructor; discriminate.
Qed.

Lemma download_pdf_no_sleep pmid url backup :
  Forall (fun e => e <> EvSleep 1) (download_pdf w pmid url backup).2.
Proof.
  unfold download_pdf.
  destruct (makedirs w pmid); simpl; [repeat constructor; discriminate|].
  assert (Hnil : Forall (fun e : event => e <> EvSleep 1) []) by constructor.
  repeat case_match; simpl; repeat apply Forall_cons_2; try discriminate;
    rewrite ?Forall_app; repeat split;
    auto using attempt_no_sleep; repeat constructor; discriminate.
Qed.

Lemma filter_none {A : Type} (P : A -> Prop) `{!forall x, Decision (P x)}
  (l : list A) :
  Forall (fun x => ~ P x) l -> filter P l = [].
Proof.
  induction 1 as [|x l Hx _ IH]; [reflexivity|].
  rewrite filter_cons, decide_False by exact Hx. exact IH.
Qed.

Lemma process_chunk_no_sleep chunk i n :
  sleeps (process_chunk w chunk i n).2 = 0%nat.
Proof.
  unfold sleeps, process_chunk. cbn [snd].
  rewrite filter_none; [reflexivity|].
  repeat apply Forall_cons_2; try discriminate.
  induction chunk as [|r chunk IH]; simpl; [constructor|].
  apply Forall_app. split; [apply download_pdf_no_sleep|exact IH].
Qed.

Lemma run_chunks_sleeps chunks : forall i total results,
  (i + length chunks = S total)%nat ->
  sleeps (run_chunks w i total chunks results).2 = pred (length chunks).
Proof.
  induction chunks as [|chunk chunks IH]; intros i total results Hi.
  - reflexivity.
  - cbn [run_chunks snd]. rewrite !sleeps_app, process_chunk_no_sleep.
    simpl in Hi. rewrite (IH (S i) total) by lia.
    destruct (decide (i < total)%nat) as [Hlt|Hge].
    + change (sleeps [EvExtend _]) with 0%nat.
      change (sleeps [EvLog INFO "Sleeping between chunks..."; EvSleep 1])
        with 1%nat.
      simpl length. destruct chunks; simpl in *; lia.
    + change (sleeps [EvExtend _]) with 0%nat.
      change (sleeps []) with 0%nat.
      simpl length. destruct chunks; simpl in *; lia.
Qed.

(** X7. [main] pauses for one second between chunks and not after the last
    one: the run sleeps once less than there are chunks, and not at all on a
    manifest of at most ten rows. *)
Theorem main_sleeps (df : list row) :
  sleeps (main w df).2 = ((length df + 9) / 10 - 1)%nat.
Proof.
  unfold main.
  assert (Hlen : length (chunks_of chunk_size df) = ((length df + 9) / 10)%nat).
  { unfold chunks_of, range_step, chunk_size.
    rewrite !length_map, length_seq. f_equal. lia. }
  destruct (chunks_of chunk_size df) as [|chunk chunks] eqn:Hchunks.
  - simpl in *. rewrite <- Hlen. reflexivity.
  - rewrite run_chunks_sleeps by (simpl; lia).
    rewrite Hlen. lia.
Qed.

(** X8. With the directory in place, [download_pdf] reports [success]
    exactly when the primary request, or else the backup request, is made
    and serves the file; in every other case, whatever raised, it reports
    [failed].  The two dicts differ. *)
Theorem download_pdf_status pmid url backup :
  makedirs w pmid = None ->
  (download_pdf w pmid url backup).1
  = Ok (if (served w pmid Primary url || served w pmid Backup backup)%bool
        then success_outcome pmid (filepath_of pmid)
        else failed_outcome pmid)
  /\ success_outcome pmid (filepath_of pmid) <> failed_outcome pmid.
Proof.
  intros Hmk. split.
  - unfold download_pdf, served. rewrite Hmk. fold (filepath_of pmid).
    assert (Hat : forall sl c,
      (attempt w pmid sl (cell_str c) (filepath_of pmid)).1
      = bool_decide (session_get w pmid sl (cell_str c) = RespStatus 200 None)).
    { intros sl c.
      destruct (attempt w pmid sl (cell_str c) (filepath_of pmid)).1 eqn:Hok.
      - apply attempt_no_reason in Hok. rewrite bool_decide_eq_true_2; auto.
      - rewrite bool_decide_eq_false_2; [reflexivity|].
        intros Hserve.
        apply (proj2 (attempt_no_reason w pmid sl _ (filepath_of pmid)))
          in Hserve.
        congruence. }
    destruct (usable url); simpl.
    + rewrite Hat.
      destruct (bool_decide (session_get w pmid Primary (cell_str url) = _));
        simpl; [reflexivity|].
      destruct (usable backup); simpl; [|reflexivity].
      rewrite Hat.
      destruct (bool_decide (session_get w pmid Backup (cell_str backup) = _));
        reflexivity.
    + destruct (usable backup); simpl; [|reflexivity].
      rewrite Hat.
      destruct (bool_decide (session_get w pmid Backup (cell_str backup) = _));
        reflexivity.
  - intros Heq.
    assert (Hs : success_outcome pmid (filepath_of pmid) !! "Status"
                 = failed_outcome pmid !! "Status") by (rewrite Heq; reflexivity).
    discriminate Hs.
Qed.

(** X9. With the directory in place, [download_pdf] requests the primary
    location when its cell passes the guard, and the backup location only
    when its cell passes the guard and the primary request was not made or
    did not serve the file: at most two requests, in that order, and none
    after a success. *)
Theorem download_pdf_requests pmid url backup :
  makedirs w pmid = None ->
  omap requested_url (download_pdf w pmid url backup).2
  = (if usable url then [cell_str url] else [])
    ++ (if served w pmid Primary url then []
        else if usable backup then [cell_str backup] else []).
Proof.
  intros Hmk. unfold download_pdf, served. rewrite Hmk.
  fold (filepath_of pmid).
  assert (Hat : forall sl c,
    (attempt w pmid sl (cell_str c) (filepath_of pmid)).1
    = bool_decide (session_get w pmid sl (cell_str c) = RespStatus 200 None)
    /\ omap requested_url (attempt w pmid sl (cell_str c) (filepath_of pmid)).2
       = [cell_str c]).
  { intros sl c. unfold attempt.
    destruct (session_get w pmid sl (cell_str c)) as [e|status [e|]]; simpl.
    - auto.
    - case_decide; simpl; rewrite bool_decide_eq_false_2 by congruence; auto.
    - case_decide; simpl.
      + subst. auto.
      + rewrite bool_decide_eq_false_2 by congruence. auto. }
  destruct (Hat Primary url) as [H1 R1]. destruct (Hat Backup backup) as [H2 R2].
  destruct (usable url), (usable backup); cbn [fst snd andb];
    rewrite ?H1;
    repeat match goal with
      | |- context [bool_decide ?P] => destruct (bool_decide P); cbn [fst snd]
      | |- context [(attempt w pmid Backup ?u ?f).1] =>
          destruct (attempt w pmid Backup u f).1; cbn [fst snd]
      end;
    repeat match goal with
      | |- context [omap requested_url (EvMakedirs ?p :: ?l)] =>
          change (omap requested_url (EvMakedirs p :: l))
            with (omap requested_url l)
      end;
    rewrite ?omap_app, ?R1, ?R2; reflexivity.
Qed.

End PacingFacts.

Lemma download_pdf_status_witness :
  (DownloadPdfs.download_pdf backup_only 1001
     (DownloadPdfs.CellStr "http://a/1001.pdf")
     (DownloadPdfs.CellStr "http://b/1001.pdf")).1
  = Ok (DownloadPdfs.success_outcome 1001 "pdfs/1001.pdf").
Proof.
  apply (proj1 (download_pdf_status backup_only 1001
                  (DownloadPdfs.CellStr "http://a/1001.pdf")
                  (DownloadPdfs.CellStr "http://b/1001.pdf") eq_refl)).
Defined.

Lemma download_pdf_requests_witness :
  omap requested_url
    (DownloadPdfs.download_pdf backup_only 1001
       (DownloadPdfs.CellStr "http://a/1001.pdf")
       (DownloadPdfs.CellStr "http://b/1001.pdf")).2
  = ["http://a/1001.pdf"; "http://b/1001.pdf"].
Proof.
  apply (download_pdf_requests backup_only 1001
           (DownloadPdfs.CellStr "http://a/1001.pdf")
           (DownloadPdfs.CellStr "http://b/1001.pdf") eq_refl).
Defined.


(** ** s3_csv_inventory.py: the report and the failures of the parser *)

Lemma sorted_list_increasing (s : gset Z) :
  StronglySorted Z.lt (Inventory.sorted_list s).
Proof.
  unfold Inventory.sorted_list.
  assert (Hnd : NoDup (merge_sort Z.le (elements s))).
  { rewrite merge_sort_Permutation. apply NoDup_elements. }
  assert (Hle : StronglySorted Z.le (merge_sort Z.le (elements s))).
  { apply StronglySorted_merge_sort.
    - intros x y z. apply Z.le_trans.
    - intros x y. lia. }
  induction Hle as [|x l Hl IH Hall]; [constructor|].
  apply NoDup_cons in Hnd as [Hx Hnd]. constructor; [auto|].
  apply Forall_forall. intros y Hy.
  assert (x <= y) by (rewrite Forall_forall in Hall; auto).
  assert (x <> y) by (intros ->; contradiction).
  lia.
Qed.

(** X10. The two lists [analyze_pmids] hands to the report are in strictly
    increasing order, hence without repetition; the extra list holds exactly
    the remote identifiers that were not requested; the counts satisfy
    [csv_unique + extra = s3_unique + missing]; and nothing is missing
    exactly when every requested identifier is remote. *)
Theorem analyze_pmids_report (csv_pmids s3_pmids : gset Z) :
  let a := Inventory.analyze_pmids csv_pmids s3_pmids in
  StronglySorted Z.lt (Inventory.missing_pmids a)
  /\ StronglySorted Z.lt (Inventory.extra_pmids a)
  /\ (forall x, x ∈ Inventory.extra_pmids a <-> x ∈ s3_pmids /\ x ∉ csv_pmids)
  /\ length (Inventory.extra_pmids a) = Inventory.extra a
  /\ (Inventory.csv_unique a + Inventory.extra a
      = Inventory.s3_unique a + Inventory.missing a)%nat
  /\ (Inventory.missing a = 0%nat <-> csv_pmids ⊆ s3_pmids).
Proof.
  cbn.
  split; [apply sorted_list_increasing|].
  split; [apply sorted_list_increasing|].
  split; [intros x; rewrite sorted_list_elem_of, elem_of_difference; reflexivity|].
  split; [apply sorted_list_length|].
  split.
  - pose proof (size_difference_intersection csv_pmids s3_pmids) as H1.
    pose proof (size_difference_intersection s3_pmids csv_pmids) as H2.
    assert (Hcomm : s3_pmids ∩ csv_pmids = csv_pmids ∩ s3_pmids).
    { apply set_eq. intros x. rewrite !elem_of_intersection. tauto. }
    rewrite Hcomm in H2.
    lia.
  - rewrite size_empty_iff. split.
    + intros Hempty x Hx. destruct (decide (x ∈ s3_pmids)) as [|Hn]; [assumption|].
      exfalso. apply (not_elem_of_empty (C := gset Z) x).
      apply (Hempty x). apply elem_of_difference. auto.
    + intros Hsub x. split.
      * intros Hx. apply elem_of_difference in Hx as [Hx Hn].
        exfalso. apply Hn, Hsub, Hx.
      * intros Hx. exfalso. exact (not_elem_of_empty (C := gset Z) x Hx).
Qed.

Section InventoryFacts.

Variable int_of_str : string -> option Z.
Variable path_stem : string -> string.

#[local] Abbreviation row_id := (Terms.row_id int_of_str).
#[local] Abbreviation parse_inv := (Terms.parse_inv int_of_str).

Lemma split_slashes_none text :
  has_slashes text = false -> split_slashes text = [text].
Proof.
  induction text as [|c text IH]; [reflexivity|].
  destruct text as [|c' text].
  - intros _. cbn.
    destruct c as [[] [] [] [] [] [] [] []]; reflexivity.
  - intros Hno. cbn [has_slashes] in Hno.
    apply orb_false_iff in Hno as [Hpair Hrest].
    specialize (IH Hrest).
    assert (Hstep : split_slashes (String c (String c' text))
                    = match split_slashes (String c' text) with
                      | [] => [String c ""]
                      | w :: ws => String c w :: ws
                      end).
    { destruct (Ascii.eqb_spec c "/") as [->|Hc];
        [destruct (Ascii.eqb_spec c' "/") as [->|Hc']; [discriminate|]|].
      - destruct c' as [[] [] [] [] [] [] [] []]; try reflexivity.
        contradiction.
      - destruct c as [[] [] [] [] [] [] [] []]; try reflexivity.
        contradiction. }
    rewrite Hstep, IH. reflexivity.
Qed.

Lemma has_slashes_after bucket tail :
  has_char "/" bucket = false ->
  has_slashes (bucket +:+ String "/" tail) = has_slashes (String "/" tail).
Proof.
  induction bucket as [|c bucket IH]; intros Hno; [reflexivity|].
  simpl in Hno. apply orb_false_iff in Hno as [Hc Hb].
  change (String c bucket +:+ String "/" tail)
    with (String c (bucket +:+ String "/" tail)).
  rewrite <- (IH Hb).
  destruct bucket as [|c' bucket]; cbn [has_slashes String.append];
    rewrite Hc; reflexivity.
Qed.

Lemma has_slashes_plain text : has_char "/" text = false -> has_slashes text = false.
Proof.
  induction text as [|c text IH]; intros Hno; [reflexivity|].
  simpl in Hno. apply orb_false_iff in Hno as [Hc Hb].
  destruct text as [|c' text]; [reflexivity|].
  change (has_slashes (String c (String c' text)))
    with ((Ascii.eqb c "/" && Ascii.eqb c' "/")
          || has_slashes (String c' text))%bool.
  rewrite Hc, (IH Hb). reflexivity.
Qed.

Lemma has_char_after c a b : has_char c (a +:+ String c b) = true.
Proof.
  induction a as [|c' a IH]; simpl.
  - rewrite Ascii.eqb_refl. reflexivity.
  - change (String.append a (String c b)) with (a +:+ String c b).
    rewrite IH. apply orb_true_r.
Qed.

(** The listing [get_s3_pmids] asks for. *)
Lemma get_s3_pmids_listing list_objects bucket prefix :
  has_char "/" bucket = false ->
  has_slashes ("/" +:+ prefix) = false ->
  S3CsvInventory.get_s3_pmids int_of_str path_stem list_objects
    ("s3://" +:+ bucket +:+ "/" +:+ prefix)
  = Some (Inventory.get_s3_pmids int_of_str path_stem
            (list_objects bucket prefix)).
Proof.
  intros Hb Hp. unfold S3CsvInventory.get_s3_pmids.
  assert (Hparts : split_slashes ("s3://" +:+ bucket +:+ "/" +:+ prefix)
                   = ["s3:"; bucket +:+ "/" +:+ prefix]).
  { change ("s3://" +:+ bucket +:+ "/" +:+ prefix)
      with (String "s" (String "3" (String ":" (String "/" (String "/"
              (bucket +:+ String "/" prefix)))))).
    cbn [split_slashes].
    rewrite split_slashes_none; [reflexivity|].
    rewrite (has_slashes_after bucket prefix Hb). exact Hp. }
  rewrite Hparts. cbn [lookup list_lookup].
  change (bucket +:+ "/" +:+ prefix) with (bucket +:+ String "/" prefix).
  rewrite has_char_after, (split_on_app "/" bucket prefix Hb).
  simpl hd. simpl drop. rewrite ?drop_0, join_split_on. reflexivity.
Qed.

(** X11. The comparison of [main], on rows that all carry an identifier
    text.  A URI without two slashes in a row ends the run with
    [IndexError], after the CSV has been parsed.  For [s3://bucket/prefix],
    where the bucket has no slash and the prefix neither begins with a slash
    nor has two in a row, the bucket is listed under the prefix and the run
    reaches the analysis: an identifier is reported as missing exactly when
    some CSV row parses to it and no listed key has a stem that parses to
    it, and as extra in the converse case. *)
Theorem main_report rows has_header
  (list_objects : string -> string -> list Inventory.s3_page)
  (s3_uri bucket prefix : string) :
  Forall (fun row => is_Some (field "PMID" row)) rows ->
  (has_slashes s3_uri = false ->
   S3CsvInventory.main int_of_str path_stem list_objects rows has_header s3_uri
   = S3CsvInventory.IndexError "list index out of range")
  /\ (has_char "/" bucket = false ->
      has_slashes ("/" +:+ prefix) = false ->
      exists a log,
        S3CsvInventory.main int_of_str path_stem list_objects rows has_header
          ("s3://" +:+ bucket +:+ "/" +:+ prefix)
        = S3CsvInventory.Analysed a log
        /\ (forall p,
              p ∈ Inventory.missing_pmids a <->
              (exists j row, rows !! j = Some row /\ row_id row = Some p)
              /\ ~ (exists keys key,
                      Some keys ∈ list_objects bucket prefix /\ key ∈ keys
                      /\ int_of_str (path_stem key) = Some p))
        /\ (forall p,
              p ∈ Inventory.extra_pmids a <->
              (exists keys key,
                 Some keys ∈ list_objects bucket prefix /\ key ∈ keys
                 /\ int_of_str (path_stem key) = Some p)
              /\ ~ (exists j row, rows !! j = Some row /\ row_id row = Some p))).
Proof.
  intros Hrows.
  destruct (unparseable_text_in_sets int_of_str path_stem rows has_header
              (list_objects bucket prefix) Hrows)
    as ((found & log & Hrun & Hfound & _) & Hs3 & _).
  unfold S3CsvInventory.main. rewrite Hrun. split.
  - intros Hno. unfold S3CsvInventory.get_s3_pmids.
    rewrite (split_slashes_none s3_uri Hno). reflexivity.
  - intros Hb Hp. rewrite (get_s3_pmids_listing list_objects bucket prefix Hb Hp).
    eexists _, _. split; [reflexivity|].
    cbn. split; intros p; rewrite sorted_list_elem_of, elem_of_difference,
      Hfound, Hs3; reflexivity.
Qed.

Lemma parse_rows_app rows1 : forall rows2 i st,
  Inventory.parse_rows int_of_str i (rows1 ++ rows2) st
  = match Inventory.parse_rows int_of_str i rows1 st with
    | Ok st' => Inventory.parse_rows int_of_str (i + length rows1) rows2 st'
    | Raise e => Raise e
    end.
Proof.
  induction rows1 as [|row rows1 IH]; intros rows2 i st; simpl.
  - rewrite Nat.add_0_r. reflexivity.
  - destruct (Inventory.parse_row int_of_str i row st) as [st'|e]; [|reflexivity].
    rewrite IH. replace (S i + length rows1)%nat with (i + S (length rows1))%nat
      by lia. reflexivity.
Qed.

(** The exception a row without identifier text makes [int(row["PMID"])]
    raise. *)
Lemma parse_row_raises i row st :
  field "PMID" row = None ->
  Inventory.parse_row int_of_str i row st
  = Raise (match row !! "PMID" with
           | None => KeyError "PMID"
           | Some _ =>
               TypeError
                 "int() argument must be a string, a bytes-like object or a real number, not 'NoneType'"
           end).
Proof.
  unfold field, Inventory.parse_row.
  destruct (row !! "PMID") as [[raw|]|]; [discriminate|reflexivity|reflexivity].
Qed.

Lemma parse_csv_pmids_first_bad rows has_header j row :
  rows !! j = Some row ->
  field "PMID" row = None ->
  (forall k r, (k < j)%nat -> rows !! k = Some r -> is_Some (field "PMID" r)) ->
  Inventory.parse_csv_pmids int_of_str rows has_header
  = Raise (match row !! "PMID" with
           | None => KeyError "PMID"
           | Some _ =>
               TypeError
                 "int() argument must be a string, a bytes-like object or a real number, not 'NoneType'"
           end).
Proof.
  intros Hj Hbad Hbefore. unfold Inventory.parse_csv_pmids.
  rewrite <- (take_drop_middle rows j row Hj), parse_rows_app.
  assert (Htext : Forall (fun r => is_Some (field "PMID" r)) (take j rows)).
  { apply Forall_lookup. intros k r Hk.
    apply lookup_take_Some in Hk as [Hk Hlt]. eauto. }
  destruct (parse_rows_inv int_of_str (Inventory.start_row has_header)
              (take j rows) [] (Inventory.ParseState ∅ ∅ [])
              (parse_inv_init int_of_str _) Htext) as (st & Hrun & _).
  simpl in Hrun. rewrite Nat.add_0_r in Hrun. rewrite Hrun. simpl.
  rewrite (parse_row_raises _ row st Hbad). reflexivity.
Qed.

(** X12. [parse_csv_pmids] raises as soon as a row has no identifier text:
    with [KeyError] when the row has no [PMID] column and with [TypeError]
    when the column is there and the row is too short for it; the
    identifiers parsed from the rows before it are lost with the call. *)
Theorem parse_csv_pmids_raises rows has_header j row :
  rows !! j = Some row ->
  field "PMID" row = None ->
  (forall k r, (k < j)%nat -> rows !! k = Some r -> is_Some (field "PMID" r)) ->
  Inventory.parse_csv_pmids int_of_str rows has_header
  = Raise (match row !! "PMID" with
           | None => KeyError "PMID"
           | Some _ =>
               TypeError
                 "int() argument must be a string, a bytes-like object or a real number, not 'NoneType'"
           end).
Proof. apply parse_csv_pmids_first_bad. Qed.

Lemma first_without_text (rows : list Inventory.csv_row) :
  Forall (fun row => is_Some (field "PMID" row)) rows
  \/ exists j row,
       rows !! j = Some row /\ field "PMID" row = None
       /\ (forall k r, (k < j)%nat -> rows !! k = Some r ->
           is_Some (field "PMID" r)).
Proof.
  induction rows as [|row rows IH]; [left; constructor|].
  destruct (field "PMID" row) as [raw|] eqn:Hrow.
  - destruct IH as [Hall|(j & r & Hj & Hbad & Hbefore)].
    + left. constructor; [rewrite Hrow; eauto|exact Hall].
    + right. exists (S j), r. split; [exact Hj|]. split; [exact Hbad|].
      intros [|k] r' Hlt Hk; simpl in Hk.
      * injection Hk as <-. rewrite Hrow. eauto.
      * eapply Hbefore; [|exact Hk]. lia.
  - right. exists 0%nat, row. split; [reflexivity|]. split; [exact Hrow|].
    intros k r Hlt. lia.
Qed.

(** X13. The flag [has_header] changes nothing but the row numbers written
    to the log: with and without it [parse_csv_pmids] returns the same set
    and as many log records, or raises the same exception. *)
Theorem parse_csv_pmids_has_header rows :
  (forall found log,
     Inventory.parse_csv_pmids int_of_str rows true = Ok (found, log) ->
     exists log',
       Inventory.parse_csv_pmids int_of_str rows false = Ok (found, log')
       /\ length log' = length log)
  /\ (forall e,
        Inventory.parse_csv_pmids int_of_str rows true = Raise e ->
        Inventory.parse_csv_pmids int_of_str rows false = Raise e).
Proof.
  destruct (first_without_text rows) as [Hall|(j & row & Hj & Hbad & Hbefore)].
  - destruct (parse_rows_inv int_of_str (Inventory.start_row true) rows []
                (Inventory.ParseState ∅ ∅ []) (parse_inv_init int_of_str _) Hall)
      as (st1 & Hrun1 & [Hpm1 _ _ _ Hcount1]).
    destruct (parse_rows_inv int_of_str (Inventory.start_row false) rows []
                (Inventory.ParseState ∅ ∅ []) (parse_inv_init int_of_str _) Hall)
      as (st2 & Hrun2 & [Hpm2 _ _ _ Hcount2]).
    simpl in Hrun1, Hrun2. unfold Inventory.parse_csv_pmids. simpl.
    rewrite Hrun1, Hrun2.
    assert (Hsame : Inventory.pmids st2 = Inventory.pmids st1).
    { apply set_eq. intros p. rewrite Hpm1, Hpm2. reflexivity. }
    split; [|discriminate].
    intros found log [= <- <-]. exists (Inventory.log st2).
    rewrite Hsame. split; [reflexivity|].
    rewrite Hsame in Hcount2. simpl in *. lia.
  - rewrite (parse_csv_pmids_first_bad rows true j row Hj Hbad Hbefore).
    rewrite (parse_csv_pmids_first_bad rows false j row Hj Hbad Hbefore).
    split; [discriminate|auto].
Qed.

End InventoryFacts.

Lemma main_report_witness :
  S3CsvInventory.main Sample.int_of_str Sample.path_stem
    (fun _ _ => [Some ["pdfs/12.pdf"; "pdfs/99.pdf"; "pdfs/readme.md"]; None])
    pmid_rows true "bucket/pdfs"
  = S3CsvInventory.IndexError "list index out of range"
  /\ exists a log,
       S3CsvInventory.main Sample.int_of_str Sample.path_stem
         (fun bucket prefix =>
            if decide (bucket = "bucket" /\ prefix = "pdfs")
            then [Some ["pdfs/12.pdf"; "pdfs/99.pdf"; "pdfs/readme.md"]; None]
            else [])
         pmid_rows true "s3://bucket/pdfs"
       = S3CsvInventory.Analysed a log
       /\ 7 ∈ Inventory.missing_pmids a.
Proof.
  split.
  - apply (proj1 (main_report Sample.int_of_str Sample.path_stem pmid_rows true
                    (fun _ _ => [Some ["pdfs/12.pdf"; "pdfs/99.pdf";
                                       "pdfs/readme.md"]; None])
                    "bucket/pdfs" "bucket" "pdfs"
                    ltac:(repeat constructor; eexists; vm_compute; reflexivity))).
    reflexivity.
  - destruct (proj2 (main_report Sample.int_of_str Sample.path_stem pmid_rows
                       true
                       (fun bucket prefix =>
                          if decide (bucket = "bucket" /\ prefix = "pdfs")
                          then [Some ["pdfs/12.pdf"; "pdfs/99.pdf";
                                      "pdfs/readme.md"]; None]
                          else [])
                       "bucket/pdfs" "bucket" "pdfs"
                       ltac:(repeat constructor; eexists; vm_compute;
                             reflexivity)) eq_refl eq_refl)
      as (a & log & Hrun & Hmissing & _).
    exists a, log. split; [exact Hrun|]. apply Hmissing. split.
    + exists 3%nat, {["PMID" := Some "7"]}. split; vm_compute; reflexivity.
    + intros (keys & key & Hkeys & Hkey & Hint).
      rewrite decide_True in Hkeys by (split; reflexivity).
      apply elem_of_cons in Hkeys as [[= ->]|Hkeys].
      * repeat (apply elem_of_cons in Hkey as [->|Hkey];
                [vm_compute in Hint; discriminate|]).
        apply elem_of_nil in Hkey. exact Hkey.
      * apply elem_of_cons in Hkeys as [Hkeys|Hkeys]; [discriminate|].
        apply elem_of_nil in Hkeys. exact Hkeys.
Defined.

Lemma parse_csv_pmids_raises_witness :
  Inventory.parse_csv_pmids Sample.int_of_str
    [ {["PMID" := Some "12"; "name" := Some "a.pdf"]}; {["name" := Some "x.pdf"]} ]
    true
  = Raise (KeyError "PMID").
Proof.
  rewrite (parse_csv_pmids_raises Sample.int_of_str
             [ {["PMID" := Some "12"; "name" := Some "a.pdf"]};
               {["name" := Some "x.pdf"]} ] true 1 {["name" := Some "x.pdf"]}).
  - vm_compute. reflexivity.
  - reflexivity.
  - vm_compute. reflexivity.
  - intros [|k] r Hlt Hk; [|lia]. injection Hk as <-.
    eexists. vm_compute. reflexivity.
Defined.

Lemma parse_csv_pmids_has_header_witness :
  exists log',
    Inventory.parse_csv_pmids Sample.int_of_str pmid_rows false
    = Ok ({[12; 7]}, log')
    /\ length log' = 3%nat.
Proof.
  apply (proj1 (parse_csv_pmids_has_header Sample.int_of_str pmid_rows)
           {[12; 7]}
           [(ERROR, "Invalid PMID format in row 3: abc");
            (WARNING, "Duplicate PMID 12 found in row 4. First occurrence in row 2");
            (WARNING, "Duplicate PMID 12 found in row 6. First occurrence in row 2")]).
  vm_compute. reflexivity.
Defined.


(** ** metapub_download.py: the rows of [get_urls] and [gather_urls] *)

(** X14. [get_urls] never raises: a timeout, an error and an empty answer of
    the lookup each give a row, as an article does.  The row always has the
    same eight columns and the identifier it was asked for; without an
    article its two URL columns are [None]; and its reason is a non-empty
    text unless the article has its PubMed record. *)
Theorem get_urls_row_shape (find : Z -> MetapubDownload.lookup) (pmid : Z) :
  exists row why,
    MetapubDownload.get_urls find pmid = Ok row
    /\ dom row = {["PMID"; "URL"; "Backup URL"; "Reason"; "Title"; "DOI";
                   "Authors"; "Journal"]}
    /\ row !! "PMID" = Some (PyInt pmid)
    /\ row !! "Reason" = Some (PyStr why)
    /\ ((forall a, find pmid <> MetapubDownload.LookupArticle a) ->
        row !! "URL" = Some PyNone /\ row !! "Backup URL" = Some PyNone)
    /\ ((forall a, find pmid = MetapubDownload.LookupArticle a ->
                   MetapubDownload.pma a = None) ->
        why <> "").
Proof.
  assert (Hdom : forall u b r t d a j,
    dom (MetapubDownload.make_row pmid u b r t d a j)
    = {["PMID"; "URL"; "Backup URL"; "Reason"; "Title"; "DOI";
        "Authors"; "Journal"]}).
  { intros. unfold MetapubDownload.make_row.
    rewrite !dom_insert_L, dom_empty_L. set_solver. }
  unfold MetapubDownload.get_urls, MetapubDownload.empty_row.
  destruct (find pmid) as [e|e| |a] eqn:Hfind.
  - eexists _, _. split; [reflexivity|]. split; [apply Hdom|].
    split; [reflexivity|]. split; [reflexivity|]. split; [auto|].
    intros _. discriminate.
  - eexists _, _. split; [reflexivity|]. split; [apply Hdom|].
    split; [reflexivity|]. split; [reflexivity|]. split; [auto|].
    intros _. discriminate.
  - eexists _, _. split; [reflexivity|]. split; [apply Hdom|].
    split; [reflexivity|]. split; [reflexivity|]. split; [auto|].
    intros _. discriminate.
  - destruct (MetapubDownload.pma a) as [p|] eqn:Hpma.
    + eexists _, _. split; [reflexivity|]. split; [apply Hdom|].
      split; [reflexivity|]. split; [reflexivity|]. split.
      * intros Hnot. exfalso. exact (Hnot a eq_refl).
      * intros Hnone. specialize (Hnone a eq_refl). congruence.
    + eexists _, _. split; [reflexivity|]. split; [apply Hdom|].
      split; [reflexivity|]. split; [reflexivity|]. split.
      * intros Hnot. exfalso. exact (Hnot a eq_refl).
      * intros _. case_decide as Hempty; [discriminate|exact Hempty].
Qed.

Lemma get_urls_row_shape_witness :
  exists row,
    MetapubDownload.get_urls (fun _ => MetapubDownload.LookupTimeout "2 s") 7
    = Ok row
    /\ row !! "URL" = Some PyNone.
Proof.
  destruct (get_urls_row_shape (fun _ => MetapubDownload.LookupTimeout "2 s") 7)
    as (row & why & Hrun & _ & _ & _ & Hnone & _).
  exists row. split; [exact Hrun|]. apply Hnone. discriminate.
Defined.

Lemma get_urls_returns (find : Z -> MetapubDownload.lookup) (pmid : Z) :
  exists row, MetapubDownload.get_urls find pmid = Ok row.
Proof.
  unfold MetapubDownload.get_urls.
  destruct (find pmid) as [e|e| |a]; try (eexists; reflexivity).
  destruct (MetapubDownload.pma a); eexists; reflexivity.
Qed.

Section InTimeFacts.

Import MetapubDownload.

Variable w : world.
Variable pmids : list Z.

#[local] Abbreviation gather_loop := (Terms.gather_loop w pmids).

Hypothesis in_time : forall chunk_num, chunk_timing w chunk_num = InTime.

Lemma gather_chunk_in_time acc k :
  (gather_chunk w pmids acc (k * chunk_size)).1
  = acc.1 ++ omap (fun pmid => DownloadPdfs.returned (get_urls (find w) pmid))
               (take chunk_size (drop (k * chunk_size) pmids))
  /\ sleeps (gather_chunk w pmids acc (k * chunk_size)).2 = S (sleeps acc.2).
Proof.
  unfold gather_chunk. rewrite in_time. cbn [fst snd]. split.
  - f_equal.
    apply (omap_map (fun r : Z * res url_row => DownloadPdfs.returned r.2)
             (fun pmid => (pmid, get_urls (find w) pmid))).
  - rewrite !sleeps_app.
    match goal with
    | |- context [sleeps (omap ?f ?l)] =>
        assert (Herr : sleeps (omap f l) = 0%nat)
    end.
    { unfold sleeps. rewrite filter_none; [reflexivity|].
      apply Forall_forall. intros e He.
      apply list_elem_of_omap in He as ([pmid r] & _ & Hr). simpl in Hr.
      destruct r; [discriminate|]. injection Hr as <-. discriminate. }
    rewrite Herr. unfold sleeps. simpl. lia.
Qed.

Lemma gather_loop_in_time m started :
  (gather_loop m ([], started)).1
  = omap (fun pmid => DownloadPdfs.returned (get_urls (find w) pmid))
      (take (m * chunk_size) pmids)
  /\ sleeps (gather_loop m ([], started)).2 = (m + sleeps started)%nat.
Proof.
  induction m as [|m [IHrows IHsleeps]].
  - split; reflexivity.
  - rewrite gather_loop_S.
    destruct (gather_chunk_in_time (gather_loop m ([], started)) m) as [-> ->].
    rewrite IHrows, IHsleeps, <- omap_app. split; [|lia].
    f_equal. replace (S m * chunk_size)%nat with (m * chunk_size + chunk_size)%nat
      by lia.
    apply take_take_drop.
Qed.

End InTimeFacts.

(** X15. When no chunk hits its timeout, [gather_urls] returns exactly one
    row per identifier, in the order of the identifiers, each the row of
    [get_urls] for that identifier; and it sleeps one second after every
    chunk, the last one included. *)
Theorem gather_urls_in_time (w : MetapubDownload.world) (pmids : list Z) :
  (forall chunk_num,
     MetapubDownload.chunk_timing w chunk_num = MetapubDownload.InTime) ->
  Forall2 (fun pmid row =>
             MetapubDownload.get_urls (MetapubDownload.find w) pmid = Ok row)
    pmids (MetapubDownload.gather_urls w pmids).1
  /\ sleeps (MetapubDownload.gather_urls w pmids).2
     = ((length pmids + 9) / 10)%nat.
Proof.
  intros Hin. unfold MetapubDownload.gather_urls, DownloadPdfs.range_step.
  cbn [fst snd].
  change (foldl (MetapubDownload.gather_chunk w pmids) ?acc
            (map ?f (seq 0 ?m))) with (Terms.gather_loop w pmids m acc).
  destruct (gather_loop_in_time w pmids Hin
              ((length pmids + MetapubDownload.chunk_size - 1)
               / MetapubDownload.chunk_size)
              [EvLog INFO ("Starting to process " +:+ pretty (length pmids)
                 +:+ " PMIDs in chunks of " +:+ pretty MetapubDownload.chunk_size)])
    as [Hrows Hsleeps].
  split.
  - rewrite Hrows, take_ge.
    2:{ unfold MetapubDownload.chunk_size.
        pose proof (Nat.div_mod_eq (length pmids + 10 - 1) 10).
        pose proof (Nat.mod_upper_bound (length pmids + 10 - 1) 10). lia. }
    clear. induction pmids as [|pmid pmids IH]; [constructor|].
    destruct (get_urls_returns (MetapubDownload.find w) pmid) as (row & Hrow).
    csimpl. rewrite Hrow. simpl. constructor; [exact Hrow|exact IH].
  - rewrite sleeps_app, Hsleeps. unfold MetapubDownload.chunk_size.
    change (sleeps [EvLog _ _]) with 0%nat.
    replace (length pmids + 10 - 1)%nat with (length pmids + 9)%nat by lia.
    lia.
Qed.

Lemma gather_urls_in_time_witness :
  length (MetapubDownload.gather_urls
            (MetapubDownload.World (fun _ => MetapubDownload.LookupNone)
               (fun _ => MetapubDownload.InTime)) (seqZ 1 12)).1 = 12%nat.
Proof.
  destruct (gather_urls_in_time
              (MetapubDownload.World (fun _ => MetapubDownload.LookupNone)
                 (fun _ => MetapubDownload.InTime)) (seqZ 1 12))
    as [Hrows _].
  - reflexivity.
  - rewrite <- (Forall2_length _ _ _ Hrows). reflexivity.
Defined.

(** A single caller going through the limiter three times, a hundredth of a
    second after the first permit for the second call. *)
Lemma one_caller_permits_spaced_witness :
  exists m,
    MetapubDownload.exec
      [MetapubDownload.Run 0; MetapubDownload.Run 0; MetapubDownload.Run 0;
       MetapubDownload.Tick (1 # 100);
       MetapubDownload.Run 0; MetapubDownload.Run 0;
       MetapubDownload.Tick (1 # 10); MetapubDownload.Run 0;
       MetapubDownload.Run 0]
      (MetapubDownload.boot 1 1000) = Some m
    /\ length (MetapubDownload.permits m) = 2%nat
    /\ MetapubDownload.spaced MetapubDownload.DELAY (MetapubDownload.permits m).
Proof.
  eexists. split; [vm_compute; reflexivity|]. split; [reflexivity|].
  apply (one_caller_permits_spaced
           [MetapubDownload.Run 0; MetapubDownload.Run 0; MetapubDownload.Run 0;
            MetapubDownload.Tick (1 # 100);
            MetapubDownload.Run 0; MetapubDownload.Run 0;
            MetapubDownload.Tick (1 # 10); MetapubDownload.Run 0;
            MetapubDownload.Run 0] 1000).
  vm_compute. reflexivity.
Defined.


(** ** aws_upload.py: the S3 URI, the inventory, the filter, the uploads *)

Lemma s3_uri_parts bucket rest :
  has_char "/" bucket = false ->
  split_on "/" ("s3://" +:+ bucket +:+ "/" +:+ rest)
  = ["s3:"; ""; bucket] ++ split_on "/" rest.
Proof.
  intros Hb.
  change ("s3://" +:+ bucket +:+ "/" +:+ rest)
    with ("s3:" +:+ String "/" ("" +:+ String "/" (bucket +:+ String "/" rest))).
  rewrite (split_on_app "/" "s3:") by reflexivity.
  rewrite (split_on_app "/" "") by reflexivity.
  rewrite (split_on_app "/" bucket) by exact Hb.
  reflexivity.
Qed.

Lemma s3_uri_bare bucket :
  has_char "/" bucket = false ->
  split_on "/" ("s3://" +:+ bucket) = ["s3:"; ""; bucket].
Proof.
  intros Hb.
  change ("s3://" +:+ bucket)
    with ("s3:" +:+ String "/" ("" +:+ String "/" bucket)).
  rewrite (split_on_app "/" "s3:") by reflexivity.
  rewrite (split_on_app "/" "") by reflexivity.
  rewrite (split_on_without "/" bucket Hb). reflexivity.
Qed.

Section UploadFacts.

Import AwsUpload.

Variable path_name : string -> string.
Variable str_lower : string -> string.

(** X16. [upload_file] takes the bucket and the prefix apart as the URI
    writes them: for [s3://bucket/prefix] the object key is the prefix, a
    slash and the file name; for a URI without prefix, [s3://bucket], the
    key begins with a slash; and for a URI with fewer than two slashes
    [IndexError] is raised, which the handler does not catch.  The answer
    is [True] when the upload goes through and [False] on [ClientError];
    any other exception of the upload is raised to the caller. *)
Theorem upload_file_key (put : string -> string -> string -> reply)
  (file_path bucket prefix s3_uri : string) :
  (has_char "/" bucket = false ->
   exists answer,
     (upload_file path_name put file_path
        ("s3://" +:+ bucket +:+ "/" +:+ prefix)).1 = answer
     /\ UpPut file_path bucket (prefix +:+ "/" +:+ path_name file_path)
          ∈ (upload_file path_name put file_path
               ("s3://" +:+ bucket +:+ "/" +:+ prefix)).2
     /\ answer
        = match put file_path bucket (prefix +:+ "/" +:+ path_name file_path) with
          | Uploaded => Returns true
          | RaisesClientError _ => Returns false
          | RaisesOther e => Raises (OtherError e)
          end)
  /\ (has_char "/" bucket = false ->
      UpPut file_path bucket ("/" +:+ path_name file_path)
        ∈ (upload_file path_name put file_path ("s3://" +:+ bucket)).2)
  /\ ((count_char "/" s3_uri < 2)%nat ->
      upload_file path_name put file_path s3_uri
      = (Raises (IndexError "list index out of range"), [])).
Proof.
  split; [|split].
  - intros Hb. eexists. split; [reflexivity|].
    unfold upload_file, uri_bucket, uri_prefix.
    rewrite (s3_uri_parts bucket prefix Hb). simpl.
    rewrite drop_0, join_split_on.
    destruct (put file_path bucket (prefix +:+ "/" +:+ path_name file_path));
      simpl; split; try reflexivity; left.
  - intros Hb. unfold upload_file, uri_bucket, uri_prefix.
    rewrite (s3_uri_bare bucket Hb). simpl.
    destruct (put file_path bucket _); simpl; left.
  - intros Hfew. unfold upload_file, uri_bucket.
    rewrite lookup_ge_None_2; [reflexivity|].
    rewrite split_on_length. lia.
Qed.

(** X17. [filter_upload_list] keeps, in their order, exactly the paths whose
    file name is not in the inventory of the bucket; it writes one log
    record with the number of paths left out when there is any, and nothing
    when every path is kept. *)
Theorem filter_upload_list_keeps (upload_list : list string)
  (s3_inventory : gset string) :
  let out := filter_upload_list path_name upload_list s3_inventory in
  (forall path, path ∈ out.1 <->
                path ∈ upload_list /\ path_name path ∉ s3_inventory)
  /\ out.1 `sublist_of` upload_list
  /\ (length out.1
      + length (filter (fun path => path_name path ∈ s3_inventory) upload_list)
      = length upload_list)%nat
  /\ out.2
     = (if decide (Exists (fun path => path_name path ∈ s3_inventory)
                     upload_list)
        then [UpLog INFO
                (skipping_msg
                   (length (filter (fun path => path_name path ∈ s3_inventory)
                              upload_list)))]
        else []).
Proof.
  assert (Hsplit : (length (filter (fun path => path_name path ∉ s3_inventory)
                              upload_list)
      + length (filter (fun path => path_name path ∈ s3_inventory) upload_list)
      = length upload_list)%nat).
  { induction upload_list as [|p l IH]; [reflexivity|].
    rewrite !filter_cons.
    destruct (decide (path_name p ∈ s3_inventory)).
    - rewrite decide_False by tauto. simpl. lia.
    - rewrite decide_True by tauto. simpl. lia. }
  cbn. split; [|split; [|split]].
  - intros path. rewrite list_elem_of_filter. tauto.
  - apply sublist_filter.
  - exact Hsplit.
  - set (gone := filter (fun path => path_name path ∈ s3_inventory) upload_list)
      in *.
    assert (Hgone : (0 < length gone)%nat <->
              Exists (fun path => path_name path ∈ s3_inventory) upload_list).
    { rewrite Exists_exists. split.
      - intros Hpos. destruct gone as [|path gone'] eqn:Heq; [simpl in Hpos; lia|].
        exists path.
        assert (Hin : path ∈ gone) by (rewrite Heq; left).
        apply list_elem_of_filter in Hin. tauto.
      - intros (path & Hin & Hname).
        assert (Hg : path ∈ gone) by (apply list_elem_of_filter; auto).
        destruct gone; [apply elem_of_nil in Hg; contradiction|simpl; lia]. }
    replace (length upload_list
             - length (filter (fun path => path_name path ∉ s3_inventory)
                         upload_list))%nat with (length gone) by lia.
    destruct (decide (0 < length gone)%nat) as [Hpos|Hzero].
    + rewrite decide_True by (apply Hgone; exact Hpos). reflexivity.
    + rewrite decide_False; [reflexivity|]. intros Hex. apply Hzero, Hgone, Hex.
Qed.

Lemma inventory_page_spec page : forall existing name,
  name ∈ inventory_page path_name str_lower page existing <->
  name ∈ existing
  \/ exists keys key, page = Some keys /\ key ∈ keys
       /\ ends_with ".pdf" (str_lower key) = true /\ name = path_name key.
Proof.
  destruct page as [keys|]; simpl.
  2:{ intros existing name. split; [auto|].
      intros [?|(keys & key & Hp & _)]; [assumption|discriminate]. }
  induction keys as [|key keys IH]; intros existing name; simpl.
  - split; [auto|]. intros [?|(ks & k & [= <-] & Hin & _)]; [assumption|].
    apply elem_of_nil in Hin. contradiction.
  - rewrite IH. split.
    + intros [Hin|(ks & k & [= <-] & Hk & Hpdf & Hname)].
      * destruct (ends_with ".pdf" (str_lower key)) eqn:Hpdf; [|auto].
        apply elem_of_union in Hin as [Hin|Hin]; [|auto].
        apply elem_of_singleton in Hin. right.
        exists (key :: keys), key. split; [reflexivity|].
        split; [left|auto].
      * right. exists (key :: keys), k. split; [reflexivity|].
        split; [right; exact Hk|auto].
    + intros [Hin|(ks & k & [= <-] & Hk & Hpdf & Hname)].
      * left. destruct (ends_with ".pdf" (str_lower key)); [|assumption].
        apply elem_of_union. auto.
      * apply elem_of_cons in Hk as [->|Hk].
        -- left. rewrite Hpdf. apply elem_of_union. left.
           apply elem_of_singleton. exact Hname.
        -- right. exists keys, k. auto.
Qed.

Lemma inventory_pages_spec pages : forall existing name,
  name ∈ foldl (fun acc page => inventory_page path_name str_lower page acc)
           existing pages <->
  name ∈ existing
  \/ exists keys key, Some keys ∈ pages /\ key ∈ keys
       /\ ends_with ".pdf" (str_lower key) = true /\ name = path_name key.
Proof.
  induction pages as [|page pages IH]; intros existing name; simpl.
  - split; [auto|]. intros [?|(ks & k & Hin & _)]; [assumption|].
    apply elem_of_nil in Hin. contradiction.
  - rewrite IH, inventory_page_spec. split.
    + intros [[?|(ks & k & -> & Hrest)]|(ks & k & Hin & Hrest)]; [auto| |].
      * right. exists ks, k. split; [left|exact Hrest].
      * right. exists ks, k. split; [right; exact Hin|exact Hrest].
    + intros [?|(ks & k & Hin & Hrest)]; [auto|].
      apply elem_of_cons in Hin as [<-|Hin].
      * left. right. exists ks, k. auto.
      * right. exists ks, k. auto.
Qed.

(** X18. [get_s3_inventory] raises [IndexError] on a URI with fewer than two
    slashes.  Otherwise it lists the bucket under the prefix of the URI and
    returns the file names of the keys that end in [.pdf] whatever the case
    of their letters, and no other name. *)
Theorem get_s3_inventory_names
  (list_objects : string -> string -> list Inventory.s3_page)
  (bucket prefix s3_uri : string) :
  ((count_char "/" s3_uri < 2)%nat ->
   get_s3_inventory path_name str_lower list_objects s3_uri
   = Raises (IndexError "list index out of range"))
  /\ (has_char "/" bucket = false ->
      exists names,
        get_s3_inventory path_name str_lower list_objects
          ("s3://" +:+ bucket +:+ "/" +:+ prefix) = Returns names
        /\ forall name,
             name ∈ names <->
             exists keys key,
               Some keys ∈ list_objects bucket prefix /\ key ∈ keys
               /\ ends_with ".pdf" (str_lower key) = true
               /\ name = path_name key).
Proof.
  split.
  - intros Hfew. unfold get_s3_inventory, uri_bucket.
    rewrite lookup_ge_None_2; [reflexivity|].
    rewrite split_on_length. lia.
  - intros Hb. unfold get_s3_inventory, uri_bucket, uri_prefix.
    rewrite (s3_uri_parts bucket prefix Hb). simpl.
    rewrite drop_0, join_split_on.
    eexists. split; [reflexivity|]. intros name.
    rewrite inventory_pages_spec. split; [|auto].
    intros [Hin|?]; [|assumption].
    exfalso. exact (not_elem_of_empty (C := gset string) name Hin).
Qed.

End UploadFacts.

Lemma upload_file_key_witness :
  AwsUpload.UpPut "in/42.pdf" "bucket" "/42.pdf"
    ∈ (AwsUpload.upload_file file_name (fun _ _ _ => AwsUpload.Uploaded)
         "in/42.pdf" "s3://bucket").2.
Proof.
  apply (proj1 (proj2 (upload_file_key file_name
                         (fun _ _ _ => AwsUpload.Uploaded)
                         "in/42.pdf" "bucket" "" "s3://bucket"))).
  reflexivity.
Defined.


Lemma get_s3_inventory_names_witness :
  AwsUpload.get_s3_inventory file_name (fun s => s)
    (fun _ _ => [Some ["pdfs/12.pdf"]]) "bucket"
  = AwsUpload.Raises (AwsUpload.IndexError "list index out of range").
Proof.
  apply (proj1 (get_s3_inventory_names file_name (fun s => s)
                  (fun _ _ => [Some ["pdfs/12.pdf"]]) "bucket" "" "bucket")).
  simpl. lia.
Defined.

Section UploadRunFacts.

Import AwsUpload.

Variable path_name : string -> string.
Variable str_lower : string -> string.
Variable int_of_str : string -> option Z.
Variable path_stem : string -> string.
Variable path_str : string -> string.

Variable put : string -> string -> string -> reply.
Variable bucket prefix : string.

Hypothesis bucket_plain : has_char "/" bucket = false.

#[local] Abbreviation s3_uri := ("s3://" +:+ bucket +:+ "/" +:+ prefix).
#[local] Abbreviation key_of :=
  (fun file_path : string => prefix +:+ "/" +:+ path_name file_path).

Lemma upload_file_run file_path :
  upload_file path_name put file_path s3_uri
  = match put file_path bucket (key_of file_path) with
    | Uploaded =>
        (Returns true,
         [UpPut file_path bucket (key_of file_path);
          UpLog INFO ("Successfully uploaded: " +:+ path_name file_path)])
    | RaisesClientError e =>
        (Returns false,
         [UpPut file_path bucket (key_of file_path);
          UpLog ERROR ("Error uploading " +:+ path_name file_path
                       +:+ ": " +:+ e)])
    | RaisesOther e =>
        (Raises (OtherError e), [UpPut file_path bucket (key_of file_path)])
    end.
Proof.
  unfold upload_file, uri_bucket, uri_prefix.
  rewrite (s3_uri_parts bucket prefix bucket_plain). simpl.
  rewrite drop_0, join_split_on. reflexivity.
Qed.

Lemma map_results_run file_list :
  (forall file_path e, file_path ∈ file_list ->
     put file_path bucket (key_of file_path) <> RaisesOther e) ->
  map_results path_name put s3_uri file_list
  = Returns (map (fun file_path =>
                    bool_decide (put file_path bucket (key_of file_path)
                                 = Uploaded)) file_list).
Proof.
  induction file_list as [|f l IH]; intros Hok; [reflexivity|].
  cbn [map_results map]. rewrite upload_file_run.
  rewrite IH by (intros f' e Hin; apply Hok; right; exact Hin).
  specialize (Hok f).
  destruct (put f bucket (key_of f)) as [|e|e]; simpl.
  - reflexivity.
  - reflexivity.
  - exfalso. apply (Hok e); [left|reflexivity].
Qed.

Lemma upload_events_puts file_list :
  filter (fun e => is_put e = true)
    (upload_events path_name put s3_uri file_list)
  = map (fun file_path => UpPut file_path bucket (key_of file_path)) file_list.
Proof.
  unfold upload_events.
  induction file_list as [|f l IH]; [reflexivity|].
  cbn [map concat]. rewrite filter_app, IH, upload_file_run.
  destruct (put f bucket (key_of f)); reflexivity.
Qed.

Lemma map_results_raises file_list : forall j file_path e,
  file_list !! j = Some file_path ->
  put file_path bucket (key_of file_path) = RaisesOther e ->
  (forall k earlier e', (k < j)%nat -> file_list !! k = Some earlier ->
     put earlier bucket (key_of earlier) <> RaisesOther e') ->
  map_results path_name put s3_uri file_list = Raises (OtherError e).
Proof.
  induction file_list as [|f l IH]; intros j file_path e Hj Hput Hbefore;
    [discriminate|].
  cbn [map_results]. rewrite upload_file_run.
  destruct j as [|j].
  - injection Hj as ->. rewrite Hput. reflexivity.
  - pose proof (Hbefore 0%nat f) as Hfirst.
    rewrite (IH j file_path e Hj Hput)
      by (intros k earlier e' Hlt Hk; apply (Hbefore (S k)); [lia|exact Hk]).
    destruct (put f bucket (key_of f)) as [|e'|e']; simpl;
      [reflexivity|reflexivity|].
    exfalso. apply (Hfirst e'); [lia|reflexivity|reflexivity].
Qed.

Lemma parallel_upload_run file_list num_threads :
  0 < num_threads ->
  (forall file_path e, file_path ∈ file_list ->
     put file_path bucket (key_of file_path) <> RaisesOther e) ->
  parallel_upload path_name put file_list s3_uri num_threads
  = Returns
      (length (filter (fun file_path =>
                         put file_path bucket (key_of file_path) = Uploaded)
                 file_list),
       UpLog INFO
         (upload_complete_msg
            (length (filter (fun file_path =>
                               put file_path bucket (key_of file_path) = Uploaded)
                       file_list))
            (length file_list))).
Proof.
  intros Hthreads Hok. unfold parallel_upload.
  rewrite decide_False by lia. rewrite (map_results_run _ Hok).
  assert (Hcount : forall l : list string,
    length (filter (fun r : bool => r = true)
              (map (fun file_path =>
                      bool_decide (put file_path bucket (key_of file_path)
                                   = Uploaded)) l))
    = length (filter (fun file_path =>
                        put file_path bucket (key_of file_path) = Uploaded) l)).
  { induction l as [|f l IH]; [reflexivity|].
    cbn [map]. rewrite !filter_cons.
    destruct (decide (put f bucket (key_of f) = Uploaded)) as [Hup|Hno].
    - rewrite bool_decide_eq_true_2 by exact Hup. simpl. f_equal. exact IH.
    - rewrite bool_decide_eq_false_2 by exact Hno. simpl. exact IH. }
  rewrite Hcount. reflexivity.
Qed.

(** X19. [parallel_upload] with a URI [s3://bucket/prefix].  With a positive
    number of threads and uploads that end in success or in [ClientError] it
    returns: it counts the files whose upload went through, never more than
    there are files, and closes with the record carrying that count and the
    number of files.  When uploads raise anything else, it raises the
    exception of the first such file in the order of the list.  With a
    number of threads that is not positive it raises [ValueError], whatever
    the files and the uploads. *)
Theorem parallel_upload_count file_list num_threads :
  (0 < num_threads ->
   (forall file_path e, file_path ∈ file_list ->
      put file_path bucket (key_of file_path) <> RaisesOther e) ->
   exists successes,
     parallel_upload path_name put file_list s3_uri num_threads
     = Returns (successes,
                UpLog INFO (upload_complete_msg successes (length file_list)))
     /\ successes
        = length (filter (fun file_path =>
                            put file_path bucket (key_of file_path) = Uploaded)
                    file_list)
     /\ (successes <= length file_list)%nat)
  /\ (0 < num_threads ->
      forall j file_path e,
        file_list !! j = Some file_path ->
        put file_path bucket (key_of file_path) = RaisesOther e ->
        (forall k earlier e', (k < j)%nat -> file_list !! k = Some earlier ->
           put earlier bucket (key_of earlier) <> RaisesOther e') ->
        parallel_upload path_name put file_list s3_uri num_threads
        = Raises (OtherError e))
  /\ (num_threads <= 0 ->
      parallel_upload path_name put file_list s3_uri num_threads
      = Raises (ExecutorError
                  (ValueError "max_workers must be greater than 0"))).
Proof.
  split; [|split].
  - intros Hthreads Hok. eexists.
    split; [apply (parallel_upload_run _ _ Hthreads Hok)|].
    split; [reflexivity|]. apply length_filter.
  - intros Hthreads j f e Hj Hput Hbefore. unfold parallel_upload.
    rewrite decide_False by lia.
    rewrite (map_results_raises file_list j f e Hj Hput Hbefore). reflexivity.
  - intros Hthreads. unfold parallel_upload.
    rewrite decide_True by exact Hthreads. reflexivity.
Qed.

Lemma filter_put_log (l : list log_record) :
  filter (fun e => is_put e = true) (map as_event l) = [].
Proof.
  induction l as [|r l IH]; [reflexivity|].
  cbn [map]. rewrite filter_cons. unfold as_event at 1. simpl. exact IH.
Qed.

#[local] Abbreviation first_with := (Terms.first_with int_of_str path_stem).

(** X20. The upload run of [main], on an inventory whose rows all carry a
    name, a URI [s3://bucket/prefix] and uploads that end in success or in
    [ClientError].  The files to upload are the paths of the first row of
    every accession number whose file name is not yet in the bucket (among
    the keys ending in [.pdf] under the prefix).  With a positive number of
    threads [upload_file] is called once for each of them, with the key
    [prefix/name], and for no other file.  With a number of threads that is
    not positive and a file to upload, [main] raises [ValueError] and no
    upload is made. *)
Theorem main_uploads (rows : list Inventory.csv_row)
  (list_objects : string -> string -> list Inventory.s3_page) (threads : Z) :
  Forall (fun row => is_Some (field "name" row)) rows ->
  (forall file_path e, put file_path bucket (key_of file_path) <> RaisesOther e) ->
  (0 < threads ->
   exists files trace,
     main path_name str_lower int_of_str path_stem path_str rows list_objects
       put s3_uri threads = (Returns files, trace)
     /\ (forall path,
           path ∈ files <->
           (exists a k row, first_with a rows = Some (k, row)
                            /\ field "name" row = Some path)
           /\ ~ (exists keys key,
                   Some keys ∈ list_objects bucket prefix /\ key ∈ keys
                   /\ ends_with ".pdf" (str_lower key) = true
                   /\ path_name path = path_name key))
     /\ filter (fun e => is_put e = true) trace
        = map (fun path => UpPut path bucket (key_of path)) files)
  /\ (threads <= 0 ->
      forall path a k row,
        first_with a rows = Some (k, row) ->
        field "name" row = Some path ->
        ~ (exists keys key,
             Some keys ∈ list_objects bucket prefix /\ key ∈ keys
             /\ ends_with ".pdf" (str_lower key) = true
             /\ path_name path = path_name key) ->
        exists trace,
          main path_name str_lower int_of_str path_stem path_str rows
            list_objects put s3_uri threads
          = (Raises (ExecutorError
                       (ValueError "max_workers must be greater than 0")),
             trace)
          /\ filter (fun e => is_put e = true) trace = []).
Proof.
  intros Hrows Hput.
  destruct (inventory_rows_inv int_of_str path_stem path_str rows []
              (Inventory.InventoryState [] ∅ [])
              (inventory_inv_init int_of_str path_stem path_str) Hrows)
    as (st & Hrun & [_ Hup _ _ _ _]).
  simpl in Hup.
  unfold main, Inventory.parse_csv_inventory. rewrite Hrun.
  unfold get_s3_inventory, uri_bucket, uri_prefix.
  rewrite (s3_uri_parts bucket prefix bucket_plain). simpl lookup. cbv iota.
  simpl drop. rewrite drop_0, join_split_on.
  set (names := foldl (fun acc page => inventory_page path_name str_lower page acc)
                  ∅ (list_objects bucket prefix)).
  assert (Hnames : forall name, name ∈ names <->
            exists keys key,
              Some keys ∈ list_objects bucket prefix /\ key ∈ keys
              /\ ends_with ".pdf" (str_lower key) = true /\ name = path_name key).
  { intros name. unfold names. rewrite inventory_pages_spec. split; [|auto].
    intros [Hin|?]; [|assumption].
    exfalso. exact (not_elem_of_empty (C := gset string) name Hin). }
  unfold filter_upload_list. cbn [fst snd].
  set (kept := filter (fun path => path_name path ∉ names)
                 (Inventory.upload_list st)).
  assert (Hkept : forall path,
            path ∈ kept <->
            (exists a k row, first_with a rows = Some (k, row)
                             /\ field "name" row = Some path)
            /\ ~ (exists keys key,
                    Some keys ∈ list_objects bucket prefix /\ key ∈ keys
                    /\ ends_with ".pdf" (str_lower key) = true
                    /\ path_name path = path_name key)).
  { intros path. unfold kept. rewrite list_elem_of_filter, Hup, Hnames. tauto. }
  split.
  - intros Hthreads. destruct kept as [|first others] eqn:Hlist.
    + eexists [], _. split; [reflexivity|]. split; [exact Hkept|].
      rewrite !filter_app.
      rewrite filter_put_log.
      destruct (decide _); reflexivity.
    + rewrite (parallel_upload_run (first :: others) threads Hthreads)
        by (intros f e _; apply Hput).
      eexists (first :: others), _. split; [reflexivity|]. split; [exact Hkept|].
      rewrite !filter_app, upload_events_puts.
      rewrite filter_put_log.
      destruct (decide _); cbn [filter app]; simpl; rewrite app_nil_r;
        reflexivity.
  - intros Hthreads path a k row Hfirst Hname Hnew.
    assert (Hin : path ∈ kept) by (apply Hkept; split; [eauto|exact Hnew]).
    destruct kept as [|first others] eqn:Hlist;
      [apply elem_of_nil in Hin; contradiction|].
    unfold parallel_upload. rewrite decide_True by exact Hthreads.
    eexists. split; [reflexivity|].
    rewrite !filter_app, filter_put_log.
    destruct (decide _); reflexivity.
Qed.

End UploadRunFacts.


Lemma parallel_upload_count_witness :
  (exists successes,
     AwsUpload.parallel_upload file_name (fun _ _ _ => AwsUpload.Uploaded)
       ["in/1.pdf"; "in/2.pdf"] "s3://bucket/pdfs" 6
     = AwsUpload.Returns
         (successes,
          AwsUpload.UpLog INFO (AwsUpload.upload_complete_msg successes 2))
     /\ (successes <= 2)%nat)
  /\ AwsUpload.parallel_upload file_name
       (fun file _ _ =>
          if decide (file = "in/2.pdf") then AwsUpload.RaisesOther "disk"
          else AwsUpload.Uploaded)
       ["in/1.pdf"; "in/2.pdf"; "in/3.pdf"] "s3://bucket/pdfs" 6
     = AwsUpload.Raises (AwsUpload.OtherError "disk")
  /\ AwsUpload.parallel_upload file_name (fun _ _ _ => AwsUpload.Uploaded)
       ["in/1.pdf"; "in/2.pdf"] "s3://bucket/pdfs" 0
     = AwsUpload.Raises
         (AwsUpload.ExecutorError
            (ValueError "max_workers must be greater than 0")).
Proof.
  split; [|split].
  - destruct (proj1 (parallel_upload_count file_name
                       (fun _ _ _ => AwsUpload.Uploaded) "bucket" "pdfs" eq_refl
                       ["in/1.pdf"; "in/2.pdf"] 6))
      as (n & Hrun & _ & Hle).
    + lia.
    + intros f e _. discriminate.
    + exists n. split; [exact Hrun|exact Hle].
  - apply (proj1 (proj2 (parallel_upload_count file_name
                           (fun file _ _ =>
                              if decide (file = "in/2.pdf")
                              then AwsUpload.RaisesOther "disk"
                              else AwsUpload.Uploaded)
                           "bucket" "pdfs" eq_refl
                           ["in/1.pdf"; "in/2.pdf"; "in/3.pdf"] 6))
             ltac:(lia) 1%nat "in/2.pdf" "disk").
    + reflexivity.
    + reflexivity.
    + intros [|k] earlier e' Hlt Hk; [|lia]. injection Hk as <-. discriminate.
  - apply (proj2 (proj2 (parallel_upload_count file_name
                           (fun _ _ _ => AwsUpload.Uploaded) "bucket" "pdfs"
                           eq_refl ["in/1.pdf"; "in/2.pdf"] 0))).
    lia.
Defined.

Lemma main_uploads_witness :
  (exists files trace,
     AwsUpload.main file_name (fun s => s) Sample.int_of_str Sample.path_stem
       Sample.path_str inventory_rows (fun _ _ => [Some ["pdfs/9.pdf"]])
       (fun _ _ _ => AwsUpload.Uploaded) "s3://bucket/pdfs" 6
     = (AwsUpload.Returns files, trace)
     /\ filter (fun e => is_put e = true) trace
        = map (fun path =>
                 AwsUpload.UpPut path "bucket"
                   ("pdfs" +:+ "/" +:+ file_name path))
            files)
  /\ exists trace,
       AwsUpload.main file_name (fun s => s) Sample.int_of_str Sample.path_stem
         Sample.path_str inventory_rows (fun _ _ => [Some ["pdfs/9.pdf"]])
         (fun _ _ _ => AwsUpload.Uploaded) "s3://bucket/pdfs" 0
       = (AwsUpload.Raises
            (AwsUpload.ExecutorError
               (ValueError "max_workers must be greater than 0")), trace)
       /\ filter (fun e => is_put e = true) trace = [].
Proof.
  split.
  - destruct (proj1 (main_uploads file_name (fun s => s) Sample.int_of_str
                       Sample.path_stem Sample.path_str
                       (fun _ _ _ => AwsUpload.Uploaded) "bucket" "pdfs" eq_refl
                       inventory_rows (fun _ _ => [Some ["pdfs/9.pdf"]]) 6
                       ltac:(repeat constructor; eexists; vm_compute;
                             reflexivity)
                       ltac:(intros f e; discriminate)))
      as (files & trace & Hrun & _ & Hputs).
    + lia.
    + exists files, trace. split; [exact Hrun|exact Hputs].
  - apply (proj2 (main_uploads file_name (fun s => s) Sample.int_of_str
                    Sample.path_stem Sample.path_str
                    (fun _ _ _ => AwsUpload.Uploaded) "bucket" "pdfs" eq_refl
                    inventory_rows (fun _ _ => [Some ["pdfs/9.pdf"]]) 0
                    ltac:(repeat constructor; eexists; vm_compute; reflexivity)
                    ltac:(intros f e; discriminate))
             ltac:(lia) "a/1.pdf" 1 0%nat {["name" := Some "a/1.pdf"]}).
    + vm_compute. reflexivity.
    + vm_compute. reflexivity.
    + intros (keys & key & Hkeys & Hkey & _ & Hname).
      apply list_elem_of_singleton in Hkeys. injection Hkeys as ->.
      apply list_elem_of_singleton in Hkey. subst key.
      vm_compute in Hname. discriminate.
Defined.


(** ** More on the listing, the inventory and the dispatch *)

Lemma listed_keys_spec (pages : list Inventory.s3_page) key :
  key ∈ listed_keys pages <-> exists keys, Some keys ∈ pages /\ key ∈ keys.
Proof.
  unfold listed_keys. induction pages as [|[keys|] pages IH]; csimpl.
  - split; [intros H; inversion H|].
    intros (keys & H & _). inversion H.
  - rewrite elem_of_app, IH. split.
    + intros [Hkey|(ks & Hks & Hkey)].
      * exists keys. split; [left|exact Hkey].
      * exists ks. split; [right; exact Hks|exact Hkey].
    + intros (ks & Hks & Hkey).
      apply elem_of_cons in Hks as [[= ->]|Hks]; [left; exact Hkey|].
      right. eauto.
  - rewrite IH. split.
    + intros (ks & Hks & Hkey). exists ks. split; [right; exact Hks|exact Hkey].
    + intros (ks & Hks & Hkey).
      apply elem_of_cons in Hks as [[=]|Hks]. eauto.
Qed.

(** X21. The set of [get_s3_pmids] depends on the keys of the listing only,
    not on how the paginator cuts them into pages, on their order or on
    their repetition: two listings with the same keys give the same set,
    and a page without contents changes nothing. *)
Theorem get_s3_pmids_paging (int_of_str : string -> option Z)
  (path_stem : string -> string) (pages pages' : list Inventory.s3_page) :
  (forall key, key ∈ listed_keys pages <-> key ∈ listed_keys pages') ->
  (Inventory.get_s3_pmids int_of_str path_stem pages).1
  = (Inventory.get_s3_pmids int_of_str path_stem pages').1
  /\ (Inventory.get_s3_pmids int_of_str path_stem (None :: pages)).1
     = (Inventory.get_s3_pmids int_of_str path_stem pages).1.
Proof.
  intros Hsame. split.
  - apply set_eq. intros p. unfold Inventory.get_s3_pmids.
    destruct (s3_pages_spec int_of_str path_stem pages (∅, [])) as (H1 & _).
    destruct (s3_pages_spec int_of_str path_stem pages' (∅, [])) as (H2 & _).
    rewrite H1, H2. simpl.
    assert (Hkeys : forall ps : list Inventory.s3_page,
      (exists keys key, Some keys ∈ ps /\ key ∈ keys
                        /\ int_of_str (path_stem key) = Some p)
      <-> exists key, key ∈ listed_keys ps
                      /\ int_of_str (path_stem key) = Some p).
    { intros ps. split.
      - intros (keys & key & Hks & Hk & Hp). exists key. split; [|exact Hp].
        apply listed_keys_spec. eauto.
      - intros (key & Hk & Hp). apply listed_keys_spec in Hk as (keys & Hks & Hk).
        eauto. }
    rewrite !Hkeys. split.
    + intros [?|(key & Hk & Hp)]; [auto|]. right. exists key.
      split; [apply Hsame; exact Hk|exact Hp].
    + intros [?|(key & Hk & Hp)]; [auto|]. right. exists key.
      split; [apply Hsame; exact Hk|exact Hp].
  - reflexivity.
Qed.

Lemma get_s3_pmids_paging_witness :
  (Inventory.get_s3_pmids Sample.int_of_str Sample.path_stem
     [Some ["pdfs/12.pdf"]; None; Some ["pdfs/7.pdf"; "pdfs/12.pdf"]]).1
  = (Inventory.get_s3_pmids Sample.int_of_str Sample.path_stem
       [Some ["pdfs/7.pdf"; "pdfs/12.pdf"]]).1.
Proof.
  apply (get_s3_pmids_paging Sample.int_of_str Sample.path_stem
           [Some ["pdfs/12.pdf"]; None; Some ["pdfs/7.pdf"; "pdfs/12.pdf"]]
           [Some ["pdfs/7.pdf"; "pdfs/12.pdf"]]).
  intros key. vm_compute listed_keys.
  rewrite !elem_of_cons. split; intros H; tauto.
Defined.

Section InventoryRaises.

Variable int_of_str : string -> option Z.
Variable path_stem : string -> string.
Variable path_str : string -> string.

Lemma inventory_rows_app rows1 : forall rows2 st,
  Inventory.inventory_rows int_of_str path_stem path_str (rows1 ++ rows2) st
  = match Inventory.inventory_rows int_of_str path_stem path_str rows1 st with
    | Ok st' =>
        Inventory.inventory_rows int_of_str path_stem path_str rows2 st'
    | Raise e => Raise e
    end.
Proof.
  induction rows1 as [|row rows1 IH]; intros rows2 st; simpl; [reflexivity|].
  destruct (Inventory.inventory_row int_of_str path_stem path_str row st);
    [apply IH|reflexivity].
Qed.

(** X22. [parse_csv_inventory] raises as soon as a row has no text in the
    [name] column, with [KeyError] when the column is missing and with
    [TypeError] when the row is too short for it: [Path(row["name"])] is
    outside the handler of [ValueError], and the outer handler re-raises.
    Nothing of the rows before is returned. *)
Theorem parse_csv_inventory_raises rows j row :
  rows !! j = Some row ->
  field "name" row = None ->
  (forall k r, (k < j)%nat -> rows !! k = Some r -> is_Some (field "name" r)) ->
  Inventory.parse_csv_inventory int_of_str path_stem path_str rows
  = Raise (match row !! "name" with
           | None => KeyError "name"
           | Some _ =>
               TypeError
                 "expected str, bytes or os.PathLike object, not NoneType"
           end).
Proof.
  intros Hj Hbad Hbefore. unfold Inventory.parse_csv_inventory.
  rewrite <- (take_drop_middle rows j row Hj), inventory_rows_app.
  assert (Htext : Forall (fun r => is_Some (field "name" r)) (take j rows)).
  { apply Forall_lookup. intros k r Hk.
    apply lookup_take_Some in Hk as [Hk Hlt]. eauto. }
  destruct (inventory_rows_inv int_of_str path_stem path_str (take j rows) []
              (Inventory.InventoryState [] ∅ [])
              (inventory_inv_init int_of_str path_stem path_str) Htext)
    as (st & Hrun & _).
  simpl in Hrun. rewrite Hrun. simpl.
  unfold Inventory.inventory_row. unfold field in Hbad.
  destruct (row !! "name") as [[name|]|]; [discriminate|reflexivity|reflexivity].
Qed.

End InventoryRaises.

Lemma parse_csv_inventory_raises_witness :
  Inventory.parse_csv_inventory Sample.int_of_str Sample.path_stem
    Sample.path_str
    [ {["name" := Some "a/1.pdf"]}; <["name" := None]> {["size" := Some "10"]} ]
  = Raise (TypeError "expected str, bytes or os.PathLike object, not NoneType").
Proof.
  rewrite (parse_csv_inventory_raises Sample.int_of_str Sample.path_stem
             Sample.path_str
             [ {["name" := Some "a/1.pdf"]};
               <["name" := None]> {["size" := Some "10"]} ] 1
             (<["name" := None]> {["size" := Some "10"]})).
  - vm_compute. reflexivity.
  - reflexivity.
  - vm_compute. reflexivity.
  - intros [|k] r Hlt Hk; [|lia]. injection Hk as <-.
    eexists. vm_compute. reflexivity.
Defined.

Section DispatchFacts.

Import DownloadPdfs.

Variable w : world.

Lemma gathered_app t1 t2 : gathered (t1 ++ t2) = gathered t1 ++ gathered t2.
Proof. unfold gathered. rewrite map_app, concat_app. reflexivity. Qed.

Lemma attempt_not_gathered pmid sl url path :
  gathered (attempt w pmid sl url path).2 = [].
Proof. unfold attempt. repeat case_match; reflexivity. Qed.

Lemma download_pdf_not_gathered pmid url backup :
  gathered (download_pdf w pmid url backup).2 = [].
Proof.
  unfold download_pdf.
  destruct (makedirs w pmid); [reflexivity|].
  repeat case_match; cbn [snd];
    repeat match goal with
      | |- context [EvMakedirs ?p :: ?l] =>
          change (gathered (EvMakedirs p :: l)) with (gathered l)
      end;
    rewrite ?gathered_app, ?attempt_not_gathered; reflexivity.
Qed.

Lemma process_chunk_gathered chunk i n :
  gathered (process_chunk w chunk i n).2 = map PMID chunk.
Proof.
  unfold process_chunk. cbn [snd].
  change (gathered (EvLog INFO (chunk_msg i n) :: EvGather (map PMID chunk) :: ?l))
    with (map PMID chunk ++ gathered l).
  assert (Hnone : gathered (concat (map snd
            (map (fun r => download_pdf w (PMID r) (URL r) (Backup_URL r))
               chunk))) = []).
  { induction chunk as [|r chunk IH]; [reflexivity|].
    cbn [map concat]. rewrite gathered_app, download_pdf_not_gathered. exact IH. }
  rewrite Hnone. apply app_nil_r.
Qed.

Lemma run_chunks_gathered chunks : forall i total results,
  gathered (run_chunks w i total chunks results).2 = map PMID (concat chunks).
Proof.
  induction chunks as [|chunk chunks IH]; intros i total results;
    [reflexivity|].
  cbn [run_chunks snd concat].
  rewrite !gathered_app, process_chunk_gathered, IH, map_app.
  destruct (decide (i < total)%nat); reflexivity.
Qed.

(** X23. [main] hands every row of the manifest to [asyncio.gather] exactly
    once, in the order of the manifest, whatever the downloads do; and the
    results hold at most one outcome per row. *)
Theorem main_dispatches (df : list row) :
  gathered (main w df).2 = map PMID df
  /\ (length (main w df).1 <= length df)%nat.
Proof.
  split.
  - unfold main. rewrite run_chunks_gathered, chunks_of_concat. reflexivity.
  - rewrite main_results.
    induction df as [|r df IH]; csimpl; [lia|].
    destruct (worker_result w r); simpl; lia.
Qed.

End DispatchFacts.


(** [ends_with] is Python's [str.endswith]: the text is some text followed
    by the suffix. *)
Lemma ends_with_spec suffix text :
  AwsUpload.ends_with suffix text = true
  <-> exists before, text = before +:+ suffix.
Proof.
  induction text as [|c text IH]; cbn [AwsUpload.ends_with].
  - destruct (String.eqb_spec "" suffix) as [<-|Hne].
    + split; [exists ""; reflexivity|reflexivity].
    + split; [discriminate|].
      intros ([|c before] & Heq).
      * change ("" +:+ suffix) with suffix in Heq. congruence.
      * change (String c before +:+ suffix)
          with (String c (before +:+ suffix)) in Heq. discriminate.
  - destruct (String.eqb_spec (String c text) suffix) as [<-|Hne].
    + split; [exists ""; reflexivity|reflexivity].
    + rewrite IH. split.
      * intros (before & ->). exists (String c before). reflexivity.
      * intros ([|c' before] & Heq).
        -- change ("" +:+ suffix) with suffix in Heq. congruence.
        -- change (String c' before +:+ suffix)
             with (String c' (before +:+ suffix)) in Heq.
           injection Heq as -> ->. eauto.
Qed.
